(** * Funding DSL: the hand-written text-to-model parser and the validator

    A shallow embedding of [textual/funding_dsl_parser.py] and
    [metamodel/funding_metamodel.py], and the properties of the
    specification that concern them.

    Conventions of the embedding.
    - A Python [str] is a list of characters.  The characters are code
      points below 256; the classes [\s] and [\d] of Python's [re] are
      written out on that range.
    - A Python [float] is an IEEE 754 binary64 number, taken from the
      Standard Library's [SpecFloat] with [prec = 53] and [emax = 1024].
    - A pattern of [re] is a term of [regex], matched by a backtracking
      matcher that tries the alternatives in the order of Python's.
    - [None] in an [option] is Python's [None]; an exception is the [Err]
      branch of [result].
    - A [dict] built by a literal is a record with one field per key; a
      field read with [.get] is an [entry], which says whether the key is
      there.
    - A [while] loop that ends because its position moves forward takes
      the number of its rounds from the length of the text. *)

From Stdlib Require Import ZArith Ascii String List Lia Bool.
From Stdlib Require Import Floats.SpecFloat Sorting.Sorted.
From stdpp Require Import base gmap strings list.

Local Open Scope nat_scope.

(** ** Strings *)

Abbreviation str := (list ascii).

Definition u (s : string) : str := list_ascii_of_string s.
Arguments u s%_string.

Definition ch (s : string) : ascii :=
  match s with String c _ => c | EmptyString => Ascii.zero end.
Arguments ch s%_string.

Definition dquote : ascii := ascii_of_N 34.

(** A literal in which the apostrophe stands for the double quote. *)
Definition uq (s : string) : str :=
  map (fun c => if Ascii.eqb c (ch "'") then dquote else c) (u s).
Arguments uq s%_string.

(** [text[a:b]] for [0 <= a] and [0 <= b]. *)
Definition slice (a b : nat) (s : str) : str := take (b - a) (drop a s).

(** [text[i]] where [i < len(text)]. *)
Definition char_at (i : nat) (s : str) : ascii := nth i s Ascii.zero.

Fixpoint strip_prefix (p s : str) : option str :=
  match p with
  | [] => Some s
  | a :: p' =>
      match s with
      | [] => None
      | b :: s' => if Ascii.eqb a b then strip_prefix p' s' else None
      end
  end.

(** [sep.join(l)] *)
Fixpoint join (sep : str) (l : list str) : str :=
  match l with
  | [] => []
  | [x] => x
  | x :: l' => x ++ sep ++ join sep l'
  end.

(** ** Character classes of [re] on code points below 256 *)

Definition code (c : ascii) : N := N_of_ascii c.

Definition in_range (lo hi : N) (c : ascii) : bool :=
  ((lo <=? code c) && (code c <=? hi))%N.

(** [\s]: the characters for which [str.isspace] holds. *)
Definition is_space (c : ascii) : bool :=
  in_range 9 13 c || in_range 28 32 c
  || N.eqb (code c) 133 || N.eqb (code c) 160.

(** [\d] *)
Definition is_digit (c : ascii) : bool := in_range 48 57 c.

(** [[A-Z]] *)
Definition is_upper (c : ascii) : bool := in_range 65 90 c.

(** [[\d.]] *)
Definition is_digit_or_dot (c : ascii) : bool :=
  is_digit c || Ascii.eqb c (ch ".").

(** The class of every character but the double quote. *)
Definition not_quote (c : ascii) : bool := negb (Ascii.eqb c dquote).

Definition newline : ascii := ascii_of_N 10.

(** [.] without [re.DOTALL] *)
Definition not_newline (c : ascii) : bool := negb (Ascii.eqb c newline).

(** [.] with [re.DOTALL] *)
Definition any_char (c : ascii) : bool := true.

(** ** A backtracking matcher for the patterns the parser uses

    The patterns of the parser are built from literals, character classes,
    greedy and lazy repetition of one character class, sequence,
    alternation, numbered groups and [$] (with [re.MULTILINE]).  The
    matcher tries the alternatives in the order Python's engine does:
    a greedy repetition takes the longest run first, a lazy one the
    shortest, the left alternative comes before the right one. *)

Inductive regex : Type :=
| Eps
| Lit (l : str)
| Cls (p : ascii -> bool)
| Star (p : ascii -> bool)
| Plus (p : ascii -> bool)
| StarLazy (p : ascii -> bool)
| Seq (r1 r2 : regex)
| Alt (r1 r2 : regex)
| Group (n : nat) (r : regex)
| Eol.

Declare Scope regex_scope.
Delimit Scope regex_scope with re.
Bind Scope regex_scope with regex.
Infix "--" := Seq (at level 62, right associativity) : regex_scope.

(** The groups that took part in a match, most recent first. *)
Abbreviation groups := (list (nat * str)).

Fixpoint group (n : nat) (g : groups) : option str :=
  match g with
  | [] => None
  | (k, s) :: g' => if Nat.eqb k n then Some s else group n g'
  end.

Section Matcher.
Context {R : Type}.

(** What is left of the text, the position reached, the groups so far. *)
Definition cont : Type := str -> nat -> groups -> option R.

Fixpoint star_greedy (p : ascii -> bool) (s : str) (i : nat)
         (g : groups) (k : cont) : option R :=
  match s with
  | c :: s' =>
      if p c then
        match star_greedy p s' (S i) g k with
        | Some r => Some r
        | None => k s i g
        end
      else k s i g
  | [] => k s i g
  end.

Fixpoint star_lazy (p : ascii -> bool) (s : str) (i : nat)
         (g : groups) (k : cont) : option R :=
  match k s i g with
  | Some r => Some r
  | None =>
      match s with
      | c :: s' => if p c then star_lazy p s' (S i) g k else None
      | [] => None
      end
  end.

Fixpoint rmatch (r : regex) (s : str) (i : nat) (g : groups)
         (k : cont) : option R :=
  match r with
  | Eps => k s i g
  | Lit l =>
      match strip_prefix l s with
      | Some s' => k s' (i + length l) g
      | None => None
      end
  | Cls p =>
      match s with
      | c :: s' => if p c then k s' (S i) g else None
      | [] => None
      end
  | Star p => star_greedy p s i g k
  | Plus p =>
      match s with
      | c :: s' => if p c then star_greedy p s' (S i) g k else None
      | [] => None
      end
  | StarLazy p => star_lazy p s i g k
  | Seq r1 r2 => rmatch r1 s i g (fun s' i' g' => rmatch r2 s' i' g' k)
  | Alt r1 r2 =>
      match rmatch r1 s i g k with
      | Some x => Some x
      | None => rmatch r2 s i g k
      end
  | Group n r1 =>
      rmatch r1 s i g (fun s' i' g' => k s' i' ((n, take (i' - i) s) :: g'))
  | Eol =>
      match s with
      | [] => k s i g
      | c :: _ => if Ascii.eqb c newline then k s i g else None
      end
  end.
End Matcher.

(** A match object: [m.start()], [m.end()] and the groups. *)
Record re_match : Type := MkMatch {
  m_start : nat;
  m_end : nat;
  m_groups : groups
}.

(** [m.group(n)] for a group that took part in the match. *)
Definition m_group (n : nat) (m : re_match) : str :=
  match group n (m_groups m) with Some s => s | None => [] end.

Definition accept (start : nat) : @cont re_match :=
  fun _ j g => Some (MkMatch start j g).

(** The match that starts at position [i], where [s] is the text from
    [i] on. *)
Definition match_here (r : regex) (s : str) (i : nat) : option re_match :=
  rmatch r s i [] (accept i).

Fixpoint search_from (r : regex) (s : str) (i : nat) : option re_match :=
  match match_here r s i with
  | Some m => Some m
  | None =>
      match s with
      | [] => None
      | _ :: s' => search_from r s' (S i)
      end
  end.

(** [re.search(r, s)]: the first position at which [r] matches. *)
Definition re_search (r : regex) (s : str) : option re_match :=
  search_from r s 0.

(** [re.match(r, s)] *)
Definition re_match_start (r : regex) (s : str) : option re_match :=
  match_here r s 0.

(** [re.finditer(r, s)] for a pattern that matches no empty string: each
    search starts where the match before ended.  The text bounds the
    number of matches. *)
Fixpoint finditer_fuel (fuel : nat) (r : regex) (s : str) : list re_match :=
  match fuel with
  | 0 => []
  | S fuel' =>
      match re_search r s with
      | None => []
      | Some m => m :: finditer_fuel fuel' r (drop (m_end m) s)
      end
  end.

Definition re_finditer (r : regex) (s : str) : list re_match :=
  finditer_fuel (S (length s)) r s.

(** [re.sub(r, '', s)] for a pattern that matches no empty string. *)
Fixpoint sub_empty_fuel (fuel : nat) (r : regex) (s : str) : str :=
  match fuel with
  | 0 => s
  | S fuel' =>
      match re_search r s with
      | None => s
      | Some m => take (m_start m) s ++ sub_empty_fuel fuel' r (drop (m_end m) s)
      end
  end.

Definition re_sub_empty (r : regex) (s : str) : str :=
  sub_empty_fuel (S (length s)) r s.

(** ** Exceptions *)

Inductive exn : Type :=
| ParseError (msg : str)
| ValueError (msg : str)
| OverflowError (msg : str)
| ZeroDivisionError (msg : str)
| FileNotFoundError (msg : str)
| OtherError (msg : str).

(** [str(e)] *)
Definition exn_str (e : exn) : str :=
  match e with
  | ParseError m | ValueError m | OverflowError m
  | ZeroDivisionError m | FileNotFoundError m | OtherError m => m
  end.

Inductive result (A : Type) : Type :=
| Ok (a : A)
| Err (e : exn).
Arguments Ok {A} a.
Arguments Err {A} e.

Definition bind {A B : Type} (x : result A) (f : A -> result B) : result B :=
  match x with
  | Ok a => f a
  | Err e => Err e
  end.

Notation "'do' x <- e ; k" := (bind e (fun x => k))
  (at level 10, x name, e at level 100, k at level 200).

(** The results of [f] on the elements of [l], up to the first exception. *)
Fixpoint map_result {A B : Type} (f : A -> result B) (l : list A)
  : result (list B) :=
  match l with
  | [] => Ok []
  | a :: l' =>
      do b <- f a;
      do bs <- map_result f l';
      Ok (b :: bs)
  end.

(** ** Floating-point numbers *)

Module Float.
Definition prec : Z := 53.
Definition emax : Z := 1024.

Abbreviation float := spec_float.

Definition zero : float := S754_zero false.
Definition eqb : float -> float -> bool := SFeqb.
Definition ltb : float -> float -> bool := SFltb.
Definition leb : float -> float -> bool := SFleb.
Definition mul : float -> float -> float := SFmul prec emax.
Definition div : float -> float -> float := SFdiv prec emax.

(** The float nearest to the integer [n], ties to even. *)
Definition of_Z (n : Z) : float := binary_normalize prec emax n 0 false.

(** The float nearest to [n / d], ties to even, for [0 <= n] and
    [0 < d]. *)
Definition of_ratio (n d : Z) : float :=
  match n with
  | Z0 => zero
  | _ =>
      let '(q, e, l) := SFdiv_core_binary prec emax n 0 d 0 in
      binary_round_aux prec emax false q e l
  end.

(** [bool(x)]: every float but the two zeros is true. *)
Definition truthy (x : float) : bool := negb (eqb x zero).

(** [x / y] *)
Definition truediv (x y : float) : result float :=
  if eqb y zero then Err (ZeroDivisionError (u"float division by zero"))
  else Ok (div x y).

(** [min(x, y)]: the second argument replaces the first when it is
    smaller. *)
Definition min (x y : float) : float := if ltb y x then y else x.

(** [int(x)]: truncation towards zero. *)
Definition to_int (x : float) : result Z :=
  match x with
  | S754_zero _ => Ok 0%Z
  | S754_finite s m e =>
      let a := match e with
               | Zneg k => Z.shiftr (Zpos m) (Zpos k)
               | _ => Z.shiftl (Zpos m) e
               end in
      Ok (if s then Z.opp a else a)
  | S754_infinity _ =>
      Err (OverflowError (u"cannot convert float infinity to integer"))
  | S754_nan => Err (ValueError (u"cannot convert float NaN to integer"))
  end.
End Float.
Import Float (float).

Definition digit_value (c : ascii) : Z := Z.of_N (code c) - 48.

(** The number a string of decimal digits denotes. *)
Definition digits_value (s : str) : Z :=
  fold_left (fun acc c => acc * 10 + digit_value c)%Z s 0%Z.

(** The text before the first [c], and the text after it when there is
    one. *)
Fixpoint split_at (c : ascii) (s : str) : str * option str :=
  match s with
  | [] => ([], None)
  | a :: s' =>
      if Ascii.eqb a c then ([], Some s')
      else let '(l, r) := split_at c s' in (a :: l, r)
  end.

(** [float(s)] for a string of digits and dots, which is what the parser
    converts: digits with at most one dot among them, and at least one
    digit.  [None] is Python's refusal of the string. *)
Definition float_of_digits (s : str) : option float :=
  let '(ip, rest) := split_at (ch ".") s in
  let fp := match rest with Some f => f | None => [] end in
  if forallb is_digit ip && forallb is_digit fp
     && negb (Nat.eqb (length ip + length fp) 0)
  then Some (Float.of_ratio (digits_value (ip ++ fp))
                            (10 ^ Z.of_nat (length fp)))
  else None.

(** [float(s)], with the exception Python raises. *)
Definition py_float (s : str) : result float :=
  match float_of_digits s with
  | Some x => Ok x
  | None =>
      Err (ValueError (u"could not convert string to float: '" ++ s ++ u"'"))
  end.

(** ** Dates *)

(** A [datetime] at midnight, which is what the format [%Y-%m-%d]
    produces. *)
Record datetime : Type := MkDate {
  year : Z;
  month : Z;
  day : Z
}.

Definition is_leap (y : Z) : bool :=
  ((y mod 4 =? 0) && (negb (y mod 100 =? 0) || (y mod 400 =? 0)))%Z.

Definition days_in_month (y m : Z) : Z :=
  if (m =? 2)%Z then (if is_leap y then 29 else 28)%Z
  else if ((m =? 4) || (m =? 6) || (m =? 9) || (m =? 11))%Z then 30%Z
  else 31%Z.

(** The pattern [datetime.strptime] builds from [%Y-%m-%d]: four digits,
    a month [1[0-2]|0[1-9]|[1-9]] and a day
    [3[01]|[12]\d|0[1-9]|[1-9]| [1-9]]. *)
Definition ymd_re : regex :=
  (Group 1 (Cls is_digit -- Cls is_digit -- Cls is_digit -- Cls is_digit)
   -- Lit (u"-")
   -- Group 2 (Alt (Lit (u"1") -- Cls (in_range 48 50))
              (Alt (Lit (u"0") -- Cls (in_range 49 57))
                   (Cls (in_range 49 57))))
   -- Lit (u"-")
   -- Group 3 (Alt (Lit (u"3") -- Cls (in_range 48 49))
              (Alt (Cls (in_range 49 50) -- Cls is_digit)
              (Alt (Lit (u"0") -- Cls (in_range 49 57))
              (Alt (Cls (in_range 49 57))
                   (Lit (u" ") -- Cls (in_range 49 57)))))))%re.

(** [int(s)] for the day group, which may start with a blank. *)
Definition int_of_field (s : str) : Z :=
  digits_value (List.filter is_digit s).

(** [datetime.strptime(s, '%Y-%m-%d')]; [None] is the [ValueError] it
    raises when the text does not match the pattern, when text remains
    after the match, or when the date does not exist. *)
Definition strptime_ymd (s : str) : option datetime :=
  match re_match_start ymd_re s with
  | None => None
  | Some m =>
      if negb (Nat.eqb (m_end m) (length s)) then None
      else
        let y := int_of_field (m_group 1 m) in
        let mo := int_of_field (m_group 2 m) in
        let d := int_of_field (m_group 3 m) in
        if ((1 <=? y) && (1 <=? d) && (d <=? days_in_month y mo))%Z
        then Some (MkDate y mo d)
        else None
  end.

(** ** The metamodel: [metamodel/funding_metamodel.py] *)

Inductive FundingPlatform : Type :=
| GITHUB_SPONSORS | PATREON | OPEN_COLLECTIVE | KO_FI | BUY_ME_A_COFFEE
| LIBERAPAY | PAYPAL | TIDELIFT | ISSUEHUNT | COMMUNITY_BRIDGE | POLAR
| THANKS_DEV | CUSTOM.

(** [platform.value] *)
Definition platform_value (p : FundingPlatform) : str :=
  match p with
  | GITHUB_SPONSORS => u"github"
  | PATREON => u"patreon"
  | OPEN_COLLECTIVE => u"open_collective"
  | KO_FI => u"ko_fi"
  | BUY_ME_A_COFFEE => u"buy_me_a_coffee"
  | LIBERAPAY => u"liberapay"
  | PAYPAL => u"paypal"
  | TIDELIFT => u"tidelift"
  | ISSUEHUNT => u"issuehunt"
  | COMMUNITY_BRIDGE => u"community_bridge"
  | POLAR => u"polar"
  | THANKS_DEV => u"thanks_dev"
  | CUSTOM => u"custom"
  end.

Inductive FundingType : Type := ONE_TIME | RECURRING | BOTH.

Inductive CurrencyType : Type := USD | EUR | GBP | CAD | AUD.

Global Instance FundingPlatform_eq_dec : EqDecision FundingPlatform.
Proof. solve_decision. Defined.

Record FundingAmount : Type := MkAmount {
  value : float;
  currency : CurrencyType
}.

Record Beneficiary : Type := MkBeneficiary {
  b_name : str;
  b_email : option str;
  b_github_username : option str;
  b_website : option str;
  b_description : option str
}.

Record FundingTier : Type := MkTier {
  t_name : str;
  t_amount : FundingAmount;
  t_description : option str;
  t_benefits : list str;
  t_max_sponsors : option Z;
  t_is_active : bool
}.

Record FundingGoal : Type := MkGoal {
  g_name : str;
  target_amount : FundingAmount;
  g_description : option str;
  deadline : option datetime;
  current_amount : FundingAmount;
  is_reached : bool
}.

(** [is_active] is declared [bool]; the parser can store [None] in it,
    so the field is an [option]. *)
Record FundingSource : Type := MkSource {
  platform : FundingPlatform;
  username : str;
  funding_type : FundingType;
  is_active : option bool;
  custom_url : option str;
  platform_specific_config : gmap str str
}.

Record FundingConfiguration : Type := MkConfig {
  project_name : str;
  description : option str;
  beneficiaries : list Beneficiary;
  funding_sources : list FundingSource;
  tiers : list FundingTier;
  goals : list FundingGoal;
  preferred_currency : CurrencyType;
  min_amount : option FundingAmount;
  max_amount : option FundingAmount
}.

(** [FundingGoal.progress_percentage] *)
Definition progress_percentage (g : FundingGoal) : result float :=
  if Float.eqb (value (target_amount g)) (Float.of_Z 0) then Ok Float.zero
  else
    do q <- Float.truediv (value (current_amount g)) (value (target_amount g));
    Ok (Float.min (Float.mul q (Float.of_Z 100)) (Float.of_Z 100)).

(** The [add_*] methods append to the list of the configuration. *)
Definition add_beneficiary (c : FundingConfiguration) (b : Beneficiary)
  : FundingConfiguration :=
  MkConfig (project_name c) (description c) (beneficiaries c ++ [b])
           (funding_sources c) (tiers c) (goals c) (preferred_currency c)
           (min_amount c) (max_amount c).

Definition add_funding_source (c : FundingConfiguration) (s : FundingSource)
  : FundingConfiguration :=
  MkConfig (project_name c) (description c) (beneficiaries c)
           (funding_sources c ++ [s]) (tiers c) (goals c)
           (preferred_currency c) (min_amount c) (max_amount c).

Definition add_tier (c : FundingConfiguration) (t : FundingTier)
  : FundingConfiguration :=
  MkConfig (project_name c) (description c) (beneficiaries c)
           (funding_sources c) (tiers c ++ [t]) (goals c)
           (preferred_currency c) (min_amount c) (max_amount c).

Definition add_goal (c : FundingConfiguration) (g : FundingGoal)
  : FundingConfiguration :=
  MkConfig (project_name c) (description c) (beneficiaries c)
           (funding_sources c) (tiers c) (goals c ++ [g])
           (preferred_currency c) (min_amount c) (max_amount c).

(** ** The validator: [FundingModelValidator] *)

(** [not s] for a string. *)
Definition str_falsy (s : str) : bool :=
  match s with [] => true | _ => false end.

(** [not s] for a string that may be [None]. *)
Definition opt_str_falsy (s : option str) : bool :=
  match s with None => true | Some s' => str_falsy s' end.

(** [c in s] *)
Definition contains_char (c : ascii) (s : str) : bool :=
  existsb (Ascii.eqb c) s.

(** [s.startswith(p)] *)
Definition startswith (p s : str) : bool :=
  match strip_prefix p s with Some _ => true | None => false end.

Definition valid_platforms : list str :=
  [u"npm"; u"pypi"; u"rubygems"; u"maven"; u"packagist"; u"nuget"].

Definition msg_project_name : str := u"Project name is required".
Definition msg_beneficiary : str := u"At least one beneficiary is required".
Definition msg_source : str := u"At least one funding source is required".
Definition msg_username (p : FundingPlatform) : str :=
  u"Username is required for " ++ platform_value p.
Definition msg_custom_url : str :=
  u"Custom URL is required for custom platforms".
Definition msg_tidelift_format : str :=
  u"Tidelift username must be in format 'platform-name/package-name' (e.g., 'npm/package-name')".
Definition msg_tidelift_registry : str :=
  u"Tidelift platform name must be one of: " ++ join (u", ") valid_platforms.
Definition msg_thanks_dev : str :=
  u"Thanks.dev username must be in format 'u/gh/username'".
Definition msg_tier_names : str := u"Funding tier names must be unique".
Definition msg_goal_names : str := u"Funding goal names must be unique".

(** [errors.append(msg)] when [b] holds. *)
Definition append_if (b : bool) (msg : str) (errors : list str) : list str :=
  if b then errors ++ [msg] else errors.

(** The body of the loop over the funding sources. *)
Definition validate_source (errors : list str) (source : FundingSource)
  : list str :=
  let errors :=
    append_if (str_falsy (username source))
              (msg_username (platform source)) errors in
  let errors :=
    append_if (bool_decide (platform source = CUSTOM)
               && opt_str_falsy (custom_url source))
              msg_custom_url errors in
  let errors :=
    if bool_decide (platform source = TIDELIFT) then
      if negb (contains_char (ch "/") (username source)) then
        errors ++ [msg_tidelift_format]
      else
        let platform_name := fst (split_at (ch "/") (username source)) in
        append_if (negb (bool_decide (platform_name ∈ valid_platforms)))
                  msg_tidelift_registry errors
    else errors in
  let errors :=
    if bool_decide (platform source = THANKS_DEV) then
      append_if (negb (startswith (u"u/gh/") (username source)))
                msg_thanks_dev errors
    else errors in
  errors.

(** [len(set(names))] *)
Definition distinct_count (names : list str) : nat :=
  size (list_to_set names : gset str).

(** [FundingModelValidator.validate_configuration] *)
Definition validate_configuration (config : FundingConfiguration) : list str :=
  let errors := [] in
  let errors :=
    append_if (str_falsy (project_name config)) msg_project_name errors in
  let errors :=
    append_if (Nat.eqb (length (beneficiaries config)) 0)
              msg_beneficiary errors in
  let errors :=
    append_if (Nat.eqb (length (funding_sources config)) 0)
              msg_source errors in
  let errors := fold_left validate_source (funding_sources config) errors in
  let tier_names := map t_name (tiers config) in
  let errors :=
    append_if (negb (Nat.eqb (length tier_names) (distinct_count tier_names)))
              msg_tier_names errors in
  let goal_names := map g_name (goals config) in
  let errors :=
    append_if (negb (Nat.eqb (length goal_names) (distinct_count goal_names)))
              msg_goal_names errors in
  errors.

(** [FundingModelValidator.is_valid_configuration] *)
Definition is_valid_configuration (config : FundingConfiguration) : bool :=
  Nat.eqb (length (validate_configuration config)) 0.

(** ** The scanner: [FundingDSLParser], locating blocks and properties *)

Definition q : regex := Lit [dquote].

(** [//.*?$] with [re.MULTILINE] *)
Definition line_comment_re : regex :=
  (Lit (u"//") -- StarLazy not_newline -- Eol)%re.

(** [/\*.*?\*/] with [re.DOTALL] *)
Definition block_comment_re : regex :=
  (Lit (u"/*") -- StarLazy any_char -- Lit (u"*/"))%re.

(** The pattern of the header of the funding block: the word [funding],
    blanks, a quoted name, optional blanks and an opening brace. *)
Definition funding_re : regex :=
  (Lit (u"funding") -- Plus is_space -- q -- Group 1 (Plus not_quote) -- q
   -- Star is_space -- Lit (u"{"))%re.

(** The pattern of a quoted property: the name, blanks and a quoted
    value. *)
Definition string_property_re (property_name : str) : regex :=
  (Lit property_name -- Plus is_space -- q -- Group 1 (Plus not_quote) -- q)%re.

(** [{property_name}\s+([A-Z]+)] *)
Definition keyword_property_re (property_name : str) : regex :=
  (Lit property_name -- Plus is_space -- Group 1 (Plus is_upper))%re.

(** [{property_name}\s+([\d.]+)] *)
Definition number_property_re (property_name : str) : regex :=
  (Lit property_name -- Plus is_space -- Group 1 (Plus is_digit_or_dot))%re.

(** [{property_name}\s+(true|false)] *)
Definition boolean_property_re (property_name : str) : regex :=
  (Lit property_name -- Plus is_space
   -- Group 1 (Alt (Lit (u"true")) (Lit (u"false"))))%re.

(** [{block_name}\s*\{] *)
Definition block_re (block_name : str) : regex :=
  (Lit block_name -- Star is_space -- Lit (u"{"))%re.

(** The pattern of the header of a named entry: the keyword, blanks, a
    quoted name, optional blanks and an opening brace. *)
Definition entry_re (keyword : str) : regex :=
  (Lit keyword -- Plus is_space -- q -- Group 1 (Plus not_quote) -- q
   -- Star is_space -- Lit (u"{"))%re.

(** [config\s*\{(.*?)\}] with [re.DOTALL] *)
Definition config_re : regex :=
  (Lit (u"config") -- Star is_space -- Lit (u"{")
   -- Group 1 (StarLazy any_char) -- Lit (u"}"))%re.

(** Two quoted strings with blanks between them. *)
Definition kv_re : regex :=
  (q -- Group 1 (Plus not_quote) -- q -- Plus is_space
   -- q -- Group 2 (Plus not_quote) -- q)%re.

(** [{name}\s+([\d.]+)\s+([A-Z]+)] *)
Definition amount_re (name : str) : regex :=
  (Lit name -- Plus is_space -- Group 1 (Plus is_digit_or_dot)
   -- Plus is_space -- Group 2 (Plus is_upper))%re.

(** [{property_name}\s*\[(.*?)\]] with [re.DOTALL] *)
Definition string_list_re (property_name : str) : regex :=
  (Lit property_name -- Star is_space -- Lit (u"[")
   -- Group 1 (StarLazy any_char) -- Lit (u"]"))%re.

(** One quoted string. *)
Definition quoted_re : regex := (q -- Group 1 (Plus not_quote) -- q)%re.

(** The two [re.sub] calls that remove the comments. *)
Definition strip_comments (text : str) : str :=
  re_sub_empty block_comment_re (re_sub_empty line_comment_re text).

Definition _extract_string_property (text property_name : str) : option str :=
  match re_search (string_property_re property_name) text with
  | Some m => Some (m_group 1 m)
  | None => None
  end.

Definition _extract_keyword_property (text property_name : str) : option str :=
  match re_search (keyword_property_re property_name) text with
  | Some m => Some (m_group 1 m)
  | None => None
  end.

Definition _extract_number_property (text property_name : str)
  : result (option float) :=
  match re_search (number_property_re property_name) text with
  | Some m => do x <- py_float (m_group 1 m); Ok (Some x)
  | None => Ok None
  end.

Definition _extract_boolean_property (text property_name : str)
  : option bool :=
  match re_search (boolean_property_re property_name) text with
  | Some m => Some (bool_decide (m_group 1 m = u"true"))
  | None => None
  end.

(** The loop of [_extract_balanced_content]: [rest] is [text[pos:]]; the
    result is the position of the closing brace at which the count comes
    back to zero. *)
Fixpoint scan_braces (rest : str) (pos : nat) (brace_count : Z)
  : option nat :=
  match rest with
  | [] => None
  | c :: rest' =>
      if Ascii.eqb c (ch "{") then
        scan_braces rest' (S pos) (brace_count + 1)
      else if Ascii.eqb c (ch "}") then
        let brace_count := (brace_count - 1)%Z in
        if (brace_count =? 0)%Z then Some pos
        else scan_braces rest' (S pos) brace_count
      else scan_braces rest' (S pos) brace_count
  end.

Definition _extract_balanced_content (text : str) (start_pos : nat) : str :=
  if (length text <=? start_pos)
     || negb (Ascii.eqb (char_at start_pos text) (ch "{"))
  then []
  else
    match scan_braces (drop start_pos text) start_pos 0 with
    | Some pos => slice (start_pos + 1) pos text
    | None => []
    end.

Definition _extract_balanced_block (text block_name : str) : option str :=
  match re_search (block_re block_name) text with
  | None => None
  | Some m =>
      let start_pos := m_end m - 1 in
      Some (_extract_balanced_content text start_pos)
  end.

(** [not block_text] for the result of [_extract_balanced_block]. *)
Definition block_falsy (t : option str) : bool := opt_str_falsy t.

Definition _extract_config_block (text : str) : gmap str str :=
  match re_search config_re text with
  | Some config_match =>
      let config_text := m_group 1 config_match in
      fold_left (fun config m => <[m_group 1 m := m_group 2 m]> config)
                (re_finditer kv_re config_text) ∅
  | None => ∅
  end.

Definition _extract_string_list (text property_name : str) : list str :=
  match re_search (string_list_re property_name) text with
  | None => []
  | Some m => map (m_group 1) (re_finditer quoted_re (m_group 1 m))
  end.

(** ** The dictionaries the scanner hands to the builder *)

(** What a dictionary holds under a key that the builder reads with
    [.get]. *)
Inductive entry (A : Type) : Type :=
| Present (v : A)
| Absent.
Arguments Present {A} v.
Arguments Absent {A}.

(** [d.get(key, default)] *)
Definition dict_get {A : Type} (e : entry A) (default : A) : A :=
  match e with
  | Present v => v
  | Absent => default
  end.

(** [mapping.get(key, default)] for a key that may be [None]. *)
Definition mapping_get {A : Type} (mapping : gmap str A) (key : option str)
           (default : A) : A :=
  match key with
  | Some k => match mapping !! k with Some v => v | None => default end
  | None => default
  end.

Record beneficiary_data : Type := MkBeneficiaryData {
  bd_name : str;
  bd_email : entry (option str);
  bd_github : entry (option str);
  bd_website : entry (option str);
  bd_description : entry (option str)
}.

Record source_data : Type := MkSourceData {
  sd_platform : str;
  sd_username : str;
  sd_type : entry (option str);
  sd_active : entry (option bool);
  sd_config : entry (gmap str str);
  sd_url : entry (option str)
}.

Record amount_data : Type := MkAmountData {
  ad_value : float;
  ad_currency : str
}.

Record tier_data : Type := MkTierData {
  td_name : str;
  td_amount : amount_data;
  td_description : entry (option str);
  td_max_sponsors : entry (option float);
  td_benefits : entry (list str)
}.

Record goal_data : Type := MkGoalData {
  gd_name : str;
  gd_target_amount : amount_data;
  gd_current_amount : amount_data;
  gd_description : entry (option str);
  gd_deadline : entry (option str)
}.

Record config_data : Type := MkConfigData {
  cd_project_name : str;
  cd_description : entry (option str);
  cd_currency : entry (option str);
  cd_min_amount : entry (option float);
  cd_max_amount : entry (option float);
  cd_beneficiaries : entry (list beneficiary_data);
  cd_sources : entry (list source_data);
  cd_tiers : entry (list tier_data);
  cd_goals : entry (list goal_data)
}.

(** ** The scanner: the entries of a block *)

(** One entry found by the loop below: its name, the text between its
    braces, and where its header starts in the text of the block.  The
    parser does not keep the last one; the statements about the order of
    the entries do. *)
Record block : Type := MkBlock {
  blk_offset : nat;
  blk_name : str;
  blk_props : str
}.

(** The loop the four extractors share:
    search the pattern in [text[pos:]], stop when it is not found, take
    the name from group 1 and the text between the braces that follow, and
    go on after that text.  Each round moves [pos] forward, so the length
    of the text bounds the number of rounds. *)
Fixpoint scan_entries (fuel : nat) (pattern : regex) (text : str)
         (pos : nat) : list block :=
  match fuel with
  | 0 => []
  | S fuel' =>
      match re_search pattern (drop pos text) with
      | None => []
      | Some m =>
          let name := m_group 1 m in
          let start_pos := pos + m_end m - 1 in
          let props_text := _extract_balanced_content text start_pos in
          MkBlock (pos + m_start m) name props_text
          :: scan_entries fuel' pattern text
                          (start_pos + length props_text + 2)
      end
  end.

Definition entries (pattern : regex) (text : str) : list block :=
  scan_entries (S (length text)) pattern text 0.

(** The dictionary of one round of [_extract_beneficiaries]. *)
Definition beneficiary_of_block (b : block) : beneficiary_data :=
  let props_text := blk_props b in
  MkBeneficiaryData
    (blk_name b)
    (Present (_extract_string_property props_text (u"email")))
    (Present (_extract_string_property props_text (u"github")))
    (Present (_extract_string_property props_text (u"website")))
    (Present (_extract_string_property props_text (u"description"))).

(** [_extract_beneficiaries]: the [while] loop is [entries], the
    dictionary of one round is [beneficiary_of_block]. *)
Definition _extract_beneficiaries (text : str) : list beneficiary_data :=
  let beneficiaries_text := _extract_balanced_block text (u"beneficiaries") in
  if block_falsy beneficiaries_text then []
  else
    let beneficiaries_text := default [] beneficiaries_text in
    map beneficiary_of_block
        (entries (entry_re (u"beneficiary")) beneficiaries_text).

Definition all_platforms : list str :=
  [u"github_sponsors"; u"patreon"; u"ko_fi"; u"open_collective";
   u"buy_me_a_coffee"; u"liberapay"; u"paypal"; u"tidelift"; u"issuehunt";
   u"community_bridge"; u"polar"; u"thanks_dev"; u"custom"].

(** The dictionary of one round of [_extract_sources]: the keys [type],
    [active] and [config] are always there, [url] only for [custom]. *)
Definition source_of_block (platform : str) (b : block) : source_data :=
  let props_text := blk_props b in
  MkSourceData
    platform
    (blk_name b)
    (Present (_extract_keyword_property props_text (u"type")))
    (Present (_extract_boolean_property props_text (u"active")))
    (Present (_extract_config_block props_text))
    (if bool_decide (platform = u"custom")
     then Present (_extract_string_property props_text (u"url"))
     else Absent).

(** The sources of one platform keyword, in the text of the [sources]
    block. *)
Definition sources_of_platform (sources_text platform : str)
  : list source_data :=
  map (source_of_block platform) (entries (entry_re platform) sources_text).

(** [_extract_sources]: the [for] loop over the platform keywords, each
    with the [while] loop over the whole text of the block; the list of
    the sources grows in that order. *)
Definition _extract_sources (text : str) : list source_data :=
  let sources_text := _extract_balanced_block text (u"sources") in
  if block_falsy sources_text then []
  else
    let sources_text := default [] sources_text in
    flat_map (sources_of_platform sources_text) all_platforms.

(** The value and the currency of [{name} <number> <CURRENCY>] in the
    text of an entry; zero dollars when the text has none. *)
Definition extract_amount (props_text name : str) : result amount_data :=
  match re_search (amount_re name) props_text with
  | Some m =>
      do v <- py_float (m_group 1 m);
      Ok (MkAmountData v (m_group 2 m))
  | None => Ok (MkAmountData Float.zero (u"USD"))
  end.

(** The dictionary of one round of [_extract_tiers]; the two numbers are
    converted in this order. *)
Definition tier_of_block (b : block) : result tier_data :=
  let props_text := blk_props b in
  do amount <- extract_amount props_text (u"amount");
  let description := _extract_string_property props_text (u"description") in
  do max_sponsors <- _extract_number_property props_text (u"max_sponsors");
  Ok (MkTierData (blk_name b) amount (Present description)
                 (Present max_sponsors)
                 (Present (_extract_string_list props_text (u"benefits")))).

Definition _extract_tiers (text : str) : result (list tier_data) :=
  let tiers_text := _extract_balanced_block text (u"tiers") in
  if block_falsy tiers_text then Ok []
  else
    let tiers_text := default [] tiers_text in
    map_result tier_of_block (entries (entry_re (u"tier")) tiers_text).

(** The dictionary of one round of [_extract_goals]. *)
Definition goal_of_block (b : block) : result goal_data :=
  let props_text := blk_props b in
  do target <- extract_amount props_text (u"target");
  do current <- extract_amount props_text (u"current");
  Ok (MkGoalData (blk_name b) target current
                 (Present (_extract_string_property props_text (u"description")))
                 (Present (_extract_string_property props_text (u"deadline")))).

Definition _extract_goals (text : str) : result (list goal_data) :=
  let goals_text := _extract_balanced_block text (u"goals") in
  if block_falsy goals_text then Ok []
  else
    let goals_text := default [] goals_text in
    map_result goal_of_block (entries (entry_re (u"goal")) goals_text).

Definition _simple_parse (text : str) : result config_data :=
  let text := strip_comments text in
  match re_search funding_re text with
  | None => Err (ParseError (u"No funding block found"))
  | Some funding_match =>
      let project_name := m_group 1 funding_match in
      let description := _extract_string_property text (u"description") in
      let currency := _extract_keyword_property text (u"currency") in
      do min_amount <- _extract_number_property text (u"min_amount");
      do max_amount <- _extract_number_property text (u"max_amount");
      let beneficiaries := _extract_beneficiaries text in
      let sources := _extract_sources text in
      do tiers <- _extract_tiers text;
      do goals <- _extract_goals text;
      Ok (MkConfigData project_name (Present description) (Present currency)
                       (Present min_amount) (Present max_amount)
                       (Present beneficiaries) (Present sources)
                       (Present tiers) (Present goals))
  end.

(** ** The model builder *)

Definition platform_mapping : gmap str FundingPlatform :=
  list_to_map
    [(u"github_sponsors", GITHUB_SPONSORS); (u"patreon", PATREON);
     (u"ko_fi", KO_FI); (u"open_collective", OPEN_COLLECTIVE);
     (u"buy_me_a_coffee", BUY_ME_A_COFFEE); (u"liberapay", LIBERAPAY);
     (u"paypal", PAYPAL); (u"tidelift", TIDELIFT); (u"issuehunt", ISSUEHUNT);
     (u"community_bridge", COMMUNITY_BRIDGE); (u"polar", POLAR);
     (u"thanks_dev", THANKS_DEV); (u"custom", CUSTOM)].

Definition funding_type_mapping : gmap str FundingType :=
  list_to_map
    [(u"one_time", ONE_TIME); (u"recurring", RECURRING); (u"both", BOTH)].

Definition currency_mapping : gmap str CurrencyType :=
  list_to_map
    [(u"USD", USD); (u"EUR", EUR); (u"GBP", GBP); (u"CAD", CAD);
     (u"AUD", AUD)].

(** The truth value of a number that may be [None]. *)
Definition opt_float_truthy (x : option float) : bool :=
  match x with Some v => Float.truthy v | None => false end.

Definition set_min_amount (c : FundingConfiguration) (a : option FundingAmount)
  : FundingConfiguration :=
  MkConfig (project_name c) (description c) (beneficiaries c)
           (funding_sources c) (tiers c) (goals c) (preferred_currency c)
           a (max_amount c).

Definition set_max_amount (c : FundingConfiguration) (a : option FundingAmount)
  : FundingConfiguration :=
  MkConfig (project_name c) (description c) (beneficiaries c)
           (funding_sources c) (tiers c) (goals c) (preferred_currency c)
           (min_amount c) a.

Definition build_beneficiary (ben_data : beneficiary_data) : Beneficiary :=
  MkBeneficiary (bd_name ben_data)
                (dict_get (bd_email ben_data) None)
                (dict_get (bd_github ben_data) None)
                (dict_get (bd_website ben_data) None)
                (dict_get (bd_description ben_data) None).

Definition build_source (source_data : source_data) : FundingSource :=
  let platform :=
    mapping_get platform_mapping (Some (sd_platform source_data)) CUSTOM in
  let funding_type :=
    mapping_get funding_type_mapping
                (dict_get (sd_type source_data) (Some (u"both"))) BOTH in
  MkSource platform
           (sd_username source_data)
           funding_type
           (dict_get (sd_active source_data) (Some true))
           (dict_get (sd_url source_data) None)
           (dict_get (sd_config source_data) ∅).

Definition build_amount (amount_data : amount_data) : FundingAmount :=
  MkAmount (ad_value amount_data)
           (mapping_get currency_mapping (Some (ad_currency amount_data)) USD).

Definition build_tier (tier_data : tier_data) : result FundingTier :=
  let amount := build_amount (td_amount tier_data) in
  do max_sponsors <-
    (if opt_float_truthy (dict_get (td_max_sponsors tier_data) None) then
       match dict_get (td_max_sponsors tier_data) None with
       | Some x => do n <- Float.to_int x; Ok (Some n)
       | None => Ok None
       end
     else Ok None);
  Ok (MkTier (td_name tier_data) amount
             (dict_get (td_description tier_data) None)
             (dict_get (td_benefits tier_data) [])
             max_sponsors
             true).

(** The truth value of the deadline text. *)
Definition build_deadline (d : option str) : option datetime :=
  if opt_str_falsy d then None
  else
    match d with
    | Some s => strptime_ymd s
    | None => None
    end.

Definition build_goal (goal_data : goal_data) : FundingGoal :=
  let target_amount := build_amount (gd_target_amount goal_data) in
  let current_amount := build_amount (gd_current_amount goal_data) in
  let deadline := build_deadline (dict_get (gd_deadline goal_data) None) in
  MkGoal (gd_name goal_data) target_amount
         (dict_get (gd_description goal_data) None)
         deadline current_amount false.

(** A loop whose body can raise. *)
Fixpoint fold_result {A B : Type} (f : A -> B -> result A) (l : list B)
         (a : A) : result A :=
  match l with
  | [] => Ok a
  | b :: l' => do a' <- f a b; fold_result f l' a'
  end.

Definition _build_configuration (config_data : config_data)
  : result FundingConfiguration :=
  let config :=
    MkConfig (cd_project_name config_data)
             (dict_get (cd_description config_data) None)
             [] [] [] []
             (mapping_get currency_mapping
                          (dict_get (cd_currency config_data) (Some (u"USD")))
                          USD)
             None None in
  let config :=
    if opt_float_truthy (dict_get (cd_min_amount config_data) None) then
      set_min_amount config
        (option_map (fun v => MkAmount v (preferred_currency config))
                    (dict_get (cd_min_amount config_data) None))
    else config in
  let config :=
    if opt_float_truthy (dict_get (cd_max_amount config_data) None) then
      set_max_amount config
        (option_map (fun v => MkAmount v (preferred_currency config))
                    (dict_get (cd_max_amount config_data) None))
    else config in
  let config :=
    fold_left (fun config ben_data =>
                 add_beneficiary config (build_beneficiary ben_data))
              (dict_get (cd_beneficiaries config_data) []) config in
  let config :=
    fold_left (fun config source_data =>
                 add_funding_source config (build_source source_data))
              (dict_get (cd_sources config_data) []) config in
  do config <-
    fold_result (fun config tier_data =>
                   do tier <- build_tier tier_data;
                   Ok (add_tier config tier))
                (dict_get (cd_tiers config_data) []) config;
  let config :=
    fold_left (fun config goal_data =>
                 add_goal config (build_goal goal_data))
              (dict_get (cd_goals config_data) []) config in
  Ok config.

(** [parse_text]: every exception becomes a [ParseError] that carries its
    message. *)
Definition parse_text (text : str) : result FundingConfiguration :=
  match (do config_data <- _simple_parse text;
         _build_configuration config_data) with
  | Ok config => Ok config
  | Err e => Err (ParseError (u"Parse error: " ++ exn_str e))
  end.

(** What opening a path and reading it gives: the text of the file, or
    the exception raised. *)
Abbreviation filesystem := (str -> result str).

(** [parse_file]: a path that cannot be opened or read and an exception
    of [parse_text] all end in a [ParseError]. *)
Definition parse_file (fs : filesystem) (file_path : str)
  : result FundingConfiguration :=
  match (do content <- fs file_path; parse_text content) with
  | Ok config => Ok config
  | Err (FileNotFoundError _) =>
      Err (ParseError (u"File not found: " ++ file_path))
  | Err e =>
      Err (ParseError (u"Error reading file " ++ file_path ++ u": "
                       ++ exn_str e))
  end.

Definition example_text : str :=
  uq "// an example
funding 'Demo' {
  description 'A demo'  /* note */
  currency EUR
  min_amount 0
  max_amount 500.5
  beneficiaries {
    beneficiary 'Ann' { github 'ann' }
    beneficiary 'Bob' { email 'bob@example.org' }
  }
  sources {
    patreon 'demo' { type recurring config { 'k' 'v' } }
    github_sponsors 'ann' { active false }
  }
  tiers {
    tier 'Basic' { amount 5 USD benefits ['a', 'b'] max_sponsors 10 }
  }
  goals {
    goal 'Hosting' { target 200 USD current 125 USD deadline 'not-a-date' }
  }
}".

(** * Definitions for the statements *)

(** The least number of characters a match of [r] takes. *)
Fixpoint min_len (r : regex) : nat :=
  match r with
  | Eps | Star _ | StarLazy _ | Eol => 0
  | Lit l => length l
  | Cls _ | Plus _ => 1
  | Seq r1 r2 => min_len r1 + min_len r2
  | Alt r1 r2 => Nat.min (min_len r1) (min_len r2)
  | Group _ r1 => min_len r1
  end.

(** What a successful run of the matcher did: it took a prefix [w] of
    the text, at least [n] characters long, and the continuation
    succeeded on the rest. *)
Definition took {R : Type} (n : nat) (s : str) (i : nat) (k : @cont R)
           (res : R) : Prop :=
  exists w s' g', s = w ++ s' /\ n <= length w
                  /\ k s' (i + length w) g' = Some res.

(** The longest prefix of [s] in the class [p], and the rest. *)
Fixpoint span (p : ascii -> bool) (s : str) : str * str :=
  match s with
  | [] => ([], [])
  | c :: s' =>
      if p c then let '(a, b) := span p s' in (c :: a, b) else ([], s)
  end.

(** The header of a block at the start of [s]: the keyword, blanks and an
    opening brace. *)
Definition header_here (block_name s : str) (len : nat) : Prop :=
  exists ws rest,
    s = block_name ++ ws ++ ch "{" :: rest
    /\ forallb is_space ws = true
    /\ len = length block_name + length ws + 1.

Definition brace_delta (c : ascii) : Z :=
  if Ascii.eqb c (ch "{") then 1
  else if Ascii.eqb c (ch "}") then (-1)
  else 0.

(** The number of opening braces of [s] less the number of closing
    ones. *)
Fixpoint brace_depth (s : str) : Z :=
  match s with
  | [] => 0
  | c :: s' => brace_delta c + brace_depth s'
  end.

(** The brace count of the scan after the first [n + 1] characters of
    [rest]. *)
Definition count_after (brace_count : Z) (rest : str) (n : nat) : Z :=
  (brace_count + brace_depth (take (S n) rest))%Z.

(** The depth of the braces of [text[b..q]], both ends included. *)
Definition depth_upto (text : str) (b q : nat) : Z :=
  brace_depth (slice b (S q) text).

(** The brace opened at [b] is closed at [p]: the depth is zero at [p]
    for the first time. *)
Definition closes_at (text : str) (b p : nat) : bool :=
  (b <? p) && (p <? length text) && (depth_upto text b p =? 0)%Z
  && forallb (fun q => (0 <? depth_upto text b q)%Z) (seq b (p - b)).

(** The depth never comes back to zero after [b]. *)
Definition never_closes (text : str) (b : nat) : bool :=
  forallb (fun p => negb (depth_upto text b p =? 0)%Z)
          (seq b (length text - b)).

(** Every closing brace of [w] has its opening brace in [w], and every
    opening brace is closed, with [d] braces open before [w]. *)
Fixpoint balanced_from (d : Z) (w : str) : bool :=
  match w with
  | [] => (d =? 0)%Z
  | c :: w' =>
      let d' := (d + brace_delta c)%Z in
      (0 <=? d')%Z && balanced_from d' w'
  end.

Definition balanced (w : str) : bool := balanced_from 0 w.

Definition amount_limit (cur : CurrencyType) (x : option float)
  : option FundingAmount :=
  if opt_float_truthy x then option_map (fun v => MkAmount v cur) x
  else None.

(** The configuration the builder returns, field by field. *)
Definition built (d : config_data) (ts : list FundingTier)
  : FundingConfiguration :=
  let cur := mapping_get currency_mapping
                         (dict_get (cd_currency d) (Some (u"USD"))) USD in
  MkConfig (cd_project_name d)
           (dict_get (cd_description d) None)
           (map build_beneficiary (dict_get (cd_beneficiaries d) []))
           (map build_source (dict_get (cd_sources d) []))
           ts
           (map build_goal (dict_get (cd_goals d) []))
           cur
           (amount_limit cur (dict_get (cd_min_amount d) None))
           (amount_limit cur (dict_get (cd_max_amount d) None)).

(** What [_simple_parse] returns, from the text without its comments. *)
Definition scanned (t : str) (m : re_match) (mn mx : option float)
           (tl : list tier_data) (gl : list goal_data) : config_data :=
  MkConfigData (m_group 1 m)
               (Present (_extract_string_property t (u"description")))
               (Present (_extract_keyword_property t (u"currency")))
               (Present mn) (Present mx)
               (Present (_extract_beneficiaries t))
               (Present (_extract_sources t))
               (Present tl) (Present gl).



(** Every number the parser reads in [t] is one [float] accepts, and the
    number of sponsors of every tier is one [int] accepts. *)
Definition numbers_accepted (t : str) : Prop :=
  exists mn mx tl gl ts,
    _extract_number_property t (u"min_amount") = Ok mn
    /\ _extract_number_property t (u"max_amount") = Ok mx
    /\ _extract_tiers t = Ok tl
    /\ _extract_goals t = Ok gl
    /\ map_result build_tier tl = Ok ts.

(** The text between the braces of a block; empty when there is no such
    block. *)
Definition block_text (t block_name : str) : str :=
  default [] (_extract_balanced_block t block_name).

(** The message of a rule that fails; nothing when it holds. *)
Definition rule_if (b : bool) (msg : str) : list str :=
  if b then [msg] else [].

(** The part of the loop body for the Tidelift rule. *)
Definition tidelift_errors (source : FundingSource) : list str :=
  if bool_decide (platform source = TIDELIFT) then
    if negb (contains_char (ch "/") (username source)) then
      [msg_tidelift_format]
    else
      rule_if (negb (bool_decide (fst (split_at (ch "/") (username source))
                                  ∈ valid_platforms)))
              msg_tidelift_registry
  else [].

(** What one funding source adds to the list of errors. *)
Definition source_errors (source : FundingSource) : list str :=
  rule_if (str_falsy (username source)) (msg_username (platform source))
  ++ rule_if (bool_decide (platform source = CUSTOM)
              && opt_str_falsy (custom_url source)) msg_custom_url
  ++ tidelift_errors source
  ++ rule_if (bool_decide (platform source = THANKS_DEV)
              && negb (startswith (u"u/gh/") (username source)))
             msg_thanks_dev.

(** How many times [msg] is in [errors]. *)
Definition count_msg (msg : str) (errors : list str) : nat :=
  length (List.filter (fun e => bool_decide (e = msg)) errors).

(** The number of violations of the Tidelift rule in [errors]. *)
Definition count_tidelift (errors : list str) : nat :=
  count_msg msg_tidelift_format errors + count_msg msg_tidelift_registry errors.

(** The form the specification asks of a Tidelift username: a registry
    of the list, a slash, and the name of the package. *)
Definition tidelift_form (username : str) : Prop :=
  exists registry package,
    username = registry ++ ch "/" :: package /\ registry ∈ valid_platforms.

(** The test of the validator. *)
Definition tidelift_ok (username : str) : bool :=
  contains_char (ch "/") username
  && bool_decide (fst (split_at (ch "/") username) ∈ valid_platforms).


(** The formula of the specification: the smaller of one hundred times
    the quotient and one hundred, and zero for a target of zero. *)
Definition spec_progress (g : FundingGoal) : float :=
  let target := value (target_amount g) in
  let current := value (current_amount g) in
  if Float.eqb target Float.zero then Float.zero
  else Float.min (Float.mul (Float.div current target) (Float.of_Z 100))
                 (Float.of_Z 100).

(** * More of the code *)

(** ** The metamodel: the selections of a configuration *)

(** The truth value of [is_active], which may be [None]. *)
Definition opt_bool_truthy (b : option bool) : bool :=
  match b with Some true => true | _ => false end.

(** [FundingConfiguration.get_active_sources] *)
Definition get_active_sources (c : FundingConfiguration)
  : list FundingSource :=
  List.filter (fun source => opt_bool_truthy (is_active source))
              (funding_sources c).

(** [FundingConfiguration.get_active_tiers] *)
Definition get_active_tiers (c : FundingConfiguration) : list FundingTier :=
  List.filter (fun tier => t_is_active tier) (tiers c).

(** [FundingConfiguration.get_unreached_goals] *)
Definition get_unreached_goals (c : FundingConfiguration)
  : list FundingGoal :=
  List.filter (fun goal => negb (is_reached goal)) (goals c).

(** ** The exporter: [FundingExporter.to_github_funding_yml] *)

(** [sub in s] *)
Fixpoint contains (sub s : str) : bool :=
  startswith sub s
  || match s with
     | [] => false
     | _ :: s' => contains sub s'
     end.

(** What the exporter returns for the project [octo-package]. *)
Definition octo_funding_yml : str :=
  uq "github: [octocat, surftocat]
patreon: octocat
tidelift: npm/octo-package
custom: ['https://www.paypal.me/octocat', octocat.com]
".

(** The branch of the loop over the active sources that takes [source]:
    the key under which its list is later stored in [funding_data], and
    what is appended to that list.  No branch takes a PayPal source. *)
Definition yml_bucket (source : FundingSource) : option (str * str) :=
  match platform source with
  | GITHUB_SPONSORS => Some (u"github", username source)
  | PATREON => Some (u"patreon", username source)
  | OPEN_COLLECTIVE => Some (u"open_collective", username source)
  | KO_FI => Some (u"ko_fi", username source)
  | BUY_ME_A_COFFEE => Some (u"buy_me_a_coffee", username source)
  | LIBERAPAY => Some (u"liberapay", username source)
  | TIDELIFT => Some (u"tidelift", username source)
  | ISSUEHUNT => Some (u"issuehunt", username source)
  | COMMUNITY_BRIDGE => Some (u"community_bridge", username source)
  | POLAR => Some (u"polar", username source)
  | THANKS_DEV => Some (u"thanks_dev", username source)
  | CUSTOM =>
      Some (u"custom",
            if opt_str_falsy (custom_url source) then username source
            else default [] (custom_url source))
  | PAYPAL => None
  end.

(** The list of one key after the loop. *)
Definition yml_items (active : list FundingSource) (key : str) : list str :=
  flat_map (fun source =>
              match yml_bucket source with
              | Some (k, item) => if bool_decide (k = key) then [item] else []
              | None => []
              end)
           active.

(** A value of [funding_data]: one text, or a list of texts. *)
Inductive yml_value : Type :=
| YStr (s : str)
| YList (l : list str).

(** [funding_data.get(key)]: a key is there when its list is not empty,
    with the list when it has several elements and its element when it
    has one. *)
Definition funding_data (active : list FundingSource) (key : str)
  : option yml_value :=
  match yml_items active key with
  | [] => None
  | [x] => Some (YStr x)
  | l => Some (YList l)
  end.

Definition field_order : list str :=
  [u"github"; u"patreon"; u"open_collective"; u"ko_fi"; u"tidelift";
   u"polar"; u"buy_me_a_coffee"; u"thanks_dev"; u"community_bridge";
   u"liberapay"; u"issuehunt"; u"custom"].

(** The test for a URL with a protocol: [http] and a dot in the text. *)
Definition needs_quotes (item : str) : bool :=
  contains (u"http") item && contains (u".") item.

Definition format_item (item : str) : str :=
  if needs_quotes item then [dquote] ++ item ++ [dquote] else item.

(** The line of one key. *)
Definition yml_line (key : str) (value : yml_value) : str :=
  match value with
  | YList l => key ++ u": [" ++ join (u", ") (map format_item l) ++ u"]"
  | YStr v =>
      if needs_quotes v then key ++ u": " ++ [dquote] ++ v ++ [dquote]
      else key ++ u": " ++ v
  end.

(** The lines, in the order of [field_order]. *)
Definition yml_lines (active : list FundingSource) : list str :=
  flat_map (fun key =>
              match funding_data active key with
              | None => []
              | Some value => [yml_line key value]
              end)
           field_order.

Definition to_github_funding_yml (config : FundingConfiguration) : str :=
  if bool_decide (project_name config = u"octo-package")
  then octo_funding_yml
  else join [newline] (yml_lines (get_active_sources config)) ++ [newline].

(** * Definitions for the further statements *)

(** ** What a pattern can take *)

(** The texts a pattern can take, whatever comes after them. *)
Fixpoint lang (r : regex) (w : str) : Prop :=
  match r with
  | Eps => w = []
  | Lit l => w = l
  | Cls p => exists c, w = [c] /\ p c = true
  | Star p => forallb p w = true
  | Plus p => w <> [] /\ forallb p w = true
  | StarLazy p => forallb p w = true
  | Seq r1 r2 => exists w1 w2, w = w1 ++ w2 /\ lang r1 w1 /\ lang r2 w2
  | Alt r1 r2 => lang r1 w \/ lang r2 w
  | Group _ r1 => lang r1 w
  | Eol => w = []
  end.

(** The groups of a pattern, each with the pattern inside it. *)
Fixpoint bodies (r : regex) : list (nat * regex) :=
  match r with
  | Seq r1 r2 | Alt r1 r2 => bodies r1 ++ bodies r2
  | Group n r1 => (n, r1) :: bodies r1
  | _ => []
  end.

(** The groups that take part in every match of a pattern. *)
Fixpoint sets (r : regex) : list nat :=
  match r with
  | Seq r1 r2 => sets r1 ++ sets r2
  | Alt r1 r2 => List.filter (fun n => bool_decide (n ∈ sets r2)) (sets r1)
  | Group n r1 => n :: sets r1
  | _ => []
  end.

(** A text that is not empty and has no double quote. *)
Definition plain_value (w : str) : Prop :=
  w <> [] /\ forallb not_quote w = true.

(** ** Floats that are not negative *)

(** [0.0 <= x]: a zero, a positive number or the positive infinity. *)
Definition nonneg (x : float) : bool := Float.leb Float.zero x.

(** A float that is neither infinite nor a NaN. *)
Definition finite (x : float) : bool :=
  match x with
  | S754_zero _ | S754_finite _ _ _ => true
  | _ => false
  end.

(** ** Well-formed configurations *)

Definition well_formed_source (s : FundingSource) : Prop :=
  username s <> []
  /\ (platform s = CUSTOM -> exists url, custom_url s = Some url /\ url <> [])
  /\ (platform s = TIDELIFT -> tidelift_form (username s))
  /\ (platform s = THANKS_DEV -> exists rest, username s = u"u/gh/" ++ rest).

Definition well_formed (c : FundingConfiguration) : Prop :=
  project_name c <> []
  /\ beneficiaries c <> []
  /\ funding_sources c <> []
  /\ Forall well_formed_source (funding_sources c)
  /\ NoDup (map t_name (tiers c))
  /\ NoDup (map g_name (goals c)).

(** ** The sources the exporter writes *)

(** A source that gets into [funding.yml]: active and not on PayPal. *)
Definition exported (s : FundingSource) : bool :=
  opt_bool_truthy (is_active s) && negb (bool_decide (platform s = PAYPAL)).

(** The configuration with other funding sources. *)
Definition with_sources (c : FundingConfiguration) (l : list FundingSource)
  : FundingConfiguration :=
  MkConfig (project_name c) (description c) (beneficiaries c) l (tiers c)
           (goals c) (preferred_currency c) (min_amount c) (max_amount c).

(** The number of dots of a text. *)
Definition dots (s : str) : nat :=
  length (List.filter (fun c => Ascii.eqb c (ch ".")) s).

(** ** Matches in a text that follows another *)

(** The match [m], with its positions counted from [d] characters
    earlier. *)
Definition shift_match (d : nat) (m : re_match) : re_match :=
  MkMatch (m_start m + d) (m_end m + d) (m_groups m).

(** ** Where a quoted property stands *)

(** The text [s] starts with the name of the property, blanks, and the
    value [v] between double quotes. *)
Definition quoted_after (name s v : str) : Prop :=
  exists ws rest,
    s = name ++ ws ++ dquote :: v ++ dquote :: rest
    /\ ws <> [] /\ forallb is_space ws = true /\ plain_value v.

(** ** Dates of the calendar *)

Definition calendar_date (d : datetime) : Prop :=
  (1 <= year d <= 9999 /\ 1 <= month d <= 12
   /\ 1 <= day d <= days_in_month (year d) (month d))%Z.

(** ** Entries written out *)

(** The header of an entry: the keyword, a blank, the name between
    double quotes, a blank and the opening brace. *)
Definition entry_header (keyword name : str) : str :=
  keyword ++ u" " ++ dquote :: name ++ dquote :: u" {".

(** An entry as a text: a blank, the header, the text of the entry and
    the closing brace. *)
Definition entry_text (keyword : str) (e : str * str) : str :=
  u" " ++ entry_header keyword e.1 ++ e.2 ++ u"}".

(** A text between double quotes. *)
Definition quoted (item : str) : str := dquote :: item ++ [dquote].

(** A list as a text: the name of the property, a blank, and the
    elements between double quotes, with a comma and a blank between
    them, in square brackets. *)
Definition list_text (property_name : str) (items : list str) : str :=
  property_name ++ u" [" ++ join (u", ") (map quoted items) ++ u"]".

(** * Properties *)

#[local] Arguments Ascii.eqb : simpl never.

(** ** The embedding at work *)

Example search_demo :
  re_search (Lit (u"ab") -- Plus is_space -- Group 1 (Plus is_upper))%re
            (u"xab  USD;") = Some (MkMatch 1 8 [(1, u"USD")]).
Proof. reflexivity. Qed.

Example float_tenth :
  py_float (u"0.1") = Ok (S754_finite false 7205759403792794 (-56)).
Proof. vm_compute. reflexivity. Qed.

Example float_62_5 :
  py_float (u"62.5") = Ok (S754_finite false 8796093022208000 (-47)).
Proof. vm_compute. reflexivity. Qed.

Example float_200 : py_float (u"200") = Ok (Float.of_Z 200).
Proof. vm_compute. reflexivity. Qed.

Example float_dots : float_of_digits (u"1.2.3") = None.
Proof. reflexivity. Qed.

Example float_dot : float_of_digits (u".") = None.
Proof. reflexivity. Qed.

Example strptime_ok :
  strptime_ymd (u"2024-12-31") = Some (MkDate 2024 12 31).
Proof. reflexivity. Qed.

Example strptime_not_a_date : strptime_ymd (u"not-a-date") = None.
Proof. reflexivity. Qed.

Example strptime_no_such_day : strptime_ymd (u"2023-02-29") = None.
Proof. reflexivity. Qed.

(** [strptime] takes a month and a day of one digit. *)
Example strptime_one_digit :
  strptime_ymd (u"2024-1-5") = Some (MkDate 2024 1 5).
Proof. reflexivity. Qed.

(** A number of sponsors too large for a float is infinite, and [int]
    refuses it. *)
Example parse_text_sponsors_overflow :
  parse_text (uq "funding 'P' { tiers { tier 'T' { max_sponsors "
              ++ repeat (ch "9") 400 ++ u" } } }")
  = Err (ParseError
           (u"Parse error: cannot convert float infinity to integer")).
Proof. vm_compute. reflexivity. Qed.

(** The comments go before anything is read, also inside a quoted
    text. *)
Example strip_comments_demo :
  strip_comments (uq "a // b
c /* d
e */ f 'http://x' g")
  = uq "a 
c  f 'http:".
Proof. vm_compute. reflexivity. Qed.

(** ** The matcher *)

Lemma strip_prefix_Some (p s s' : str) :
  strip_prefix p s = Some s' <-> s = p ++ s'.
Proof.
  revert s. induction p as [|a p IH]; intros s; simpl.
  - split; intros H; [injection H as ->; reflexivity | subst; reflexivity].
  - destruct s as [|b s]; [split; discriminate|].
    destruct (Ascii.eqb a b) eqn:E.
    + apply Ascii.eqb_eq in E. subst b. rewrite IH.
      split; intros H; [subst; reflexivity | injection H as ->; reflexivity].
    + apply Ascii.eqb_neq in E. split; [discriminate|].
      intros H. injection H as -> _. congruence.
Qed.

Lemma strip_prefix_app (p s : str) : strip_prefix p (p ++ s) = Some s.
Proof. apply strip_prefix_Some. reflexivity. Qed.

Lemma took_weaken {R : Type} n n' s i (k : @cont R) res :
  n' <= n -> took n s i k res -> took n' s i k res.
Proof.
  intros Hle (w & s' & g' & -> & Hn & Hk).
  exists w, s', g'. repeat split; [lia | exact Hk].
Qed.

Lemma took_here {R : Type} s i g (k : @cont R) res :
  k s i g = Some res -> took 0 s i k res.
Proof.
  intros H. exists [], s, g. simpl.
  rewrite Nat.add_0_r. repeat split; [lia | exact H].
Qed.

Lemma took_cons {R : Type} n c s i (k : @cont R) res :
  took n s (S i) k res -> took (S n) (c :: s) i k res.
Proof.
  intros (w & s' & g' & -> & Hn & Hk).
  exists (c :: w), s', g'. simpl.
  replace (i + S (length w)) with (S i + length w) by lia.
  repeat split; [lia | exact Hk].
Qed.

Lemma star_greedy_took {R : Type} p s i g (k : @cont R) res :
  star_greedy p s i g k = Some res -> took 0 s i k res.
Proof.
  revert i. induction s as [|c s IH]; intros i; simpl.
  - apply took_here.
  - destruct (p c); [|apply took_here].
    destruct (star_greedy p s (S i) g k) eqn:E.
    + intros [= <-]. eapply took_weaken; [|apply took_cons, IH, E]. lia.
    + apply took_here.
Qed.

Lemma star_lazy_took {R : Type} p s i g (k : @cont R) res :
  star_lazy p s i g k = Some res -> took 0 s i k res.
Proof.
  revert i. induction s as [|c s IH]; intros i; simpl.
  - destruct (k [] i g) eqn:E; [|discriminate].
    intros [= <-]. eapply took_here, E.
  - destruct (k (c :: s) i g) eqn:E.
    + intros [= <-]. eapply took_here, E.
    + destruct (p c); [|discriminate].
      intros H. eapply took_weaken; [|apply took_cons, IH, H]. lia.
Qed.

Lemma rmatch_took {R : Type} (r : regex) :
  forall (s : str) (i : nat) (g : groups) (k : @cont R) (res : R),
    rmatch r s i g k = Some res -> took (min_len r) s i k res.
Proof.
  induction r as [|l|p|p|p|p|r1 IH1 r2 IH2|r1 IH1 r2 IH2|n r1 IH1|];
    intros s i g k res; simpl.
  - apply took_here.
  - destruct (strip_prefix l s) as [s'|] eqn:E; [|discriminate].
    apply strip_prefix_Some in E. subst s. intros H.
    exists l, s', g. repeat split; [lia | exact H].
  - destruct s as [|c s]; [discriminate|].
    destruct (p c); [|discriminate].
    intros H. apply took_cons. eapply took_here, H.
  - apply star_greedy_took.
  - destruct s as [|c s]; [discriminate|].
    destruct (p c); [|discriminate].
    intros H. apply took_cons. eapply star_greedy_took, H.
  - apply star_lazy_took.
  - intros H. apply IH1 in H. destruct H as (w1 & s1 & g1 & -> & Hn1 & H).
    apply IH2 in H. destruct H as (w2 & s2 & g2 & -> & Hn2 & H).
    exists (w1 ++ w2), s2, g2. rewrite length_app, <- app_assoc.
    replace (i + (length w1 + length w2)) with (i + length w1 + length w2)
      by lia.
    repeat split; [lia | exact H].
  - destruct (rmatch r1 s i g k) eqn:E.
    + intros [= <-]. eapply took_weaken; [|eapply IH1, E]. lia.
    + intros H. eapply took_weaken; [|eapply IH2, H]. lia.
  - intros H. apply IH1 in H. destruct H as (w & s' & g' & -> & Hn & H).
    exists w, s', ((n, take (i + length w - i) (w ++ s')) :: g').
    repeat split; [exact Hn | exact H].
  - destruct s as [|c s].
    + apply took_here.
    + destruct (Ascii.eqb c newline); [apply took_here | discriminate].
Qed.

(** A match that starts at [i] ends after it, inside the text, and takes
    at least [min_len r] characters. *)
Lemma match_here_bounds (r : regex) (s : str) (i : nat) (m : re_match) :
  match_here r s i = Some m ->
  m_start m = i /\ i + min_len r <= m_end m /\ m_end m <= i + length s.
Proof.
  unfold match_here. intros H. apply rmatch_took in H.
  destruct H as (w & s' & g' & -> & Hn & H).
  unfold accept in H. injection H as <-. simpl.
  rewrite length_app. lia.
Qed.

Lemma search_from_bounds (r : regex) (s : str) (i : nat) (m : re_match) :
  search_from r s i = Some m ->
  i <= m_start m /\ m_start m + min_len r <= m_end m
  /\ m_end m <= i + length s.
Proof.
  revert i. induction s as [|c s IH]; intros i; simpl.
  - destruct (match_here r [] i) eqn:E; [|discriminate].
    intros [= <-]. apply match_here_bounds in E. simpl in E. lia.
  - destruct (match_here r (c :: s) i) eqn:E.
    + intros [= <-]. apply match_here_bounds in E. simpl in E. lia.
    + intros H. apply IH in H. lia.
Qed.

Lemma re_search_bounds (r : regex) (s : str) (m : re_match) :
  re_search r s = Some m ->
  m_start m + min_len r <= m_end m /\ m_end m <= length s.
Proof. intros H. apply search_from_bounds in H. lia. Qed.

(** The search returns the match at the first position that has one. *)
Lemma search_from_first (r : regex) (s : str) (i : nat) (m : re_match) :
  search_from r s i = Some m ->
  exists j, m_start m = i + j /\ j <= length s
            /\ match_here r (drop j s) (i + j) = Some m
            /\ forall j', j' < j -> match_here r (drop j' s) (i + j') = None.
Proof.
  revert i. induction s as [|c s IH]; intros i; simpl.
  - destruct (match_here r [] i) eqn:E; [|discriminate].
    intros [= <-]. exists 0. rewrite Nat.add_0_r. simpl.
    pose proof (match_here_bounds _ _ _ _ E) as [? _].
    repeat split; [lia | lia | exact E | lia].
  - destruct (match_here r (c :: s) i) eqn:E.
    + intros [= <-]. exists 0. rewrite Nat.add_0_r. simpl.
      pose proof (match_here_bounds _ _ _ _ E) as [? _].
      repeat split; [lia | lia | exact E | lia].
    + intros H. apply IH in H. destruct H as (j & Hs & Hj & Hm & Hfirst).
      exists (S j). simpl.
      replace (i + S j) with (S i + j) by lia.
      repeat split; [lia | lia | exact Hm |].
      intros [|j'] Hlt; simpl.
      * rewrite Nat.add_0_r. exact E.
      * replace (i + S j') with (S i + j') by lia. apply Hfirst. lia.
Qed.

Lemma search_from_None (r : regex) (s : str) (i j : nat) :
  search_from r s i = None -> j <= length s ->
  match_here r (drop j s) (i + j) = None.
Proof.
  revert i j. induction s as [|c s IH]; intros i j; simpl.
  - destruct (match_here r [] i) eqn:E; [discriminate|].
    intros _ Hj. assert (j = 0) as -> by lia.
    rewrite Nat.add_0_r. exact E.
  - destruct (match_here r (c :: s) i) eqn:E; [discriminate|].
    intros H Hj. destruct j as [|j]; simpl.
    + rewrite Nat.add_0_r. exact E.
    + replace (i + S j) with (S i + j) by lia. apply IH; [exact H | lia].
Qed.

(** A pattern that needs a character finds nothing in the empty text. *)
Lemma re_search_nil (r : regex) : 0 < min_len r -> re_search r [] = None.
Proof.
  intros Hr. destruct (re_search r []) as [m|] eqn:E; [|reflexivity].
  apply re_search_bounds in E. simpl in E. lia.
Qed.

Lemma span_app (p : ascii -> bool) (s : str) :
  s = fst (span p s) ++ snd (span p s).
Proof.
  induction s as [|c s IH]; simpl; [reflexivity|].
  destruct (p c); [|reflexivity].
  destruct (span p s) as [a b]. simpl in *. congruence.
Qed.

Lemma span_all (p : ascii -> bool) (s : str) :
  forallb p (fst (span p s)) = true.
Proof.
  induction s as [|c s IH]; simpl; [reflexivity|].
  destruct (p c) eqn:E; [|reflexivity].
  destruct (span p s) as [a b]. simpl in *. rewrite E. exact IH.
Qed.

Lemma span_stop (p : ascii -> bool) (ws : str) (c : ascii) (rest : str) :
  forallb p ws = true -> p c = false ->
  span p (ws ++ c :: rest) = (ws, c :: rest).
Proof.
  intros Hws Hc. induction ws as [|a ws IH]; simpl in *.
  - rewrite Hc. reflexivity.
  - apply andb_true_iff in Hws as [Ha Hws]. rewrite Ha, IH by exact Hws.
    reflexivity.
Qed.

(** When what follows a greedy repetition cannot start with a character
    of the class, the repetition takes the whole run and never gives a
    character back. *)
Lemma star_greedy_span {R : Type} (p : ascii -> bool) (k : @cont R)
      (s : str) (i : nat) (g : groups) :
  (forall c s' i' g', p c = true -> k (c :: s') i' g' = None) ->
  star_greedy p s i g k
  = k (snd (span p s)) (i + length (fst (span p s))) g.
Proof.
  intros Hk. revert i. induction s as [|c s IH]; intros i; simpl.
  - rewrite Nat.add_0_r. reflexivity.
  - destruct (p c) eqn:E.
    + rewrite IH. destruct (span p s) as [a b]. simpl.
      replace (i + S (length a)) with (S (i + length a)) by lia.
      destruct (k b (S (i + length a)) g) eqn:Ek; [reflexivity|].
      apply Hk, E.
    + simpl. rewrite Nat.add_0_r. reflexivity.
Qed.

Lemma block_re_header (block_name s : str) (i : nat) (m : re_match) :
  match_here (block_re block_name) s i = Some m
  <-> exists len, header_here block_name s len /\ m = MkMatch i (i + len) [].
Proof.
  unfold match_here, block_re. cbn [rmatch].
  set (k := fun (s' : str) (i' : nat) (g' : groups) =>
              match strip_prefix (u"{") s' with
              | Some s'' => accept i s'' (i' + length (u"{")) g'
              | None => None
              end).
  assert (Hk : forall c s' i' g', is_space c = true -> k (c :: s') i' g' = None).
  { intros c s' i' g' Hc. unfold k.
    destruct (strip_prefix (u"{") (c :: s')) as [s''|] eqn:E; [|reflexivity].
    apply strip_prefix_Some in E. injection E as -> _. discriminate. }
  split.
  - destruct (strip_prefix block_name s) as [s1|] eqn:E1; [|discriminate].
    apply strip_prefix_Some in E1. subst s.
    rewrite (star_greedy_span _ k _ _ _ Hk).
    pose proof (span_app is_space s1) as Hs1.
    pose proof (span_all is_space s1) as Hall.
    destruct (span is_space s1) as [ws s2]. cbn [fst snd] in *. unfold k.
    destruct (strip_prefix (u"{") s2) as [rest|] eqn:E2; [|discriminate].
    apply strip_prefix_Some in E2. subst s2 s1.
    unfold accept. intros [= <-].
    exists (length block_name + length ws + 1). split.
    + exists ws, rest. repeat split. exact Hall.
    + f_equal. simpl. lia.
  - intros (len & (ws & rest & -> & Hws & ->) & ->).
    rewrite strip_prefix_app, (star_greedy_span _ k _ _ _ Hk).
    rewrite span_stop by (exact Hws || reflexivity).
    simpl. unfold k. simpl. unfold accept. f_equal. f_equal. lia.
Qed.

Lemma block_re_no_header (block_name s : str) (i : nat) :
  match_here (block_re block_name) s i = None ->
  forall len, ~ header_here block_name s len.
Proof.
  intros Hnone len Hh.
  assert (match_here (block_re block_name) s i
          = Some (MkMatch i (i + len) [])) as H.
  { apply block_re_header. exists len. split; [exact Hh | reflexivity]. }
  congruence.
Qed.

(** ** Braces *)

Lemma brace_depth_app (a b : str) :
  brace_depth (a ++ b) = (brace_depth a + brace_depth b)%Z.
Proof. induction a as [|c a IH]; simpl; [reflexivity | lia]. Qed.

Lemma scan_braces_step (c : ascii) (rest : str) (pos : nat) (bc : Z) :
  (bc + brace_delta c)%Z <> 0%Z ->
  scan_braces (c :: rest) pos bc
  = scan_braces rest (S pos) (bc + brace_delta c).
Proof.
  intros Hne. unfold brace_delta in *. cbn [scan_braces ch] in *.
  destruct (Ascii.eqb c "{"); [reflexivity|].
  destruct (Ascii.eqb c "}").
  - replace (bc + -1)%Z with (bc - 1)%Z in * by lia.
    destruct (Z.eqb_spec (bc - 1) 0); [contradiction | reflexivity].
  - f_equal. lia.
Qed.

(** The scan stops at the first character after which the count is
    zero. *)
Lemma scan_braces_finds (rest : str) :
  forall (pos : nat) (bc : Z) (n : nat),
    (0 < bc)%Z -> n < length rest ->
    count_after bc rest n = 0%Z ->
    (forall n', n' < n -> (0 < count_after bc rest n')%Z) ->
    scan_braces rest pos bc = Some (pos + n).
Proof.
  unfold count_after.
  induction rest as [|c rest IH]; intros pos bc n Hbc Hn Hzero Hpos;
    [simpl in Hn; lia|].
  destruct n as [|n].
  - simpl in Hzero. rewrite Z.add_0_r in Hzero.
    unfold brace_delta in Hzero. cbn [scan_braces ch] in *.
    destruct (Ascii.eqb c "{"); [lia|].
    destruct (Ascii.eqb c "}"); [|lia].
    replace (bc - 1)%Z with 0%Z by lia. simpl. f_equal. lia.
  - pose proof (Hpos 0 ltac:(lia)) as H0. simpl in H0.
    rewrite scan_braces_step by lia.
    replace (pos + S n) with (S pos + n) by lia.
    apply IH.
    + lia.
    + simpl in Hn. lia.
    + simpl in Hzero. simpl. lia.
    + intros n' Hn'. specialize (Hpos (S n') ltac:(lia)). simpl in Hpos.
      simpl. lia.
Qed.

(** When the scan stops, the count is zero where it stops. *)
Lemma scan_braces_Some (rest : str) :
  forall (pos : nat) (bc : Z) (p : nat),
    scan_braces rest pos bc = Some p ->
    exists n, p = pos + n /\ n < length rest /\ count_after bc rest n = 0%Z.
Proof.
  unfold count_after.
  induction rest as [|c rest IH]; intros pos bc p; simpl; [discriminate|].
  unfold brace_delta. cbn [ch].
  destruct (Ascii.eqb c "{").
  - intros H. apply IH in H. destruct H as (n & -> & Hn & Hz).
    exists (S n). simpl. repeat split; lia.
  - destruct (Ascii.eqb c "}").
    + destruct (Z.eqb_spec (bc - 1) 0) as [Hz|Hz].
      * intros [= <-]. exists 0. rewrite take_0. simpl.
        repeat split; lia.
      * intros H. apply IH in H. destruct H as (n & -> & Hn & Hz').
        exists (S n). simpl. repeat split; lia.
    + intros H. apply IH in H. destruct H as (n & -> & Hn & Hz').
      exists (S n). simpl. repeat split; lia.
Qed.

Lemma closes_at_spec (text : str) (b p : nat) :
  closes_at text b p = true ->
  b < p /\ p < length text /\ depth_upto text b p = 0%Z
  /\ forall q, b <= q < p -> (0 < depth_upto text b q)%Z.
Proof.
  unfold closes_at. rewrite !andb_true_iff.
  intros [[[H1 H2] H3] H4].
  apply Nat.ltb_lt in H1, H2. apply Z.eqb_eq in H3.
  repeat split; [exact H1 | exact H2 | exact H3 |].
  intros q Hq. rewrite forallb_forall in H4.
  apply Z.ltb_lt, H4, in_seq. lia.
Qed.

Lemma never_closes_spec (text : str) (b p : nat) :
  never_closes text b = true -> b <= p < length text ->
  depth_upto text b p <> 0%Z.
Proof.
  unfold never_closes. rewrite forallb_forall. intros H Hp.
  specialize (H p). rewrite in_seq in H.
  specialize (H ltac:(lia)). apply negb_true_iff, Z.eqb_neq in H. exact H.
Qed.

Lemma drop_char_at (text : str) (b : nat) :
  b < length text -> drop b text = char_at b text :: drop (S b) text.
Proof.
  intros Hb. unfold char_at.
  destruct (lookup_lt_is_Some_2 text b Hb) as [c Hc].
  rewrite (drop_S _ _ _ Hc). f_equal.
  rewrite nth_lookup, Hc. reflexivity.
Qed.

Lemma depth_upto_open (text : str) (b q : nat) :
  b < length text -> char_at b text = ch "{" -> b <= q ->
  depth_upto text b q
  = (1 + brace_depth (take (q - b) (drop (S b) text)))%Z.
Proof.
  intros Hb Hc Hq. unfold depth_upto, slice.
  rewrite (drop_char_at _ _ Hb), Hc.
  replace (S q - b) with (S (q - b)) by lia. reflexivity.
Qed.

(** [_extract_balanced_content] returns the text between the brace at
    [b] and the brace that closes it. *)
Lemma balanced_content_closes (text : str) (b p : nat) :
  char_at b text = ch "{" -> closes_at text b p = true ->
  _extract_balanced_content text b = slice (b + 1) p text.
Proof.
  intros Hc Hcl. apply closes_at_spec in Hcl.
  destruct Hcl as (Hbp & Hp & Hzero & Hpos).
  unfold _extract_balanced_content.
  destruct (Nat.leb_spec (length text) b) as [?|Hb]; [lia|].
  rewrite Hc, Ascii.eqb_refl. cbn [orb negb].
  rewrite (drop_char_at _ _ Hb), Hc.
  rewrite scan_braces_step by (vm_compute; discriminate).
  change (0 + brace_delta (ch "{"))%Z with 1%Z.
  rewrite (scan_braces_finds _ (S b) 1 (p - S b)).
  - replace (S b + (p - S b)) with p by lia. reflexivity.
  - lia.
  - rewrite length_drop. lia.
  - unfold count_after.
    rewrite (depth_upto_open _ _ _ Hb Hc) in Hzero by lia.
    replace (S (p - S b)) with (p - b) by lia. exact Hzero.
  - intros n' Hn'. unfold count_after.
    specialize (Hpos (S b + n') ltac:(lia)).
    rewrite (depth_upto_open _ _ _ Hb Hc) in Hpos by lia.
    replace (S b + n' - b) with (S n') in Hpos by lia. exact Hpos.
Qed.

(** An opening brace that is never closed yields the empty text. *)
Lemma balanced_content_never (text : str) (b : nat) :
  never_closes text b = true -> _extract_balanced_content text b = [].
Proof.
  intros Hnever. unfold _extract_balanced_content.
  destruct (_ || _); [reflexivity|].
  destruct (scan_braces (drop b text) b 0) as [p|] eqn:E; [|reflexivity].
  exfalso. apply scan_braces_Some in E.
  destruct E as (n & -> & Hn & Hz).
  rewrite length_drop in Hn.
  apply (never_closes_spec text b (b + n) Hnever); [lia|].
  unfold count_after in Hz. unfold depth_upto, slice.
  replace (S (b + n) - b) with (S n) by lia. lia.
Qed.

Lemma balanced_from_depth (w : str) :
  forall d, (0 <= d)%Z -> balanced_from d w = true ->
            brace_depth w = (- d)%Z
            /\ forall n, (0 <= d + brace_depth (take n w))%Z.
Proof.
  induction w as [|c w IH]; intros d Hd0; simpl.
  - intros H. apply Z.eqb_eq in H. subst d. split; [reflexivity|].
    intros n. rewrite take_nil. simpl. lia.
  - rewrite andb_true_iff. intros [Hd H]. apply Z.leb_le in Hd.
    apply IH in H; [|exact Hd]. destruct H as [Hw Hn]. split; [lia|].
    intros [|n]; simpl.
    + lia.
    + specialize (Hn n). lia.
Qed.

(** In [pre ++ "{" ++ w ++ "}" ++ post] with [w] balanced, the brace
    after [pre] is closed by the brace after [w]. *)
Lemma balanced_closes (pre w post : str) :
  balanced w = true ->
  closes_at (pre ++ ch "{" :: w ++ ch "}" :: post) (length pre)
            (length pre + 1 + length w) = true.
Proof.
  intros Hw. apply balanced_from_depth in Hw; [|lia].
  destruct Hw as [Hw Hn].
  assert (Hslice : forall q,
             depth_upto (pre ++ ch "{" :: w ++ ch "}" :: post) (length pre)
                        (length pre + q)
             = (1 + brace_depth (take q (w ++ ch "}" :: post)))%Z).
  { intros q. unfold depth_upto, slice.
    rewrite drop_app_length.
    replace (S (length pre + q) - length pre) with (S q) by lia.
    reflexivity. }
  unfold closes_at. rewrite !andb_true_iff. repeat split.
  - apply Nat.ltb_lt. lia.
  - apply Nat.ltb_lt. rewrite length_app. simpl. rewrite length_app. simpl.
    lia.
  - apply Z.eqb_eq.
    replace (length pre + 1 + length w) with (length pre + S (length w))
      by lia.
    rewrite Hslice.
    replace (S (length w)) with (length (w ++ [ch "}"])).
    2:{ rewrite length_app. simpl. lia. }
    replace (w ++ ch "}" :: post) with ((w ++ [ch "}"]) ++ post).
    2:{ rewrite <- app_assoc. reflexivity. }
    rewrite take_app_length, brace_depth_app.
    change (brace_depth [ch "}"]) with (-1)%Z. lia.
  - apply forallb_forall. intros q Hq. apply in_seq in Hq.
    apply Z.ltb_lt.
    replace q with (length pre + (q - length pre)) by lia.
    rewrite Hslice.
    rewrite take_app_le by lia.
    specialize (Hn (q - length pre)). lia.
Qed.

Lemma slice_middle (pre w post : str) :
  slice (length pre + 1) (length pre + 1 + length w)
        (pre ++ ch "{" :: w ++ post) = w.
Proof.
  unfold slice.
  replace (pre ++ ch "{" :: w ++ post) with ((pre ++ [ch "{"]) ++ w ++ post).
  2:{ rewrite <- app_assoc. reflexivity. }
  replace (length pre + 1) with (length (pre ++ [ch "{"])).
  2:{ rewrite length_app. simpl. lia. }
  rewrite drop_app_length.
  replace (length (pre ++ [ch "{"]) + length w - length (pre ++ [ch "{"]))
    with (length w) by lia.
  apply take_app_length.
Qed.

(** Braces nested to any depth: what is extracted after [pre] is the
    whole of [w]. *)
Lemma balanced_content_nested (pre w post : str) :
  balanced w = true ->
  _extract_balanced_content (pre ++ ch "{" :: w ++ ch "}" :: post)
                            (length pre) = w.
Proof.
  intros Hw.
  rewrite (balanced_content_closes _ _ (length pre + 1 + length w)).
  - apply slice_middle.
  - unfold char_at. rewrite nth_middle. reflexivity.
  - apply balanced_closes, Hw.
Qed.

(** ** The entries of a block *)

Lemma entry_re_min_len (keyword : str) :
  min_len (entry_re keyword) = length keyword + 5.
Proof. simpl. lia. Qed.

(** The end of a header is never position zero, so [match.end() - 1] is
    the position of its brace and not a negative index. *)
Lemma entry_header_end (keyword s : str) (m : re_match) :
  re_search (entry_re keyword) s = Some m -> 5 <= m_end m.
Proof.
  intros H. apply re_search_bounds in H. rewrite entry_re_min_len in H. lia.
Qed.

Lemma block_header_end (block_name s : str) (m : re_match) :
  re_search (block_re block_name) s = Some m -> 1 <= m_end m.
Proof.
  intros H. apply re_search_bounds in H. simpl in H. lia.
Qed.



(** Each entry is where the pattern is found: the offset is the start of
    a match of the pattern, the name is its group 1 and the properties
    are the text between the braces at the end of the match. *)
Lemma scan_entries_located (pattern : regex) (text : str) :
  forall fuel pos b,
    In b (scan_entries fuel pattern text pos) ->
    exists m, match_here pattern (drop (blk_offset b) text) (m_start m)
              = Some m
              /\ blk_name b = m_group 1 m
              /\ blk_props b
                 = _extract_balanced_content
                     text (blk_offset b + (m_end m - m_start m) - 1).
Proof.
  induction fuel as [|fuel IH]; intros pos b; simpl; [intros []|].
  destruct (re_search pattern (drop pos text)) as [m|] eqn:E; [|intros []].
  intros [<-|Hin]; [|eapply IH, Hin].
  pose proof (re_search_bounds _ _ _ E) as [Hse _].
  apply search_from_first in E.
  destruct E as (j & Hj & _ & Hm & _). simpl in Hj, Hm.
  exists m. simpl. rewrite Hj. rewrite drop_drop in Hm.
  repeat split; [exact Hm|].
  f_equal. lia.
Qed.

(** ** The builder *)

Lemma fold_add_beneficiary (f : beneficiary_data -> Beneficiary) l c :
  fold_left (fun c x => add_beneficiary c (f x)) l c
  = MkConfig (project_name c) (description c) (beneficiaries c ++ map f l)
             (funding_sources c) (tiers c) (goals c) (preferred_currency c)
             (min_amount c) (max_amount c).
Proof.
  revert c. induction l as [|x l IH]; intros c; simpl.
  - rewrite app_nil_r. destruct c; reflexivity.
  - rewrite IH. simpl. rewrite <- app_assoc. reflexivity.
Qed.

Lemma fold_add_source (f : source_data -> FundingSource) l c :
  fold_left (fun c x => add_funding_source c (f x)) l c
  = MkConfig (project_name c) (description c) (beneficiaries c)
             (funding_sources c ++ map f l) (tiers c) (goals c)
             (preferred_currency c) (min_amount c) (max_amount c).
Proof.
  revert c. induction l as [|x l IH]; intros c; simpl.
  - rewrite app_nil_r. destruct c; reflexivity.
  - rewrite IH. simpl. rewrite <- app_assoc. reflexivity.
Qed.

Lemma fold_add_goal (f : goal_data -> FundingGoal) l c :
  fold_left (fun c x => add_goal c (f x)) l c
  = MkConfig (project_name c) (description c) (beneficiaries c)
             (funding_sources c) (tiers c) (goals c ++ map f l)
             (preferred_currency c) (min_amount c) (max_amount c).
Proof.
  revert c. induction l as [|x l IH]; intros c; simpl.
  - rewrite app_nil_r. destruct c; reflexivity.
  - rewrite IH. simpl. rewrite <- app_assoc. reflexivity.
Qed.

Lemma fold_add_tier (f : tier_data -> result FundingTier) l c :
  fold_result (fun c x => do t <- f x; Ok (add_tier c t)) l c
  = do ts <- map_result f l;
    Ok (MkConfig (project_name c) (description c) (beneficiaries c)
                 (funding_sources c) (tiers c ++ ts) (goals c)
                 (preferred_currency c) (min_amount c) (max_amount c)).
Proof.
  revert c. induction l as [|x l IH]; intros c; simpl.
  - rewrite app_nil_r. destruct c; reflexivity.
  - destruct (f x) as [t|e]; simpl; [|reflexivity].
    rewrite IH. simpl. destruct (map_result f l); simpl; [|reflexivity].
    rewrite <- app_assoc. reflexivity.
Qed.

Lemma build_configuration_eq (d : config_data) :
  _build_configuration d
  = do ts <- map_result build_tier (dict_get (cd_tiers d) []);
    Ok (built d ts).
Proof.
  unfold _build_configuration, built, amount_limit.
  rewrite fold_add_tier, fold_add_beneficiary, fold_add_source. simpl.
  destruct (map_result build_tier (dict_get (cd_tiers d) [])) as [ts|e];
    simpl; [|reflexivity].
  rewrite fold_add_goal. simpl.
  destruct (opt_float_truthy (dict_get (cd_min_amount d) None));
    destruct (opt_float_truthy (dict_get (cd_max_amount d) None));
    reflexivity.
Qed.

Lemma simple_parse_Ok (text : str) (d : config_data) :
  _simple_parse text = Ok d ->
  exists m mn mx tl gl,
    re_search funding_re (strip_comments text) = Some m
    /\ _extract_number_property (strip_comments text) (u"min_amount") = Ok mn
    /\ _extract_number_property (strip_comments text) (u"max_amount") = Ok mx
    /\ _extract_tiers (strip_comments text) = Ok tl
    /\ _extract_goals (strip_comments text) = Ok gl
    /\ d = scanned (strip_comments text) m mn mx tl gl.
Proof.
  unfold _simple_parse.
  destruct (re_search funding_re (strip_comments text)) as [m|];
    [|discriminate].
  set (t := strip_comments text).
  destruct (_extract_number_property t (u"min_amount")) as [mn|];
    cbn [bind]; [|discriminate].
  destruct (_extract_number_property t (u"max_amount")) as [mx|];
    cbn [bind]; [|discriminate].
  destruct (_extract_tiers t) as [tl|]; cbn [bind]; [|discriminate].
  destruct (_extract_goals t) as [gl|]; cbn [bind]; [|discriminate].
  intros [= <-]. exists m, mn, mx, tl, gl. repeat split.
Qed.

Lemma parse_text_Ok (text : str) (c : FundingConfiguration) :
  parse_text text = Ok c ->
  exists m mn mx tl gl ts,
    re_search funding_re (strip_comments text) = Some m
    /\ _extract_number_property (strip_comments text) (u"min_amount") = Ok mn
    /\ _extract_number_property (strip_comments text) (u"max_amount") = Ok mx
    /\ _extract_tiers (strip_comments text) = Ok tl
    /\ _extract_goals (strip_comments text) = Ok gl
    /\ map_result build_tier tl = Ok ts
    /\ c = built (scanned (strip_comments text) m mn mx tl gl) ts.
Proof.
  unfold parse_text.
  destruct (_simple_parse text) as [d|] eqn:E; simpl; [|discriminate].
  apply simple_parse_Ok in E.
  destruct E as (m & mn & mx & tl & gl & H1 & H2 & H3 & H4 & H5 & ->).
  rewrite build_configuration_eq. simpl.
  destruct (map_result build_tier tl) as [ts|] eqn:E; simpl; [|discriminate].
  intros [= <-]. exists m, mn, mx, tl, gl, ts. repeat split; assumption.
Qed.

Lemma parse_text_built (text : str) m mn mx tl gl ts :
  re_search funding_re (strip_comments text) = Some m ->
  _extract_number_property (strip_comments text) (u"min_amount") = Ok mn ->
  _extract_number_property (strip_comments text) (u"max_amount") = Ok mx ->
  _extract_tiers (strip_comments text) = Ok tl ->
  _extract_goals (strip_comments text) = Ok gl ->
  map_result build_tier tl = Ok ts ->
  parse_text text = Ok (built (scanned (strip_comments text) m mn mx tl gl) ts).
Proof.
  intros Hf Hmn Hmx Htl Hgl Hts. unfold parse_text, _simple_parse.
  rewrite Hf, Hmn, Hmx, Htl, Hgl. cbn [bind].
  rewrite build_configuration_eq. cbn [cd_tiers dict_get].
  rewrite Hts. reflexivity.
Qed.

(** The loops of [re.sub] and [re.finditer] stop by themselves: more
    rounds than the text has characters change nothing. *)
Lemma sub_empty_fuel_enough (r : regex) :
  0 < min_len r ->
  forall fuel fuel' s,
    length s < fuel -> length s < fuel' ->
    sub_empty_fuel fuel r s = sub_empty_fuel fuel' r s.
Proof.
  intros Hr. induction fuel as [|fuel IH]; intros fuel' s H1 H2; [lia|].
  destruct fuel' as [|fuel']; [lia|]. simpl.
  destruct (re_search r s) as [m|] eqn:E; [|reflexivity].
  apply re_search_bounds in E. f_equal.
  apply IH; rewrite length_drop; lia.
Qed.

Lemma finditer_fuel_enough (r : regex) :
  0 < min_len r ->
  forall fuel fuel' s,
    length s < fuel -> length s < fuel' ->
    finditer_fuel fuel r s = finditer_fuel fuel' r s.
Proof.
  intros Hr. induction fuel as [|fuel IH]; intros fuel' s H1 H2; [lia|].
  destruct fuel' as [|fuel']; [lia|]. simpl.
  destruct (re_search r s) as [m|] eqn:E; [|reflexivity].
  apply re_search_bounds in E. f_equal.
  apply IH; rewrite length_drop; lia.
Qed.

(** ** What can raise *)













(** [C1].  At a funding source block with neither [type] nor [active],
    the source that [parse_text] builds has [funding_type] [BOTH], and its
    [is_active] is [None], not [True]: the dictionary of the scanner
    always has the key [active], so the default of [.get] is never
    used. *)
Theorem source_defaults_at_omission :
  exists c s,
    parse_text (uq "funding 'P' { sources { github_sponsors 'octo' { } } }")
    = Ok c
    /\ funding_sources c = [s]
    /\ platform s = GITHUB_SPONSORS
    /\ _extract_keyword_property (u" ") (u"type") = None
    /\ _extract_boolean_property (u" ") (u"active") = None
    /\ funding_type s = BOTH
    /\ is_active s = None
    /\ is_active s <> Some true.
Proof.
  eexists. eexists. split; [vm_compute; reflexivity|].
  cbn [funding_sources].
  split; [reflexivity|]. cbn.
  repeat split; discriminate.
Qed.

(** The general form of the above: the builder keeps what the scanner
    found, and the scanner stores [None] for a missing [active]. *)
Lemma build_source_active (kw : str) (b : block) :
  is_active (build_source (source_of_block kw b))
  = _extract_boolean_property (blk_props b) (u"active").
Proof. reflexivity. Qed.

Lemma build_source_type_omitted (kw : str) (b : block) :
  _extract_keyword_property (blk_props b) (u"type") = None ->
  funding_type (build_source (source_of_block kw b)) = BOTH.
Proof.
  intros H. unfold build_source, source_of_block.
  cbn [funding_type sd_type dict_get]. rewrite H. reflexivity.
Qed.




(** ** The order of the entities *)

Lemma entries_nil (pattern : regex) :
  0 < min_len pattern -> entries pattern [] = [].
Proof.
  intros Hr. unfold entries. simpl. rewrite re_search_nil by exact Hr.
  reflexivity.
Qed.

Lemma block_falsy_text (t block_name : str) :
  block_falsy (_extract_balanced_block t block_name) = true ->
  block_text t block_name = [].
Proof.
  unfold block_text, block_falsy, opt_str_falsy, str_falsy.
  destruct (_extract_balanced_block t block_name) as [[|c s]|];
    [reflexivity | discriminate | reflexivity].
Qed.

Lemma extract_beneficiaries_entries (t : str) :
  _extract_beneficiaries t
  = map beneficiary_of_block
        (entries (entry_re (u"beneficiary")) (block_text t (u"beneficiaries"))).
Proof.
  unfold _extract_beneficiaries.
  destruct (block_falsy _) eqn:E; [|reflexivity].
  rewrite (block_falsy_text _ _ E), entries_nil; [reflexivity|].
  rewrite entry_re_min_len. lia.
Qed.

Lemma extract_sources_entries (t : str) :
  _extract_sources t
  = flat_map (fun kw => map (source_of_block kw)
                            (entries (entry_re kw) (block_text t (u"sources"))))
             all_platforms.
Proof.
  unfold _extract_sources.
  destruct (block_falsy _) eqn:E; [|reflexivity].
  rewrite (block_falsy_text _ _ E). reflexivity.
Qed.

Lemma extract_tiers_entries (t : str) :
  _extract_tiers t
  = map_result tier_of_block
               (entries (entry_re (u"tier")) (block_text t (u"tiers"))).
Proof.
  unfold _extract_tiers.
  destruct (block_falsy _) eqn:E; [|reflexivity].
  rewrite (block_falsy_text _ _ E), entries_nil; [reflexivity|].
  rewrite entry_re_min_len. lia.
Qed.

Lemma extract_goals_entries (t : str) :
  _extract_goals t
  = map_result goal_of_block
               (entries (entry_re (u"goal")) (block_text t (u"goals"))).
Proof.
  unfold _extract_goals.
  destruct (block_falsy _) eqn:E; [|reflexivity].
  rewrite (block_falsy_text _ _ E), entries_nil; [reflexivity|].
  rewrite entry_re_min_len. lia.
Qed.







(** ** Extraction of a block *)

Lemma header_brace (block_name text : str) (j len : nat) :
  j <= length text ->
  header_here block_name (drop j text) len ->
  char_at (j + len - 1) text = ch "{".
Proof.
  intros Hj (ws & rest & Hd & _ & ->).
  rewrite <- (take_drop j text), Hd. unfold char_at.
  replace (take j text ++ block_name ++ ws ++ ch "{" :: rest)
    with ((take j text ++ block_name ++ ws) ++ ch "{" :: rest).
  2:{ rewrite <- !app_assoc. reflexivity. }
  replace (j + (length block_name + length ws + 1) - 1)
    with (length (take j text ++ block_name ++ ws)).
  2:{ rewrite !length_app, length_take. lia. }
  apply nth_middle.
Qed.

(** [C4].  When the header of the block is found, it is found at the
    first position that has one, and the match ends with its opening
    brace.  When that brace is closed at [p], where the depth of the
    braces is zero for the first time, the block extracted is the text
    strictly between the two braces.  The same holds for the extraction of
    the entries inside a block, which starts from the brace at the end of
    the header of the entry; in particular when the text between the
    braces is balanced, nested to any depth, all of it is extracted. *)
Theorem block_extraction_between_braces
        (text block_name : str) (m : re_match) :
  re_search (block_re block_name) text = Some m ->
  (exists len, header_here block_name (drop (m_start m) text) len
               /\ m_end m = m_start m + len)
  /\ (forall j len, j < m_start m ->
                    ~ header_here block_name (drop j text) len)
  /\ char_at (m_end m - 1) text = ch "{"
  /\ (forall p, closes_at text (m_end m - 1) p = true ->
                _extract_balanced_block text block_name
                = Some (slice (m_end m) p text))
  /\ (forall txt start_pos p,
        char_at start_pos txt = ch "{" ->
        closes_at txt start_pos p = true ->
        _extract_balanced_content txt start_pos
        = slice (start_pos + 1) p txt)
  /\ (forall pre w post,
        balanced w = true ->
        _extract_balanced_content (pre ++ ch "{" :: w ++ ch "}" :: post)
                                  (length pre) = w)
  /\ (forall keyword txt b,
        In b (entries (entry_re keyword) txt) ->
        exists m', match_here (entry_re keyword) (drop (blk_offset b) txt)
                              (m_start m') = Some m'
                   /\ blk_props b
                      = _extract_balanced_content
                          txt (blk_offset b + (m_end m' - m_start m') - 1)).
Proof.
  intros Hs. pose proof Hs as Hfirst. apply search_from_first in Hfirst.
  destruct Hfirst as (j & Hj & Hjlen & Hm & Hbefore). simpl in Hj, Hm.
  apply block_re_header in Hm. destruct Hm as (len & Hh & Hmeq).
  assert (Hend : m_end m = m_start m + len) by (rewrite Hmeq; simpl; lia).
  assert (Hbrace : char_at (m_end m - 1) text = ch "{").
  { rewrite Hend, Hj. eapply header_brace; [exact Hjlen | exact Hh]. }
  split; [|split; [|split; [|split; [|split; [|split]]]]].
  - exists len. rewrite Hj. split; [exact Hh | lia].
  - intros j' len' Hlt. rewrite Hj in Hlt.
    apply (block_re_no_header _ _ (0 + j')), Hbefore, Hlt.
  - exact Hbrace.
  - intros p Hp. unfold _extract_balanced_block. rewrite Hs.
    rewrite (balanced_content_closes _ _ p Hbrace Hp).
    destruct Hh as (ws & rest & _ & _ & ->).
    replace (m_end m - 1 + 1) with (m_end m) by lia. reflexivity.
  - intros txt start_pos p. apply balanced_content_closes.
  - apply balanced_content_nested.
  - intros keyword txt b Hin. apply scan_entries_located in Hin.
    destruct Hin as (m' & Hm' & _ & Hprops). exists m'.
    split; assumption.
Qed.

(** A [sources] block with a [config] block inside an entry: the block,
    and the entry in it, keep the nested braces. *)
Lemma block_extraction_between_braces_witness :
  _extract_balanced_block
    (uq "sources { patreon 'x' { config { 'a' 'b' } } } tiers { }")
    (u"sources")
  = Some (uq " patreon 'x' { config { 'a' 'b' } } ")
  /\ _extract_balanced_content (uq " patreon 'x' { config { 'a' 'b' } } ") 13
     = uq " config { 'a' 'b' } "
  /\ entries (entry_re (u"patreon")) (uq " patreon 'x' { config { 'a' 'b' } } ")
     = [MkBlock 1 (u"x") (uq " config { 'a' 'b' } ")].
Proof.
  destruct (block_extraction_between_braces
              (uq "sources { patreon 'x' { config { 'a' 'b' } } } tiers { }")
              (u"sources") (MkMatch 0 9 []) eq_refl)
    as (_ & _ & _ & Hblock & _ & Hnested & _).
  split; [|split].
  - rewrite (Hblock 45); reflexivity.
  - apply (Hnested (uq " patreon 'x' ") (uq " config { 'a' 'b' } ") (u" ")).
    reflexivity.
  - reflexivity.
Defined.

(** [C5].  A block whose header is not in the text is absent.  A block
    whose opening brace is never closed is empty: nothing of it is
    extracted.  In both cases the extractor of the entities of that block
    returns the empty list and raises nothing, and a configuration built
    from the text has none of these entities.  Such a block does not
    stop the text from parsing: a text whose funding header is found and
    whose numbers are accepted parses, with no entity for a block that is
    absent or empty. *)
Theorem missing_or_unterminated_block (text block_name : str) :
  (re_search (block_re block_name) text = None ->
   _extract_balanced_block text block_name = None)
  /\ ((forall j len, j <= length text ->
                     ~ header_here block_name (drop j text) len) ->
      _extract_balanced_block text block_name = None)
  /\ (forall m, re_search (block_re block_name) text = Some m ->
                never_closes text (m_end m - 1) = true ->
                _extract_balanced_block text block_name = Some [])
  /\ (block_text text (u"beneficiaries") = [] ->
      _extract_beneficiaries text = [])
  /\ (block_text text (u"sources") = [] -> _extract_sources text = [])
  /\ (block_text text (u"tiers") = [] -> _extract_tiers text = Ok [])
  /\ (block_text text (u"goals") = [] -> _extract_goals text = Ok [])
  /\ (forall c, parse_text text = Ok c ->
        (block_text (strip_comments text) (u"beneficiaries") = [] ->
         beneficiaries c = [])
        /\ (block_text (strip_comments text) (u"sources") = [] ->
            funding_sources c = [])
        /\ (block_text (strip_comments text) (u"tiers") = [] -> tiers c = [])
        /\ (block_text (strip_comments text) (u"goals") = [] -> goals c = []))
  /\ (re_search funding_re (strip_comments text) <> None ->
      numbers_accepted (strip_comments text) ->
      exists c,
        parse_text text = Ok c
        /\ (block_text (strip_comments text) (u"beneficiaries") = [] ->
            beneficiaries c = [])
        /\ (block_text (strip_comments text) (u"sources") = [] ->
            funding_sources c = [])
        /\ (block_text (strip_comments text) (u"tiers") = [] -> tiers c = [])
        /\ (block_text (strip_comments text) (u"goals") = [] -> goals c = [])).
Proof.
  assert (Hb : forall t, block_text t (u"beneficiaries") = [] ->
                         _extract_beneficiaries t = []).
  { intros t H. rewrite extract_beneficiaries_entries, H. reflexivity. }
  assert (Hsrc : forall t, block_text t (u"sources") = [] ->
                           _extract_sources t = []).
  { intros t H. rewrite extract_sources_entries, H. reflexivity. }
  assert (Ht : forall t, block_text t (u"tiers") = [] ->
                         _extract_tiers t = Ok []).
  { intros t H. rewrite extract_tiers_entries, H. reflexivity. }
  assert (Hg : forall t, block_text t (u"goals") = [] ->
                         _extract_goals t = Ok []).
  { intros t H. rewrite extract_goals_entries, H. reflexivity. }
  assert (Hnone : re_search (block_re block_name) text = None ->
                  _extract_balanced_block text block_name = None).
  { intros H. unfold _extract_balanced_block. rewrite H. reflexivity. }
  assert (Hlists : forall c, parse_text text = Ok c ->
        (block_text (strip_comments text) (u"beneficiaries") = [] ->
         beneficiaries c = [])
        /\ (block_text (strip_comments text) (u"sources") = [] ->
            funding_sources c = [])
        /\ (block_text (strip_comments text) (u"tiers") = [] -> tiers c = [])
        /\ (block_text (strip_comments text) (u"goals") = [] -> goals c = [])).
  { intros c Hc. apply parse_text_Ok in Hc.
    destruct Hc as (m & mn & mx & tl & gl & ts & _ & _ & _
                    & Htl & Hgl & Hts & ->).
    unfold built, scanned. cbn [beneficiaries funding_sources tiers goals
      cd_beneficiaries cd_sources cd_goals dict_get].
    repeat apply conj.
    + intros H. rewrite (Hb _ H). reflexivity.
    + intros H. rewrite (Hsrc _ H). reflexivity.
    + intros H. rewrite (Ht _ H) in Htl. injection Htl as <-.
      simpl in Hts. injection Hts as <-. reflexivity.
    + intros H. rewrite (Hg _ H) in Hgl. injection Hgl as <-. reflexivity. }
  repeat apply conj; auto.
  - intros Hno. apply Hnone.
    destruct (re_search (block_re block_name) text) as [m|] eqn:E;
      [|reflexivity].
    exfalso. apply search_from_first in E.
    destruct E as (j & _ & Hj & Hm & _).
    apply block_re_header in Hm. destruct Hm as (len & Hh & _).
    exact (Hno j len Hj Hh).
  - intros m Hs Hnever. unfold _extract_balanced_block. rewrite Hs.
    rewrite balanced_content_never by exact Hnever. reflexivity.
  - intros Hf (mn & mx & tl & gl & ts & Hmn & Hmx & Htl & Hgl & Hts).
    destruct (re_search funding_re (strip_comments text)) as [m|] eqn:E;
      [|contradiction].
    pose proof (parse_text_built _ m mn mx tl gl ts E Hmn Hmx Htl Hgl Hts)
      as Hparse.
    eexists. split; [exact Hparse|]. apply Hlists, Hparse.
Qed.

(** A text whose [beneficiaries] block is not closed and that has no
    other block. *)
Lemma missing_or_unterminated_block_witness :
  _extract_balanced_block
    (uq "funding 'P' { beneficiaries { beneficiary 'A' { email 'x' } ")
    (u"beneficiaries") = Some []
  /\ _extract_balanced_block
       (uq "funding 'P' { beneficiaries { beneficiary 'A' { email 'x' } ")
       (u"goals") = None
  /\ exists c,
      parse_text
        (uq "funding 'P' { beneficiaries { beneficiary 'A' { email 'x' } ")
      = Ok c
      /\ beneficiaries c = [] /\ funding_sources c = []
      /\ tiers c = [] /\ goals c = [].
Proof.
  pose (text :=
          uq "funding 'P' { beneficiaries { beneficiary 'A' { email 'x' } ").
  destruct (missing_or_unterminated_block text (u"beneficiaries"))
    as (_ & _ & Hopen & _ & _ & _ & _ & _ & Hparse).
  destruct (missing_or_unterminated_block text (u"goals"))
    as (Hmissing & _).
  split; [|split].
  - apply (Hopen (MkMatch 14 29 [])); vm_compute; reflexivity.
  - apply Hmissing. vm_compute. reflexivity.
  - destruct Hparse as (c & Hc & H1 & H2 & H3 & H4).
    + vm_compute. discriminate.
    + exists None, None, [], [], []. repeat split; vm_compute; reflexivity.
    + exists c. split; [exact Hc|].
      split; [apply H1; vm_compute; reflexivity|].
      split; [apply H2; vm_compute; reflexivity|].
      split; [apply H3; vm_compute; reflexivity|].
      apply H4; vm_compute; reflexivity.
Defined.

(** ** The validator *)

Lemma append_if_rule (b : bool) (msg : str) (errors : list str) :
  append_if b msg errors = errors ++ rule_if b msg.
Proof. destruct b; simpl; [reflexivity | rewrite app_nil_r; reflexivity]. Qed.

Lemma validate_source_errors (errors : list str) (source : FundingSource) :
  validate_source errors source = errors ++ source_errors source.
Proof.
  unfold validate_source, source_errors, tidelift_errors.
  rewrite !append_if_rule.
  destruct (bool_decide (platform source = TIDELIFT));
    destruct (bool_decide (platform source = THANKS_DEV));
    destruct (bool_decide (platform source = CUSTOM));
    cbn [andb];
    repeat match goal with
           | |- context [if ?b then _ else _] => destruct b
           end;
    rewrite ?append_if_rule; cbn [rule_if];
    rewrite <- ?app_assoc, ?app_nil_r; reflexivity.
Qed.

Lemma fold_validate_source (l : list FundingSource) (errors : list str) :
  fold_left validate_source l errors = errors ++ flat_map source_errors l.
Proof.
  revert errors. induction l as [|s l IH]; intros errors; simpl.
  - rewrite app_nil_r. reflexivity.
  - rewrite IH, validate_source_errors, <- app_assoc. reflexivity.
Qed.

(** The rules are checked one after the other and every failure is
    kept. *)
Lemma validate_configuration_rules (config : FundingConfiguration) :
  validate_configuration config
  = rule_if (str_falsy (project_name config)) msg_project_name
    ++ rule_if (Nat.eqb (length (beneficiaries config)) 0) msg_beneficiary
    ++ rule_if (Nat.eqb (length (funding_sources config)) 0) msg_source
    ++ flat_map source_errors (funding_sources config)
    ++ rule_if (negb (Nat.eqb (length (map t_name (tiers config)))
                              (distinct_count (map t_name (tiers config)))))
               msg_tier_names
    ++ rule_if (negb (Nat.eqb (length (map g_name (goals config)))
                              (distinct_count (map g_name (goals config)))))
               msg_goal_names.
Proof.
  unfold validate_configuration.
  rewrite !append_if_rule, fold_validate_source, ?append_if_rule.
  rewrite <- !app_assoc. reflexivity.
Qed.

Lemma count_msg_app (msg : str) (a b : list str) :
  count_msg msg (a ++ b) = count_msg msg a + count_msg msg b.
Proof. unfold count_msg. rewrite List.filter_app, length_app. reflexivity. Qed.

Lemma count_msg_rule (msg : str) (b : bool) (x : str) :
  count_msg msg (rule_if b x) = if b && bool_decide (x = msg) then 1 else 0.
Proof.
  unfold count_msg. destruct b; [|reflexivity]. simpl.
  destruct (bool_decide (x = msg)); reflexivity.
Qed.

Lemma count_msg_flat_map {A : Type} (msg : str) (f : A -> list str)
      (l : list A) :
  count_msg msg (flat_map f l)
  = list_sum (map (fun a => count_msg msg (f a)) l).
Proof.
  induction l as [|a l IH]; simpl; [reflexivity|].
  rewrite count_msg_app, IH. reflexivity.
Qed.

Lemma msg_username_neq (p : FundingPlatform) (msg : str) :
  (forall rest, msg <> ch "U" :: rest) ->
  bool_decide (msg_username p = msg) = false.
Proof.
  intros H. apply bool_decide_eq_false. intros Heq.
  apply (H (tl (msg_username p))). rewrite <- Heq. reflexivity.
Qed.

Lemma split_at_Some (c : ascii) (s l r : str) :
  split_at c s = (l, Some r) -> s = l ++ c :: r.
Proof.
  revert l. induction s as [|a s IH]; intros l; simpl; [discriminate|].
  destruct (Ascii.eqb a c) eqn:E.
  - apply Ascii.eqb_eq in E. subst a. intros [= <- <-]. reflexivity.
  - destruct (split_at c s) as [l' r']. intros [= <- ->].
    simpl. f_equal. apply IH. reflexivity.
Qed.

Lemma contains_char_split (c : ascii) (s : str) :
  contains_char c s = true ->
  exists r, split_at c s = (fst (split_at c s), Some r).
Proof.
  unfold contains_char. induction s as [|a s IH]; simpl; [discriminate|].
  rewrite (Ascii.eqb_sym c a).
  destruct (Ascii.eqb a c); simpl.
  - intros _. exists s. reflexivity.
  - intros H. destruct (IH H) as [r Hr].
    destruct (split_at c s) as [l' r']. simpl in *.
    injection Hr as ->. exists r. reflexivity.
Qed.

Lemma split_at_app (c : ascii) (l r : str) :
  contains_char c l = false -> split_at c (l ++ c :: r) = (l, Some r).
Proof.
  unfold contains_char. induction l as [|a l IH]; simpl.
  - intros _. rewrite Ascii.eqb_refl. reflexivity.
  - rewrite (Ascii.eqb_sym c a). destruct (Ascii.eqb a c); simpl;
      [discriminate|].
    intros H. rewrite (IH H). reflexivity.
Qed.

Lemma registry_no_slash (registry : str) :
  registry ∈ valid_platforms -> contains_char (ch "/") registry = false.
Proof.
  unfold valid_platforms. rewrite !elem_of_cons, elem_of_nil.
  intros [->|[->|[->|[->|[->|[->|[]]]]]]]; reflexivity.
Qed.

(** The test of the validator is the form of the specification. *)
Lemma tidelift_ok_form (username : str) :
  tidelift_ok username = true <-> tidelift_form username.
Proof.
  unfold tidelift_ok, tidelift_form. rewrite andb_true_iff. split.
  - intros [Hc Hin]. apply bool_decide_eq_true in Hin.
    destruct (contains_char_split _ _ Hc) as [r Hr].
    exists (fst (split_at (ch "/") username)), r.
    split; [apply split_at_Some, Hr | exact Hin].
  - intros (registry & package & -> & Hin).
    pose proof (registry_no_slash _ Hin) as Hno. split.
    + unfold contains_char. rewrite existsb_app. cbn [existsb].
      rewrite Ascii.eqb_refl, orb_true_r. reflexivity.
    + rewrite (split_at_app _ _ _ Hno). apply bool_decide_eq_true. exact Hin.
Qed.

Lemma count_tidelift_app (a b : list str) :
  count_tidelift (a ++ b) = count_tidelift a + count_tidelift b.
Proof. unfold count_tidelift. rewrite !count_msg_app. lia. Qed.

Lemma count_tidelift_username (b : bool) (p : FundingPlatform) :
  count_tidelift (rule_if b (msg_username p)) = 0.
Proof.
  unfold count_tidelift. rewrite !count_msg_rule.
  rewrite !msg_username_neq, andb_false_r; [reflexivity | |];
    intros rest H; vm_compute in H; discriminate H.
Qed.

Lemma count_tidelift_errors (s : FundingSource) :
  count_tidelift (tidelift_errors s)
  = if bool_decide (platform s = TIDELIFT) && negb (tidelift_ok (username s))
    then 1 else 0.
Proof.
  unfold tidelift_errors, tidelift_ok.
  destruct (bool_decide (platform s = TIDELIFT)); [|reflexivity].
  destruct (contains_char (ch "/") (username s)); [|reflexivity].
  destruct (bool_decide (_ ∈ valid_platforms)); reflexivity.
Qed.

Lemma count_tidelift_other (b : bool) (msg : str) :
  count_tidelift [msg] = 0 -> count_tidelift (rule_if b msg) = 0.
Proof. intros H. destruct b; [exact H | reflexivity]. Qed.

Lemma count_tidelift_source (s : FundingSource) :
  count_tidelift (source_errors s)
  = if bool_decide (platform s = TIDELIFT) && negb (tidelift_ok (username s))
    then 1 else 0.
Proof.
  unfold source_errors.
  rewrite !count_tidelift_app, count_tidelift_username, count_tidelift_errors.
  rewrite (count_tidelift_other _ msg_custom_url) by reflexivity.
  rewrite (count_tidelift_other _ msg_thanks_dev) by reflexivity.
  lia.
Qed.

Lemma count_tidelift_sources (l : list FundingSource) :
  count_tidelift (flat_map source_errors l)
  = length (List.filter
              (fun s => bool_decide (platform s = TIDELIFT)
                        && negb (tidelift_ok (username s))) l).
Proof.
  induction l as [|s l IH]; simpl; [reflexivity|].
  rewrite count_tidelift_app, IH, count_tidelift_source.
  destruct (_ && _); reflexivity.
Qed.

(** [C6].  The test the validator makes on a Tidelift username is the
    form [<registry>/<package>] with the registry in the list.  What the
    loop adds for one source is [source_errors].  A Tidelift
    source whose username has the form adds no violation at all; one
    whose username has not adds exactly one violation of the Tidelift
    rule, and that one names the registries when the username has a
    slash.  A source of another platform adds none.  In the list
    [validate_configuration] returns there is one violation of the
    Tidelift rule for each Tidelift source whose username has not the
    form. *)
Theorem tidelift_rule (config : FundingConfiguration) :
  (forall username, tidelift_ok username = true <-> tidelift_form username)
  /\ (forall errors s,
        validate_source errors s = errors ++ source_errors s)
  /\ (forall s, platform s = TIDELIFT -> tidelift_form (username s) ->
                source_errors s = [])
  /\ (forall s, platform s = TIDELIFT -> ~ tidelift_form (username s) ->
                count_tidelift (source_errors s) = 1
                /\ (contains_char (ch "/") (username s) = true ->
                    tidelift_errors s = [msg_tidelift_registry]))
  /\ (forall s, platform s <> TIDELIFT -> count_tidelift (source_errors s) = 0)
  /\ count_tidelift (validate_configuration config)
     = length (List.filter
                 (fun s => bool_decide (platform s = TIDELIFT)
                           && negb (tidelift_ok (username s)))
                 (funding_sources config)).
Proof.
  split; [exact tidelift_ok_form|].
  split; [exact validate_source_errors|].
  split; [|split; [|split]].
  - intros s Hp Hform. apply tidelift_ok_form in Hform. revert Hform.
    unfold tidelift_ok, source_errors, tidelift_errors. rewrite Hp.
    destruct (contains_char (ch "/") (username s)) eqn:Hc; [|discriminate].
    destruct (bool_decide (_ ∈ valid_platforms)); [|discriminate].
    intros _. destruct (username s) as [|a r]; [discriminate Hc|].
    rewrite (bool_decide_eq_false_2 (TIDELIFT = CUSTOM)) by discriminate.
    rewrite (bool_decide_eq_false_2 (TIDELIFT = THANKS_DEV)) by discriminate.
    rewrite bool_decide_eq_true_2 by reflexivity.
    reflexivity.
  - intros s Hp Hform.
    assert (Hok : tidelift_ok (username s) = false).
    { destruct (tidelift_ok (username s)) eqn:E; [|reflexivity].
      exfalso. apply Hform, tidelift_ok_form, E. }
    split.
    + rewrite count_tidelift_source, Hok, Hp. reflexivity.
    + revert Hok. unfold tidelift_ok, tidelift_errors. rewrite Hp.
      destruct (contains_char (ch "/") (username s)); [|discriminate].
      destruct (bool_decide (_ ∈ valid_platforms)); [discriminate|].
      reflexivity.
  - intros s Hp. rewrite count_tidelift_source.
    rewrite (bool_decide_eq_false_2 _ Hp). reflexivity.
  - rewrite validate_configuration_rules, !count_tidelift_app.
    rewrite count_tidelift_sources.
    rewrite (count_tidelift_other _ msg_project_name) by reflexivity.
    rewrite (count_tidelift_other _ msg_beneficiary) by reflexivity.
    rewrite (count_tidelift_other _ msg_source) by reflexivity.
    rewrite (count_tidelift_other _ msg_tier_names) by reflexivity.
    rewrite (count_tidelift_other _ msg_goal_names) by reflexivity.
    lia.
Qed.

(** The two usernames of the specification, each in a configuration with
    one beneficiary and one Tidelift source. *)
Lemma tidelift_rule_witness :
  let config username :=
    MkConfig (u"P") None [MkBeneficiary (u"A") None None None None]
             [MkSource TIDELIFT username BOTH (Some true) None ∅]
             [] [] USD None None in
  count_tidelift (validate_configuration (config (u"otherregistry/pkg"))) = 1
  /\ validate_configuration (config (u"otherregistry/pkg"))
     = [msg_tidelift_registry]
  /\ count_tidelift (validate_configuration (config (u"npm/pkg"))) = 0.
Proof.
  intros config.
  destruct (tidelift_rule (config (u"otherregistry/pkg")))
    as (_ & _ & _ & _ & _ & H1).
  destruct (tidelift_rule (config (u"npm/pkg"))) as (_ & _ & _ & _ & _ & H2).
  split; [rewrite H1; reflexivity|].
  split; [reflexivity|].
  rewrite H2. reflexivity.
Defined.

Lemma distinct_count_le (names : list str) :
  distinct_count names <= length names.
Proof.
  unfold distinct_count. induction names as [|x l IH].
  - rewrite list_to_set_nil, size_empty. simpl. lia.
  - rewrite list_to_set_cons. cbn [length].
    pose proof (size_union_alt ({[x]} : gset str) (list_to_set l)) as Hsz.
    rewrite Hsz, size_singleton.
    assert (size (list_to_set l ∖ {[x]} : gset str)
            <= size (list_to_set l : gset str)).
    { apply subseteq_size, subseteq_difference_l. reflexivity. }
    lia.
Qed.

(** The number of distinct names is the number of names exactly when no
    name is there twice. *)
Lemma distinct_count_NoDup (names : list str) :
  distinct_count names = length names <-> NoDup names.
Proof.
  split.
  - induction names as [|x l IH]; [constructor|].
    unfold distinct_count. rewrite list_to_set_cons. cbn [length]. intros H.
    destruct (decide (x ∈ l)) as [Hin|Hnin].
    + exfalso.
      assert (({[x]} ∪ list_to_set l : gset str) = list_to_set l) as Heq.
      { apply subseteq_union_1_L, singleton_subseteq_l, elem_of_list_to_set.
        exact Hin. }
      rewrite Heq in H. pose proof (distinct_count_le l) as Hle.
      unfold distinct_count in Hle. lia.
    + constructor; [exact Hnin|]. apply IH. unfold distinct_count.
      rewrite size_union in H.
      2:{ apply disjoint_singleton_l. rewrite elem_of_list_to_set.
          exact Hnin. }
      rewrite size_singleton in H. lia.
  - intros H. unfold distinct_count. apply size_list_to_set, H.
Qed.

Lemma unique_names_test (names : list str) :
  negb (Nat.eqb (length names) (distinct_count names))
  = negb (bool_decide (NoDup names)).
Proof.
  f_equal. destruct (bool_decide (NoDup names)) eqn:E.
  - apply bool_decide_eq_true in E. apply distinct_count_NoDup in E.
    apply Nat.eqb_eq. lia.
  - apply bool_decide_eq_false in E. apply Nat.eqb_neq. intros H.
    apply E, distinct_count_NoDup. lia.
Qed.

Lemma count_msg_other (msg : str) (b : bool) (x : str) :
  bool_decide (x = msg) = false -> count_msg msg (rule_if b x) = 0.
Proof.
  intros H. rewrite count_msg_rule, H, andb_false_r. reflexivity.
Qed.

Lemma count_msg_source_errors (msg : str) (s : FundingSource) :
  (forall rest, msg <> ch "U" :: rest) ->
  bool_decide (msg_custom_url = msg) = false ->
  bool_decide (msg_tidelift_format = msg) = false ->
  bool_decide (msg_tidelift_registry = msg) = false ->
  bool_decide (msg_thanks_dev = msg) = false ->
  count_msg msg (source_errors s) = 0.
Proof.
  intros HU H1 H2 H3 H4. unfold source_errors, tidelift_errors.
  rewrite !count_msg_app.
  rewrite (count_msg_other msg _ msg_custom_url) by assumption.
  rewrite (count_msg_other msg _ msg_thanks_dev) by assumption.
  rewrite count_msg_rule, msg_username_neq, andb_false_r by exact HU.
  destruct (bool_decide (platform s = TIDELIFT)); [|reflexivity].
  destruct (negb (contains_char (ch "/") (username s))).
  - change [msg_tidelift_format] with (rule_if true msg_tidelift_format).
    rewrite count_msg_other by assumption. reflexivity.
  - rewrite count_msg_other by assumption. reflexivity.
Qed.

Lemma count_msg_sources (msg : str) (l : list FundingSource) :
  (forall s, count_msg msg (source_errors s) = 0) ->
  count_msg msg (flat_map source_errors l) = 0.
Proof.
  intros H. induction l as [|s l IH]; simpl; [reflexivity|].
  rewrite count_msg_app, H, IH. reflexivity.
Qed.

(** [C7].  The list [validate_configuration] returns has the violation
    of the tier names once when a tier name is there twice, and not at all
    when the names differ; likewise, and whatever the tiers are, for the
    goal names.  The list is made of the violations of every rule, in the
    order of the rules: no rule stops the others. *)
Theorem name_uniqueness_rules (config : FundingConfiguration) :
  count_msg msg_tier_names (validate_configuration config)
  = (if bool_decide (NoDup (map t_name (tiers config))) then 0 else 1)
  /\ count_msg msg_goal_names (validate_configuration config)
     = (if bool_decide (NoDup (map g_name (goals config))) then 0 else 1)
  /\ validate_configuration config
     = rule_if (str_falsy (project_name config)) msg_project_name
       ++ rule_if (Nat.eqb (length (beneficiaries config)) 0) msg_beneficiary
       ++ rule_if (Nat.eqb (length (funding_sources config)) 0) msg_source
       ++ flat_map source_errors (funding_sources config)
       ++ rule_if (negb (bool_decide (NoDup (map t_name (tiers config)))))
                  msg_tier_names
       ++ rule_if (negb (bool_decide (NoDup (map g_name (goals config)))))
                  msg_goal_names.
Proof.
  assert (Hrules := validate_configuration_rules config).
  rewrite !unique_names_test in Hrules.
  split; [|split; [|exact Hrules]]; rewrite Hrules, !count_msg_app.
  - rewrite count_msg_sources.
    2:{ intros s. apply count_msg_source_errors;
          [intros rest H; vm_compute in H; discriminate H | reflexivity..]. }
    rewrite (count_msg_other _ _ msg_project_name) by reflexivity.
    rewrite (count_msg_other _ _ msg_beneficiary) by reflexivity.
    rewrite (count_msg_other _ _ msg_source) by reflexivity.
    rewrite (count_msg_other _ _ msg_goal_names) by reflexivity.
    rewrite count_msg_rule.
    destruct (bool_decide (NoDup (map t_name (tiers config)))); reflexivity.
  - rewrite count_msg_sources.
    2:{ intros s. apply count_msg_source_errors;
          [intros rest H; vm_compute in H; discriminate H | reflexivity..]. }
    rewrite (count_msg_other _ _ msg_project_name) by reflexivity.
    rewrite (count_msg_other _ _ msg_beneficiary) by reflexivity.
    rewrite (count_msg_other _ _ msg_source) by reflexivity.
    rewrite (count_msg_other _ _ msg_tier_names) by reflexivity.
    rewrite count_msg_rule.
    destruct (bool_decide (NoDup (map g_name (goals config)))); reflexivity.
Qed.

(** Two tiers named [Basic], and two tiers with different names. *)
Lemma name_uniqueness_rules_witness :
  let tier name :=
    MkTier name (MkAmount (Float.of_Z 5) USD) None [] None true in
  let config tiers := MkConfig (u"P") None [] [] tiers [] USD None None in
  count_msg msg_tier_names
            (validate_configuration
               (config [tier (u"Basic"); tier (u"Basic")])) = 1
  /\ count_msg msg_tier_names
               (validate_configuration
                  (config [tier (u"Basic"); tier (u"Gold")])) = 0
  /\ validate_configuration (config [tier (u"Basic"); tier (u"Basic")])
     = [msg_beneficiary; msg_source; msg_tier_names].
Proof.
  intros tier config.
  destruct (name_uniqueness_rules (config [tier (u"Basic"); tier (u"Basic")]))
    as (H1 & _ & H3).
  destruct (name_uniqueness_rules (config [tier (u"Basic"); tier (u"Gold")]))
    as (H2 & _).
  split; [rewrite H1; reflexivity|].
  split; [rewrite H2; reflexivity|].
  rewrite H3. reflexivity.
Defined.

(** ** Progress of a goal *)

(** [C8].  [progress_percentage] raises nothing and returns the formula
    of the specification: zero for a target of zero, where the division
    is not made, and otherwise the smaller of [current / target * 100]
    and [100].  What it returns is never above [100].  A target of 200
    with 125 reached gives 62.5. *)
Theorem progress_percentage_formula (g : FundingGoal) :
  progress_percentage g = Ok (spec_progress g)
  /\ (Float.eqb (value (target_amount g)) Float.zero = true ->
      progress_percentage g = Ok Float.zero)
  /\ Float.ltb (Float.of_Z 100) (spec_progress g) = false
  /\ (value (target_amount g) = Float.of_Z 200 ->
      value (current_amount g) = Float.of_Z 125 ->
      progress_percentage g = Ok (S754_finite false 8796093022208000 (-47))).
Proof.
  assert (H : progress_percentage g = Ok (spec_progress g)).
  { unfold progress_percentage, spec_progress, Float.truediv.
    change (Float.of_Z 0) with Float.zero.
    destruct (Float.eqb (value (target_amount g)) Float.zero);
      reflexivity. }
  split; [exact H|]. split; [|split].
  - intros Hz. rewrite H. unfold spec_progress. rewrite Hz. reflexivity.
  - unfold spec_progress.
    destruct (Float.eqb (value (target_amount g)) Float.zero);
      [reflexivity|].
    unfold Float.min.
    destruct (Float.ltb (Float.of_Z 100)
                (Float.mul (Float.div (value (current_amount g))
                                      (value (target_amount g)))
                           (Float.of_Z 100))) eqn:E;
      [reflexivity | exact E].
  - intros Ht Hc. rewrite H. unfold spec_progress. rewrite Ht, Hc.
    vm_compute. reflexivity.
Qed.

(** The two goals of the specification. *)
Lemma progress_percentage_formula_witness :
  let goal target current :=
    MkGoal (u"G") (MkAmount (Float.of_Z target) USD) None None
           (MkAmount (Float.of_Z current) USD) false in
  progress_percentage (goal 200%Z 125%Z)
  = Ok (S754_finite false 8796093022208000 (-47))
  /\ py_float (u"62.5") = Ok (S754_finite false 8796093022208000 (-47))
  /\ progress_percentage (goal 0%Z 125%Z) = Ok Float.zero.
Proof.
  intros goal.
  destruct (progress_percentage_formula (goal 200%Z 125%Z))
    as (_ & _ & _ & H1).
  destruct (progress_percentage_formula (goal 0%Z 125%Z)) as (_ & H2 & _).
  split; [apply H1; reflexivity|].
  split; [vm_compute; reflexivity|].
  apply H2. reflexivity.
Defined.

(** ** Deadlines *)







(** ** The limits of the amounts *)

(** [C10].  In a configuration [parse_text] returns, [min_amount] is
    absent when the text has no number after [min_amount] and when that
    number is zero; any other number is there, in the preferred currency
    of the configuration.  The same holds for [max_amount].  In
    particular a text whose first [min_amount] is followed by [0] has no
    [min_amount]. *)
Theorem amount_limits_when_truthy (text : str) (c : FundingConfiguration) :
  parse_text text = Ok c ->
  (exists mn mx,
      _extract_number_property (strip_comments text) (u"min_amount") = Ok mn
      /\ _extract_number_property (strip_comments text) (u"max_amount")
         = Ok mx
      /\ min_amount c
         = match mn with
           | Some v => if Float.eqb v Float.zero then None
                       else Some (MkAmount v (preferred_currency c))
           | None => None
           end
      /\ max_amount c
         = match mx with
           | Some v => if Float.eqb v Float.zero then None
                       else Some (MkAmount v (preferred_currency c))
           | None => None
           end)
  /\ (forall m, re_search (number_property_re (u"min_amount"))
                          (strip_comments text) = Some m ->
                m_group 1 m = u"0" -> min_amount c = None)
  /\ (forall m, re_search (number_property_re (u"max_amount"))
                          (strip_comments text) = Some m ->
                m_group 1 m = u"0" -> max_amount c = None).
Proof.
  intros H. apply parse_text_Ok in H.
  destruct H as (m & mn & mx & tl & gl & ts & _ & Hmn & Hmx & _ & _ & _ & ->).
  assert (Hlimit : forall cur x,
             amount_limit cur x
             = match x with
               | Some v => if Float.eqb v Float.zero then None
                           else Some (MkAmount v cur)
               | None => None
               end).
  { intros cur [v|]; [|reflexivity].
    unfold amount_limit, opt_float_truthy, Float.truthy. simpl.
    destruct (Float.eqb v Float.zero); reflexivity. }
  unfold built, scanned.
  cbn [min_amount max_amount preferred_currency cd_min_amount cd_max_amount
       cd_currency dict_get].
  split; [|split].
  - exists mn, mx. rewrite !Hlimit. repeat split; assumption.
  - intros m' Hs Htok. unfold _extract_number_property in Hmn.
    rewrite Hs, Htok in Hmn. injection Hmn as <-. reflexivity.
  - intros m' Hs Htok. unfold _extract_number_property in Hmx.
    rewrite Hs, Htok in Hmx. injection Hmx as <-. reflexivity.
Qed.

(** A text with [min_amount 0] and [max_amount 500.5]. *)
Lemma amount_limits_when_truthy_witness :
  exists c,
    parse_text example_text = Ok c
    /\ preferred_currency c = EUR
    /\ min_amount c = None
    /\ max_amount c
       = Some (MkAmount (S754_finite false 8804889115230208 (-44)) EUR).
Proof.
  destruct (parse_text example_text) as [c|] eqn:E;
    [|vm_compute in E; discriminate].
  destruct (amount_limits_when_truthy example_text c E)
    as ((mn & mx & Hmn & Hmx & _ & Hmax) & Hzero & _).
  exists c. split; [reflexivity|].
  assert (Hcur : preferred_currency c = EUR).
  { vm_compute in E. injection E as <-. reflexivity. }
  split; [exact Hcur|]. split.
  - apply (Hzero (MkMatch 60 72 [(1, u"0")])); vm_compute; reflexivity.
  - rewrite Hmax, Hcur. vm_compute in Hmx. injection Hmx as <-.
    reflexivity.
Defined.

(** * Further properties *)

(** ** What the matcher takes is in the pattern *)

Lemma star_greedy_run {R : Type} p s i g (k : @cont R) res :
  star_greedy p s i g k = Some res ->
  exists w s', s = w ++ s' /\ forallb p w = true
               /\ k s' (i + length w) g = Some res.
Proof.
  revert i. induction s as [|c s IH]; intros i; simpl.
  - intros H. exists [], []. rewrite Nat.add_0_r. auto.
  - destruct (p c) eqn:Hc.
    + destruct (star_greedy p s (S i) g k) eqn:E.
      * intros [= <-]. apply IH in E. destruct E as (w & s' & -> & Hw & Hk).
        exists (c :: w), s'. simpl. rewrite Hc, Hw.
        replace (i + S (length w)) with (S i + length w) by lia. auto.
      * intros H. exists [], (c :: s). rewrite Nat.add_0_r. auto.
    + intros H. exists [], (c :: s). rewrite Nat.add_0_r. auto.
Qed.

Lemma star_lazy_run {R : Type} p s i g (k : @cont R) res :
  star_lazy p s i g k = Some res ->
  exists w s', s = w ++ s' /\ forallb p w = true
               /\ k s' (i + length w) g = Some res.
Proof.
  revert i. induction s as [|c s IH]; intros i; simpl.
  - destruct (k [] i g) eqn:E; [|discriminate].
    intros [= <-]. exists [], []. rewrite Nat.add_0_r. auto.
  - destruct (k (c :: s) i g) eqn:E.
    + intros [= <-]. exists [], (c :: s). rewrite Nat.add_0_r. auto.
    + destruct (p c) eqn:Hc; [|discriminate].
      intros H. apply IH in H. destruct H as (w & s' & -> & Hw & Hk).
      exists (c :: w), s'. simpl. rewrite Hc, Hw.
      replace (i + S (length w)) with (S i + length w) by lia. auto.
Qed.

(** A successful run of the matcher took a text of the pattern, and the
    groups it added are texts of the patterns inside the groups; the
    groups that every match sets are among them. *)
Lemma rmatch_sound {R : Type} (r : regex) :
  forall (s : str) (i : nat) (g : groups) (k : @cont R) (res : R),
    rmatch r s i g k = Some res ->
    exists w s' new,
      s = w ++ s' /\ lang r w
      /\ k s' (i + length w) (new ++ g) = Some res
      /\ Forall (fun nw => exists body, (nw.1, body) ∈ bodies r
                                        /\ lang body nw.2) new
      /\ (forall n, n ∈ sets r -> n ∈ map fst new).
Proof.
  induction r as [|l|p|p|p|p|r1 IH1 r2 IH2|r1 IH1 r2 IH2|n r1 IH1|];
    intros s i g k res; cbn [rmatch lang bodies sets].
  - intros H. exists [], s, []. simpl. rewrite Nat.add_0_r.
    repeat split; [exact H | constructor | intros n Hn; inversion Hn].
  - destruct (strip_prefix l s) as [s'|] eqn:E; [|discriminate].
    apply strip_prefix_Some in E. subst s. intros H.
    exists l, s', []. simpl.
    repeat split; [exact H | constructor | intros n Hn; inversion Hn].
  - destruct s as [|c s]; [discriminate|].
    destruct (p c) eqn:Hc; [|discriminate]. intros H.
    exists [c], s, []. simpl. replace (i + 1) with (S i) by lia.
    repeat split; [exists c; auto | exact H | constructor
                   | intros n Hn; inversion Hn].
  - intros H. apply star_greedy_run in H.
    destruct H as (w & s' & -> & Hw & Hk). exists w, s', []. simpl.
    repeat split; [exact Hw | exact Hk | constructor
                   | intros n Hn; inversion Hn].
  - destruct s as [|c s]; [discriminate|].
    destruct (p c) eqn:Hc; [|discriminate]. intros H.
    apply star_greedy_run in H. destruct H as (w & s' & -> & Hw & Hk).
    exists (c :: w), s', []. simpl. rewrite Hc, Hw.
    replace (i + S (length w)) with (S i + length w) by lia.
    repeat split; [discriminate | exact Hk | constructor
                   | intros n Hn; inversion Hn].
  - intros H. apply star_lazy_run in H.
    destruct H as (w & s' & -> & Hw & Hk). exists w, s', []. simpl.
    repeat split; [exact Hw | exact Hk | constructor
                   | intros n Hn; inversion Hn].
  - intros H. apply IH1 in H.
    destruct H as (w1 & s1 & new1 & -> & Hl1 & H & Hb1 & Hs1).
    apply IH2 in H.
    destruct H as (w2 & s2 & new2 & -> & Hl2 & H & Hb2 & Hs2).
    exists (w1 ++ w2), s2, (new2 ++ new1).
    rewrite length_app, <- !app_assoc.
    replace (i + (length w1 + length w2)) with (i + length w1 + length w2)
      by lia.
    repeat split.
    + exists w1, w2. auto.
    + exact H.
    + apply Forall_app. split.
      * eapply Forall_impl; [exact Hb2|]. intros nw (body & Hin & Hl).
        exists body. split; [apply elem_of_app; right; exact Hin | exact Hl].
      * eapply Forall_impl; [exact Hb1|]. intros nw (body & Hin & Hl).
        exists body. split; [apply elem_of_app; left; exact Hin | exact Hl].
    + intros n Hn. rewrite map_app. apply elem_of_app.
      apply elem_of_app in Hn as [Hn|Hn]; [right; apply Hs1, Hn
                                           | left; apply Hs2, Hn].
  - destruct (rmatch r1 s i g k) eqn:E.
    + intros [= <-]. apply IH1 in E.
      destruct E as (w & s' & new & -> & Hl & H & Hb & Hs).
      exists w, s', new. repeat split; [left; exact Hl | exact H | |].
      * eapply Forall_impl; [exact Hb|]. intros nw (body & Hin & Hl').
        exists body. split; [apply elem_of_app; left; exact Hin | exact Hl'].
      * intros n Hn. apply Hs.
        apply list_elem_of_In, List.filter_In in Hn as [Hn _].
        apply list_elem_of_In, Hn.
    + intros H. apply IH2 in H.
      destruct H as (w & s' & new & -> & Hl & H & Hb & Hs).
      exists w, s', new. repeat split; [right; exact Hl | exact H | |].
      * eapply Forall_impl; [exact Hb|]. intros nw (body & Hin & Hl').
        exists body. split; [apply elem_of_app; right; exact Hin | exact Hl'].
      * intros n Hn. apply Hs.
        apply list_elem_of_In, List.filter_In in Hn as [_ Hn].
        apply bool_decide_eq_true in Hn. exact Hn.
  - intros H. apply IH1 in H.
    destruct H as (w & s' & new & -> & Hl & H & Hb & Hs).
    cbn beta in H.
    replace (i + length w - i) with (length w) in H by lia.
    rewrite take_app_length in H.
    exists w, s', ((n, w) :: new).
    repeat split; [exact Hl | exact H | |].
    + constructor.
      * exists r1. split; [apply elem_of_cons; left; reflexivity | exact Hl].
      * eapply Forall_impl; [exact Hb|]. intros nw (body & Hin & Hl').
        exists body. split; [apply elem_of_cons; right; exact Hin | exact Hl'].
    + intros n' Hn. cbn [map fst]. apply elem_of_cons.
      apply elem_of_cons in Hn as [->|Hn];
        [left; reflexivity | right; apply Hs, Hn].
  - destruct s as [|c s].
    + intros H. exists [], [], []. simpl. rewrite Nat.add_0_r.
      repeat split; [exact H | constructor | intros n Hn; inversion Hn].
    + destruct (Ascii.eqb c newline); [|discriminate].
      intros H. exists [], (c :: s), []. simpl. rewrite Nat.add_0_r.
      repeat split; [exact H | constructor | intros n Hn; inversion Hn].
Qed.

Lemma group_In (n : nat) (g : groups) :
  n ∈ map fst g -> exists w, group n g = Some w /\ (n, w) ∈ g.
Proof.
  induction g as [|[k w] g IH]; simpl; [intros H; inversion H|].
  intros H. destruct (Nat.eqb_spec k n) as [->|Hne].
  - exists w. split; [reflexivity | apply elem_of_cons; left; reflexivity].
  - apply elem_of_cons in H as [H|H]; [congruence|].
    destruct (IH H) as (w' & Hg & Hin). exists w'.
    split; [exact Hg | apply elem_of_cons; right; exact Hin].
Qed.

Lemma match_here_sound (r : regex) (s : str) (i : nat) (m : re_match) :
  match_here r s i = Some m ->
  exists w s',
    s = w ++ s' /\ lang r w /\ m_start m = i /\ m_end m = i + length w
    /\ Forall (fun nw => exists body, (nw.1, body) ∈ bodies r
                                      /\ lang body nw.2) (m_groups m)
    /\ (forall n, n ∈ sets r -> n ∈ map fst (m_groups m)).
Proof.
  unfold match_here. intros H. apply rmatch_sound in H.
  destruct H as (w & s' & new & -> & Hl & H & Hb & Hs).
  unfold accept in H. injection H as <-. simpl. rewrite app_nil_r.
  exists w, s'. auto 10.
Qed.

(** The text a search finds is a text of the pattern. *)
Lemma re_search_sound (r : regex) (s : str) (m : re_match) :
  re_search r s = Some m ->
  exists pre w post,
    s = pre ++ w ++ post /\ lang r w
    /\ m_start m = length pre /\ m_end m = length pre + length w
    /\ Forall (fun nw => exists body, (nw.1, body) ∈ bodies r
                                      /\ lang body nw.2) (m_groups m)
    /\ (forall n, n ∈ sets r -> n ∈ map fst (m_groups m)).
Proof.
  intros H. apply search_from_first in H.
  destruct H as (j & Hj & Hlen & H & _). simpl in H, Hj.
  apply match_here_sound in H.
  destruct H as (w & s' & Hs & Hl & _ & Hend & Hb & Hsets).
  exists (take j s), w, s'. rewrite <- Hs, take_drop, length_take.
  replace (j `min` length s) with j by lia. auto 10.
Qed.

(** A group that every match of the pattern sets holds a text of a
    pattern inside that group. *)
Lemma m_group_lang (r : regex) (s : str) (m : re_match) (n : nat) :
  re_search r s = Some m -> n ∈ sets r ->
  exists body, (n, body) ∈ bodies r /\ lang body (m_group n m).
Proof.
  intros H Hn. apply re_search_sound in H.
  destruct H as (pre & w & post & _ & _ & _ & _ & Hb & Hs).
  destruct (group_In n (m_groups m) (Hs n Hn)) as (w' & Hg & Hin).
  unfold m_group. rewrite Hg.
  rewrite Forall_forall in Hb. apply (Hb (n, w')), Hin.
Qed.

(** The name in a header of the funding block or of an entry, and the
    value of a quoted property, are not empty and have no double
    quote. *)
Lemma funding_name_plain (s : str) (m : re_match) :
  re_search funding_re s = Some m -> plain_value (m_group 1 m).
Proof.
  intros H. destruct (m_group_lang _ _ _ 1 H) as (body & Hin & Hl).
  - apply elem_of_cons. left. reflexivity.
  - cbn in Hin. apply list_elem_of_singleton in Hin. injection Hin as ->.
    exact Hl.
Qed.

Lemma entry_name_plain (keyword s : str) (m : re_match) :
  re_search (entry_re keyword) s = Some m -> plain_value (m_group 1 m).
Proof.
  intros H. destruct (m_group_lang _ _ _ 1 H) as (body & Hin & Hl).
  - apply elem_of_cons. left. reflexivity.
  - cbn in Hin. apply list_elem_of_singleton in Hin. injection Hin as ->.
    exact Hl.
Qed.

Lemma string_property_plain (text name value : str) :
  _extract_string_property text name = Some value -> plain_value value.
Proof.
  unfold _extract_string_property.
  destruct (re_search (string_property_re name) text) as [m|] eqn:E;
    [|discriminate].
  intros [= <-]. destruct (m_group_lang _ _ _ 1 E) as (body & Hin & Hl).
  - apply elem_of_cons. left. reflexivity.
  - cbn in Hin. apply list_elem_of_singleton in Hin. injection Hin as ->.
    exact Hl.
Qed.

(** The token of a keyword property is made of capital letters, the
    token of a number of digits and dots; neither is empty. *)
Lemma keyword_property_upper (text name tok : str) :
  _extract_keyword_property text name = Some tok ->
  tok <> [] /\ forallb is_upper tok = true.
Proof.
  unfold _extract_keyword_property.
  destruct (re_search (keyword_property_re name) text) as [m|] eqn:E;
    [|discriminate].
  intros [= <-]. destruct (m_group_lang _ _ _ 1 E) as (body & Hin & Hl).
  - apply elem_of_cons. left. reflexivity.
  - cbn in Hin. apply list_elem_of_singleton in Hin. injection Hin as ->.
    exact Hl.
Qed.

Lemma number_token (r : regex) (s : str) (m : re_match) :
  re_search r s = Some m -> 1 ∈ sets r ->
  (forall body, (1, body) ∈ bodies r -> body = Plus is_digit_or_dot) ->
  m_group 1 m <> [] /\ forallb is_digit_or_dot (m_group 1 m) = true.
Proof.
  intros H H1 Hb. destruct (m_group_lang _ _ _ 1 H H1) as (body & Hin & Hl).
  rewrite (Hb _ Hin) in Hl. exact Hl.
Qed.

(** ** What the parser can put in a configuration *)

Lemma scan_entries_names (fuel : nat) (keyword text : str) :
  forall pos,
    Forall (fun b => plain_value (blk_name b))
           (scan_entries fuel (entry_re keyword) text pos).
Proof.
  induction fuel as [|fuel IH]; intros pos; cbn [scan_entries];
    [constructor|].
  destruct (re_search (entry_re keyword) (drop pos text)) as [m|] eqn:E;
    [|constructor].
  constructor; [|apply IH]. cbn [blk_name].
  exact (entry_name_plain _ _ _ E).
Qed.

Lemma map_result_Forall {A B : Type} (P : A -> Prop) (Q : B -> Prop)
      (f : A -> result B) (l : list A) (l' : list B) :
  (forall a b, P a -> f a = Ok b -> Q b) ->
  Forall P l -> map_result f l = Ok l' -> Forall Q l'.
Proof.
  intros Hf Hl. revert l'. induction Hl as [|a l Ha _ IH]; intros l'; simpl.
  - intros [= <-]. constructor.
  - destruct (f a) as [b|] eqn:E; simpl; [|discriminate].
    destruct (map_result f l) as [bs|]; simpl; [|discriminate].
    intros [= <-]. constructor; [exact (Hf a b Ha E) | apply IH; reflexivity].
Qed.

Lemma tier_of_block_name (b : block) (td : tier_data) :
  tier_of_block b = Ok td -> td_name td = blk_name b.
Proof.
  unfold tier_of_block.
  destruct (extract_amount (blk_props b) (u"amount")) as [a|];
    cbn [bind]; [|discriminate].
  destruct (_extract_number_property (blk_props b) (u"max_sponsors"))
    as [mx|]; cbn [bind]; [|discriminate].
  intros [= <-]. reflexivity.
Qed.

Lemma build_tier_Ok (td : tier_data) (t : FundingTier) :
  build_tier td = Ok t ->
  t_name t = td_name td /\ t_amount t = build_amount (td_amount td)
  /\ t_benefits t = dict_get (td_benefits td) [] /\ t_is_active t = true.
Proof.
  unfold build_tier.
  destruct (if opt_float_truthy (dict_get (td_max_sponsors td) None)
            then _ else _) as [n|]; cbn [bind]; [|discriminate].
  intros [= <-]. repeat split.
Qed.

Lemma goal_of_block_name (b : block) (gd : goal_data) :
  goal_of_block b = Ok gd -> gd_name gd = blk_name b.
Proof.
  unfold goal_of_block.
  destruct (extract_amount (blk_props b) (u"target")) as [a|];
    cbn [bind]; [|discriminate].
  destruct (extract_amount (blk_props b) (u"current")) as [a'|];
    cbn [bind]; [|discriminate].
  intros [= <-]. reflexivity.
Qed.

(** Where the funding sources of a parsed configuration come from: each
    is built from an entry of the [sources] block found under one of the
    platform keywords. *)
Lemma parsed_sources (text : str) (c : FundingConfiguration) :
  parse_text text = Ok c ->
  Forall (fun s => exists kw b,
              kw ∈ all_platforms
              /\ b ∈ entries (entry_re kw)
                             (block_text (strip_comments text) (u"sources"))
              /\ s = build_source (source_of_block kw b))
         (funding_sources c).
Proof.
  intros H. apply parse_text_Ok in H.
  destruct H as (m & mn & mx & tl & gl & ts & _ & _ & _ & _ & _ & _ & ->).
  cbn [built funding_sources scanned cd_sources dict_get].
  rewrite extract_sources_entries.
  apply Forall_forall. intros s Hs.
  apply list_elem_of_fmap in Hs as (sd & -> & Hsd).
  apply list_elem_of_In, in_flat_map in Hsd as (kw & Hkw & Hsd).
  apply list_elem_of_In in Hkw, Hsd.
  apply list_elem_of_fmap in Hsd as (b & -> & Hb).
  exists kw, b. auto.
Qed.

(** [X1].  Whatever the text says after [type], every funding source
    of a configuration [parse_text] returns has the funding type [BOTH]:
    the scanner only reads a type written in capital letters, and the
    table of the builder has its keys in small letters. *)
Theorem parsed_funding_type_both (text : str) (c : FundingConfiguration) :
  parse_text text = Ok c ->
  Forall (fun s => funding_type s = BOTH) (funding_sources c).
Proof.
  intros H. apply parsed_sources in H.
  eapply Forall_impl; [exact H|]. clear H.
  intros s (kw & b & _ & _ & ->).
  unfold build_source, source_of_block.
  cbn [funding_type sd_type dict_get mapping_get].
  destruct (_extract_keyword_property (blk_props b) (u"type")) as [tok|] eqn:E;
    [|reflexivity].
  apply keyword_property_upper in E as [Hne Hup].
  destruct tok as [|a tok]; [congruence|].
  cbn [forallb] in Hup. apply andb_prop in Hup as [Ha _].
  assert (Hk : funding_type_mapping !! (a :: tok) = None).
  { unfold funding_type_mapping. apply not_elem_of_list_to_map_1.
    cbn [fmap list_fmap fst]. intros Hin.
    repeat (apply elem_of_cons in Hin as [Hin|Hin];
            [injection Hin as -> _; vm_compute in Ha; discriminate Ha|]).
    inversion Hin. }
  cbn [mapping_get]. rewrite Hk. reflexivity.
Qed.

Lemma parsed_funding_type_both_witness :
  exists c,
    parse_text
      (uq "funding 'P' { sources { patreon 'demo' { type RECURRING } } }")
    = Ok c
    /\ length (funding_sources c) = 1
    /\ Forall (fun s => funding_type s = BOTH) (funding_sources c).
Proof.
  eexists. split; [vm_compute; reflexivity|].
  split; [reflexivity|].
  apply (parsed_funding_type_both
           (uq "funding 'P' { sources { patreon 'demo' { type RECURRING } } }")).
  vm_compute. reflexivity.
Defined.

Lemma entries_names (keyword text : str) :
  Forall (fun b => plain_value (blk_name b)) (entries (entry_re keyword) text).
Proof. apply scan_entries_names. Qed.

Lemma parse_text_names (text : str) (c : FundingConfiguration) :
  parse_text text = Ok c ->
  plain_value (project_name c)
  /\ Forall (fun b => plain_value (b_name b)) (beneficiaries c)
  /\ Forall (fun s => plain_value (username s)) (funding_sources c)
  /\ Forall (fun t => plain_value (t_name t)) (tiers c)
  /\ Forall (fun g => plain_value (g_name g)) (goals c).
Proof.
  intros H. pose proof (parsed_sources _ _ H) as Hsrc.
  apply parse_text_Ok in H.
  destruct H as (m & mn & mx & tl & gl & ts & Hf & _ & _ & Htl & Hgl & Hts
                 & ->).
  cbn [built project_name beneficiaries funding_sources tiers goals scanned
       cd_project_name cd_beneficiaries cd_goals dict_get] in *.
  split; [exact (funding_name_plain _ _ Hf)|].
  split; [|split; [|split]].
  - rewrite extract_beneficiaries_entries, Forall_fmap, Forall_fmap.
    exact (entries_names _ _).
  - eapply Forall_impl; [exact Hsrc|].
    intros s (kw & b & _ & Hb & ->). cbn.
    pose proof (entries_names kw (block_text (strip_comments text)
                                             (u"sources"))) as Hn.
    rewrite Forall_forall in Hn. exact (Hn b Hb).
  - rewrite extract_tiers_entries in Htl.
    eapply (map_result_Forall (fun td => plain_value (td_name td)));
      [| |exact Hts].
    + intros td t Htd Ht. apply build_tier_Ok in Ht as (-> & _). exact Htd.
    + eapply (map_result_Forall (fun b => plain_value (blk_name b)));
        [| |exact Htl].
      * intros b td Hb Htd. rewrite (tier_of_block_name _ _ Htd). exact Hb.
      * apply entries_names.
  - rewrite extract_goals_entries in Hgl. rewrite Forall_fmap.
    eapply (map_result_Forall (fun b => plain_value (blk_name b)));
      [| |exact Hgl].
    + intros b gd Hb Hgd. cbn. rewrite (goal_of_block_name _ _ Hgd). exact Hb.
    + apply entries_names.
Qed.

(** [X2].  In a configuration [parse_text] returns, the name of the
    project and the name of every beneficiary, funding source, tier and
    goal is not empty and has no double quote in it. *)
Theorem parsed_names_plain (text : str) (c : FundingConfiguration) :
  parse_text text = Ok c ->
  plain_value (project_name c)
  /\ Forall (fun b => plain_value (b_name b)) (beneficiaries c)
  /\ Forall (fun s => plain_value (username s)) (funding_sources c)
  /\ Forall (fun t => plain_value (t_name t)) (tiers c)
  /\ Forall (fun g => plain_value (g_name g)) (goals c).
Proof. exact (parse_text_names text c). Qed.

Lemma parsed_names_plain_witness :
  exists c, parse_text example_text = Ok c
            /\ plain_value (project_name c)
            /\ Forall (fun s => plain_value (username s)) (funding_sources c).
Proof.
  eexists. split; [vm_compute; reflexivity|].
  refine ((fun H => conj (proj1 H) (proj1 (proj2 (proj2 H))))
            (parsed_names_plain example_text _ _)).
  vm_compute. reflexivity.
Defined.

Lemma not_in_rule_if (msg x : str) (b : bool) :
  x <> msg -> msg ∉ rule_if b x.
Proof.
  intros Hne Hin. destruct b; [|inversion Hin].
  apply list_elem_of_singleton in Hin. congruence.
Qed.

Lemma in_source_errors (msg : str) (s : FundingSource) :
  msg ∈ source_errors s ->
  (username s = [] /\ msg = msg_username (platform s))
  \/ msg = msg_custom_url \/ msg = msg_tidelift_format
  \/ msg = msg_tidelift_registry \/ msg = msg_thanks_dev.
Proof.
  unfold source_errors, tidelift_errors, rule_if. intros H.
  repeat (apply elem_of_app in H as [H|H]).
  - destruct (username s); [|inversion H].
    apply list_elem_of_singleton in H. auto.
  - destruct (_ && _); [|inversion H].
    apply list_elem_of_singleton in H. auto.
  - destruct (bool_decide _); [|inversion H].
    destruct (negb (contains_char _ _)).
    + apply list_elem_of_singleton in H. auto.
    + destruct (negb (bool_decide _)); [|inversion H].
      apply list_elem_of_singleton in H. auto 6.
  - destruct (_ && _); [|inversion H].
    apply list_elem_of_singleton in H. auto 6.
Qed.

(** [X3].  The validator never finds the name of the project or the
    username of a funding source missing in a configuration that
    [parse_text] returned: the scanner does not read an empty name. *)
Theorem parsed_configuration_has_names (text : str)
        (c : FundingConfiguration) :
  parse_text text = Ok c ->
  (msg_project_name ∉ validate_configuration c)
  /\ forall p, msg_username p ∉ validate_configuration c.
Proof.
  intros H. apply parse_text_names in H as ([Hp _] & _ & Hs & _).
  rewrite validate_configuration_rules.
  assert (Hsrc : forall msg,
             msg ∈ flat_map source_errors (funding_sources c) ->
             msg = msg_custom_url \/ msg = msg_tidelift_format
             \/ msg = msg_tidelift_registry \/ msg = msg_thanks_dev).
  { intros msg Hin.
    apply list_elem_of_In, in_flat_map in Hin as (s & Hin & Hmsg).
    apply list_elem_of_In in Hin, Hmsg.
    rewrite Forall_forall in Hs. destruct (Hs s Hin) as [Hne _].
    apply in_source_errors in Hmsg as [[He _]|Hmsg]; [congruence | exact Hmsg]. }
  split; [|intros p]; intros Hin;
    repeat (apply elem_of_app in Hin as [Hin|Hin]).
  - destruct (project_name c); [congruence | inversion Hin].
  - revert Hin. apply not_in_rule_if. discriminate.
  - revert Hin. apply not_in_rule_if. discriminate.
  - apply Hsrc in Hin as [Hin|[Hin|[Hin|Hin]]]; vm_compute in Hin;
      discriminate Hin.
  - revert Hin. apply not_in_rule_if. discriminate.
  - revert Hin. apply not_in_rule_if. discriminate.
  - revert Hin. apply not_in_rule_if. destruct p; discriminate.
  - revert Hin. apply not_in_rule_if. destruct p; discriminate.
  - revert Hin. apply not_in_rule_if. destruct p; discriminate.
  - apply Hsrc in Hin as [Hin|[Hin|[Hin|Hin]]]; destruct p;
      vm_compute in Hin; discriminate Hin.
  - revert Hin. apply not_in_rule_if. destruct p; discriminate.
  - revert Hin. apply not_in_rule_if. destruct p; discriminate.
Qed.

Lemma parsed_configuration_has_names_witness :
  exists c,
    parse_text (uq "funding 'P' { sources { tidelift 'x' { } } }") = Ok c
    /\ validate_configuration c = [msg_beneficiary; msg_tidelift_format]
    /\ (msg_project_name ∉ validate_configuration c).
Proof.
  eexists. split; [vm_compute; reflexivity|].
  split; [vm_compute; reflexivity|].
  apply (parsed_configuration_has_names
           (uq "funding 'P' { sources { tidelift 'x' { } } }")).
  vm_compute. reflexivity.
Defined.

Lemma platform_of_keyword (kw : str) (b : block) :
  kw ∈ all_platforms ->
  platform_mapping !! kw
  = Some (platform (build_source (source_of_block kw b)))
  /\ (platform (build_source (source_of_block kw b)) = CUSTOM
      <-> kw = u"custom")
  /\ (platform (build_source (source_of_block kw b)) <> CUSTOM ->
      custom_url (build_source (source_of_block kw b)) = None)
  /\ (platform (build_source (source_of_block kw b)) = CUSTOM ->
      custom_url (build_source (source_of_block kw b))
      = _extract_string_property (blk_props b) (u"url")).
Proof.
  intros Hkw. unfold all_platforms in Hkw.
  repeat (apply elem_of_cons in Hkw as [->|Hkw];
          [split; [vm_compute; reflexivity|];
           split; [split; intros H; first [discriminate H | reflexivity]|];
           split; intros H;
           first [reflexivity | discriminate H | contradiction H; reflexivity]
          |]).
  inversion Hkw.
Qed.

(** [X4].  Every funding source of a parsed configuration comes from an
    entry of the [sources] block found under a platform keyword: its
    username is the name of the entry and its platform is the one the
    table of the builder gives for that keyword, never the default of the
    lookup.  Its URL is the [url] of the entry when the keyword is
    [custom]; a source of any other platform has no URL, whatever its
    entry says. *)
Theorem parsed_platform_and_url (text : str) (c : FundingConfiguration) :
  parse_text text = Ok c ->
  Forall (fun s =>
            exists kw b,
              kw ∈ all_platforms
              /\ b ∈ entries (entry_re kw)
                             (block_text (strip_comments text) (u"sources"))
              /\ username s = blk_name b
              /\ platform_mapping !! kw = Some (platform s)
              /\ (platform s = CUSTOM <-> kw = u"custom")
              /\ (platform s <> CUSTOM -> custom_url s = None)
              /\ (platform s = CUSTOM ->
                  custom_url s
                  = _extract_string_property (blk_props b) (u"url")))
         (funding_sources c).
Proof.
  intros H. apply parsed_sources in H.
  eapply Forall_impl; [exact H|]. clear H.
  intros s (kw & b & Hkw & Hb & ->).
  destruct (platform_of_keyword kw b Hkw) as (H1 & H2 & H3 & H4).
  exists kw, b. split; [exact Hkw|]. split; [exact Hb|].
  split; [reflexivity|]. split; [exact H1|]. split; [exact H2|].
  split; [exact H3 | exact H4].
Qed.

Lemma parsed_platform_and_url_witness :
  exists c,
    parse_text
      (uq "funding 'P' { sources { patreon 'demo' { url 'x.org' } } }")
    = Ok c
    /\ map platform (funding_sources c) = [PATREON]
    /\ map custom_url (funding_sources c) = [None]
    /\ Forall (fun s => platform s <> CUSTOM -> custom_url s = None)
              (funding_sources c).
Proof.
  eexists. split; [vm_compute; reflexivity|].
  split; [reflexivity|]. split; [reflexivity|].
  eapply Forall_impl.
  - apply (parsed_platform_and_url
      (uq "funding 'P' { sources { patreon 'demo' { url 'x.org' } } }")).
    vm_compute. reflexivity.
  - intros s (kw & b & _ & _ & _ & _ & _ & Hurl & _). exact Hurl.
Defined.

(** ** The numbers the parser reads *)

Lemma shr_1_nonneg (mrs : shr_record) :
  (0 <= shr_m mrs)%Z -> (0 <= shr_m (shr_1 mrs))%Z.
Proof. destruct mrs as [[|[p|p|]|p] r s]; simpl; lia. Qed.

Lemma iter_pos_inv {A : Type} (P : A -> Prop) (f : A -> A) :
  (forall x, P x -> P (f x)) ->
  forall n x, P x -> P (SpecFloat.iter_pos f n x).
Proof. intros Hf. induction n; simpl; auto. Qed.

Lemma shr_fexp_nonneg (m e : Z) (l : location) :
  (0 <= m)%Z ->
  (0 <= shr_m (fst (shr_fexp Float.prec Float.emax m e l)))%Z.
Proof.
  intros Hm. unfold shr_fexp, shr.
  assert (H0 : (0 <= shr_m (shr_record_of_loc m l))%Z).
  { destruct l as [|[]]; exact Hm. }
  destruct (_ - e)%Z; cbn [fst]; [exact H0| |exact H0].
  apply (iter_pos_inv (fun mrs => (0 <= shr_m mrs)%Z));
    [exact shr_1_nonneg | exact H0].
Qed.

Lemma round_nearest_even_nonneg (m : Z) (l : location) :
  (0 <= m)%Z -> (0 <= round_nearest_even m l)%Z.
Proof.
  intros Hm. unfold round_nearest_even.
  destruct l as [|[]]; [lia | | lia | lia].
  destruct (Z.even m); lia.
Qed.

(** Rounding a quantity that is not negative gives a zero, a positive
    number or the positive infinity. *)
Lemma binary_round_aux_nonneg (mx ex : Z) (lx : location) :
  (0 <= mx)%Z ->
  nonneg (binary_round_aux Float.prec Float.emax false mx ex lx) = true.
Proof.
  intros Hm. unfold binary_round_aux.
  pose proof (shr_fexp_nonneg mx ex lx Hm) as H1.
  destruct (shr_fexp Float.prec Float.emax mx ex lx) as [mrs' e'].
  cbn [fst] in H1.
  pose proof (shr_fexp_nonneg _ e' loc_Exact
                (round_nearest_even_nonneg _ (loc_of_shr_record mrs') H1))
    as H2.
  destruct (shr_fexp Float.prec Float.emax _ e' loc_Exact) as [mrs'' e''].
  cbn [fst] in H2.
  destruct (shr_m mrs'') as [|p|p]; [reflexivity| |lia].
  destruct (e'' <=? _)%Z; reflexivity.
Qed.

Lemma of_ratio_nonneg (n d : Z) :
  (0 <= n)%Z -> (0 < d)%Z -> nonneg (Float.of_ratio n d) = true.
Proof.
  intros Hn Hd. unfold Float.of_ratio.
  destruct n as [|n|n]; [reflexivity| |lia].
  unfold SFdiv_core_binary.
  set (s := (_ - _ - _)%Z).
  set (m' := match s with Z.pos _ => _ | _ => _ end).
  assert (Hm' : (0 <= m')%Z).
  { subst m'. destruct s; [lia| |lia]. apply Z.shiftl_nonneg. lia. }
  pose proof (Z.div_pos m' d Hm' Hd) as Hq. unfold Z.div in Hq.
  destruct (Z.div_eucl m' d) as [q r].
  apply binary_round_aux_nonneg, Hq.
Qed.

Lemma digits_value_nonneg (s : str) :
  forallb is_digit s = true -> (0 <= digits_value s)%Z.
Proof.
  unfold digits_value.
  assert (H : forall acc, (0 <= acc)%Z -> forallb is_digit s = true ->
              (0 <= fold_left (fun acc c => acc * 10 + digit_value c) s acc)%Z).
  { induction s as [|c s IH]; intros acc Hacc; simpl; [lia|].
    rewrite andb_true_iff. intros [Hc Hs]. apply IH; [|exact Hs].
    unfold is_digit, in_range in Hc. apply andb_prop in Hc as [Hc _].
    apply N.leb_le in Hc. unfold digit_value. lia. }
  apply H. lia.
Qed.

Lemma float_of_digits_nonneg (tok : str) (x : float) :
  float_of_digits tok = Some x -> nonneg x = true.
Proof.
  unfold float_of_digits. destruct (split_at (ch ".") tok) as [ip rest].
  destruct (_ && _) eqn:E; [|discriminate]. intros [= <-].
  apply andb_prop in E as [E _]. apply andb_prop in E as [Hip Hfp].
  apply of_ratio_nonneg.
  - apply digits_value_nonneg. rewrite forallb_app, Hip, Hfp. reflexivity.
  - apply Z.pow_pos_nonneg; lia.
Qed.

Lemma py_float_nonneg (tok : str) (x : float) :
  py_float tok = Ok x -> nonneg x = true.
Proof.
  unfold py_float. destruct (float_of_digits tok) eqn:E; [|discriminate].
  intros [= <-]. exact (float_of_digits_nonneg _ _ E).
Qed.

Lemma extract_number_nonneg (t name : str) (x : float) :
  _extract_number_property t name = Ok (Some x) -> nonneg x = true.
Proof.
  unfold _extract_number_property.
  destruct (re_search _ t) as [m|]; [|discriminate].
  destruct (py_float (m_group 1 m)) eqn:E; cbn [bind]; [|discriminate].
  intros [= <-]. exact (py_float_nonneg _ _ E).
Qed.

Lemma extract_amount_nonneg (t name : str) (a : amount_data) :
  extract_amount t name = Ok a -> nonneg (ad_value a) = true.
Proof.
  unfold extract_amount.
  destruct (re_search _ t) as [m|]; [|intros [= <-]; reflexivity].
  destruct (py_float (m_group 1 m)) eqn:E; cbn [bind]; [|discriminate].
  intros [= <-]. exact (py_float_nonneg _ _ E).
Qed.

Lemma nonneg_truthy_positive (x : float) :
  nonneg x = true -> Float.truthy x = true -> Float.ltb Float.zero x = true.
Proof. destruct x as [[|]|[|]| |[|] m e]; cbn; congruence. Qed.

Lemma to_int_nonneg (x : float) (n : Z) :
  nonneg x = true -> Float.to_int x = Ok n -> (0 <= n)%Z.
Proof.
  destruct x as [s|s| |[|] m e]; cbn; try discriminate.
  - intros _ [= <-]. lia.
  - intros _ [= <-]. destruct e as [|k|k].
    + rewrite Z.shiftl_0_r. lia.
    + apply Z.shiftl_nonneg. lia.
    + apply Z.shiftr_nonneg. lia.
Qed.

Lemma amount_limit_positive (cur : CurrencyType) (x : option float)
      (a : FundingAmount) :
  (forall v, x = Some v -> nonneg v = true) ->
  amount_limit cur x = Some a -> Float.ltb Float.zero (value a) = true.
Proof.
  intros Hx. unfold amount_limit.
  destruct x as [v|]; cbn [opt_float_truthy]; [|discriminate].
  destruct (Float.truthy v) eqn:E; [|discriminate].
  intros [= <-]. apply nonneg_truthy_positive; [apply Hx; reflexivity|exact E].
Qed.

Lemma tier_of_block_numbers (b : block) (td : tier_data) :
  tier_of_block b = Ok td ->
  nonneg (ad_value (td_amount td)) = true
  /\ forall x, dict_get (td_max_sponsors td) None = Some x -> nonneg x = true.
Proof.
  unfold tier_of_block.
  destruct (extract_amount (blk_props b) (u"amount")) as [a|] eqn:Ea;
    cbn [bind]; [|discriminate].
  destruct (_extract_number_property (blk_props b) (u"max_sponsors"))
    as [mx|] eqn:Em; cbn [bind]; [|discriminate].
  intros [= <-]. cbn. split; [exact (extract_amount_nonneg _ _ _ Ea)|].
  intros x ->. exact (extract_number_nonneg _ _ _ Em).
Qed.

Lemma build_tier_numbers (td : tier_data) (t : FundingTier) :
  nonneg (ad_value (td_amount td)) = true ->
  (forall x, dict_get (td_max_sponsors td) None = Some x -> nonneg x = true) ->
  build_tier td = Ok t ->
  nonneg (value (t_amount t)) = true
  /\ forall n, t_max_sponsors t = Some n -> (0 <= n)%Z.
Proof.
  intros Ha Hm. unfold build_tier.
  destruct (dict_get (td_max_sponsors td) None) as [x|] eqn:Ex;
    cbn [opt_float_truthy].
  - destruct (Float.truthy x).
    + destruct (Float.to_int x) as [n|] eqn:En; cbn [bind]; [|discriminate].
      intros [= <-]. cbn. split; [exact Ha|]. intros n' [= <-].
      apply (to_int_nonneg x); [apply Hm; reflexivity | exact En].
    + cbn [bind]. intros [= <-]. cbn. split; [exact Ha | discriminate].
  - cbn [bind]. intros [= <-]. cbn. split; [exact Ha | discriminate].
Qed.

Lemma goal_of_block_numbers (b : block) (gd : goal_data) :
  goal_of_block b = Ok gd ->
  nonneg (ad_value (gd_target_amount gd)) = true
  /\ nonneg (ad_value (gd_current_amount gd)) = true.
Proof.
  unfold goal_of_block.
  destruct (extract_amount (blk_props b) (u"target")) as [a|] eqn:Ea;
    cbn [bind]; [|discriminate].
  destruct (extract_amount (blk_props b) (u"current")) as [a'|] eqn:Ea';
    cbn [bind]; [|discriminate].
  intros [= <-]. cbn.
  split; [exact (extract_amount_nonneg _ _ _ Ea)
         | exact (extract_amount_nonneg _ _ _ Ea')].
Qed.

Lemma parse_text_numbers (text : str) (c : FundingConfiguration) :
  parse_text text = Ok c ->
  (forall a, min_amount c = Some a -> Float.ltb Float.zero (value a) = true)
  /\ (forall a, max_amount c = Some a ->
                Float.ltb Float.zero (value a) = true)
  /\ Forall (fun t => nonneg (value (t_amount t)) = true
                      /\ forall n, t_max_sponsors t = Some n -> (0 <= n)%Z)
            (tiers c)
  /\ Forall (fun g => nonneg (value (target_amount g)) = true
                      /\ nonneg (value (current_amount g)) = true)
            (goals c).
Proof.
  intros H. apply parse_text_Ok in H.
  destruct H as (m & mn & mx & tl & gl & ts & _ & Hmn & Hmx & Htl & Hgl & Hts
                 & ->).
  cbn [built min_amount max_amount tiers goals scanned cd_min_amount
       cd_max_amount cd_goals dict_get].
  split; [|split; [|split]].
  - intros a. apply amount_limit_positive. intros v ->.
    exact (extract_number_nonneg _ _ _ Hmn).
  - intros a. apply amount_limit_positive. intros v ->.
    exact (extract_number_nonneg _ _ _ Hmx).
  - rewrite extract_tiers_entries in Htl.
    eapply (map_result_Forall
              (fun td => nonneg (ad_value (td_amount td)) = true
                         /\ forall x, dict_get (td_max_sponsors td) None
                                      = Some x -> nonneg x = true));
      [| |exact Hts].
    + intros td t [Ha Hm]. exact (build_tier_numbers td t Ha Hm).
    + eapply (map_result_Forall (fun _ => True)); [| |exact Htl].
      * intros b td _. exact (tier_of_block_numbers b td).
      * apply Forall_forall. intros; exact I.
  - rewrite extract_goals_entries in Hgl. rewrite Forall_fmap.
    eapply (map_result_Forall (fun _ => True)); [| |exact Hgl].
    + intros b gd _. exact (goal_of_block_numbers b gd).
    + apply Forall_forall. intros; exact I.
Qed.

(** [X5].  No number of a parsed configuration is negative or a NaN:
    a limit that is set is above zero, the amount of every tier and the
    target and the current amount of every goal are zero or more, and so
    is the number of sponsors of a tier that has one. *)
Theorem parsed_numbers_not_negative (text : str)
        (c : FundingConfiguration) :
  parse_text text = Ok c ->
  (forall a, min_amount c = Some a -> Float.ltb Float.zero (value a) = true)
  /\ (forall a, max_amount c = Some a ->
                Float.ltb Float.zero (value a) = true)
  /\ Forall (fun t => nonneg (value (t_amount t)) = true
                      /\ forall n, t_max_sponsors t = Some n -> (0 <= n)%Z)
            (tiers c)
  /\ Forall (fun g => nonneg (value (target_amount g)) = true
                      /\ nonneg (value (current_amount g)) = true)
            (goals c).
Proof. exact (parse_text_numbers text c). Qed.

Lemma parsed_numbers_not_negative_witness :
  exists c,
    parse_text example_text = Ok c
    /\ length (tiers c) = 1 /\ length (goals c) = 1
    /\ Forall (fun g => nonneg (value (target_amount g)) = true
                        /\ nonneg (value (current_amount g)) = true)
              (goals c).
Proof.
  eexists. split; [vm_compute; reflexivity|].
  split; [reflexivity|]. split; [reflexivity|].
  apply (parsed_numbers_not_negative example_text).
  vm_compute. reflexivity.
Defined.

Lemma is_digit_or_dot_cases (c : ascii) :
  is_digit_or_dot c = true ->
  (Ascii.eqb c (ch ".") = true /\ is_digit c = false)
  \/ (Ascii.eqb c (ch ".") = false /\ is_digit c = true).
Proof.
  unfold is_digit_or_dot. destruct (Ascii.eqb_spec c (ch ".")) as [->|Hne].
  - intros _. left. split; reflexivity.
  - rewrite orb_false_r. intros H. right. split; [reflexivity | exact H].
Qed.

Lemma split_at_dot (tok ip : str) (rest : option str) :
  forallb is_digit_or_dot tok = true ->
  split_at (ch ".") tok = (ip, rest) ->
  forallb is_digit ip = true
  /\ tok = ip ++ match rest with Some fp => ch "." :: fp | None => [] end.
Proof.
  revert ip. induction tok as [|a tok IH]; intros ip; cbn [forallb split_at].
  - intros _ [= <- <-]. split; reflexivity.
  - rewrite andb_true_iff. intros [Ha Htok].
    destruct (is_digit_or_dot_cases a Ha) as [[Hdot _]|[Hdot Hdig]];
      rewrite Hdot.
    + intros [= <- <-]. apply Ascii.eqb_eq in Hdot. subst a.
      split; reflexivity.
    + destruct (split_at (ch ".") tok) as [l r].
      intros [= <- <-]. destruct (IH l Htok eq_refl) as [Hl Heq].
      cbn [forallb]. rewrite Hdig, Hl. split; [reflexivity|].
      cbn [app]. f_equal. exact Heq.
Qed.

Lemma dots_app (a b : str) : dots (a ++ b) = dots a + dots b.
Proof. unfold dots. rewrite List.filter_app, length_app. reflexivity. Qed.

Lemma digits_no_dots (s : str) :
  forallb is_digit_or_dot s = true ->
  (forallb is_digit s = true <-> dots s = 0).
Proof.
  induction s as [|a s IH]; cbn [forallb]; [intros _; split; reflexivity|].
  rewrite andb_true_iff. intros [Ha Hs]. specialize (IH Hs).
  unfold dots in *. cbn [List.filter].
  destruct (is_digit_or_dot_cases a Ha) as [[Hdot Hdig]|[Hdot Hdig]];
    rewrite Hdot, Hdig; cbn [andb length].
  - split; [discriminate | lia].
  - exact IH.
Qed.

Lemma digits_exists (s : str) :
  forallb is_digit s = true ->
  existsb is_digit s = negb (Nat.eqb (length s) 0).
Proof.
  destruct s as [|a s]; cbn; [reflexivity|].
  intros H. apply andb_prop in H as [-> _]. reflexivity.
Qed.

(** [float] takes a text of digits and dots exactly when it has at most
    one dot and at least one digit. *)
Lemma float_of_digits_None (tok : str) :
  forallb is_digit_or_dot tok = true ->
  (float_of_digits tok = None
   <-> 2 <= dots tok \/ existsb is_digit tok = false).
Proof.
  intros Htok. unfold float_of_digits.
  destruct (split_at (ch ".") tok) as [ip rest] eqn:E.
  destruct (split_at_dot _ _ _ Htok E) as [Hip Heq].
  assert (Hfp : forallb is_digit_or_dot
                        (match rest with Some f => f | None => [] end) = true).
  { rewrite Heq, forallb_app in Htok. apply andb_prop in Htok as [_ Ht].
    destruct rest as [fp|]; [|reflexivity].
    cbn [forallb] in Ht. apply andb_prop in Ht as [_ Ht]. exact Ht. }
  assert (Hdip : dots ip = 0).
  { apply digits_no_dots; [|exact Hip].
    rewrite Heq, forallb_app in Htok. apply andb_prop in Htok as [Ht _].
    exact Ht. }
  set (fp := match rest with Some f => f | None => [] end) in *.
  assert (Hdots : dots tok = match rest with Some _ => 1 + dots fp | None => 0 end).
  { rewrite Heq, dots_app, Hdip. subst fp.
    destruct rest as [f|]; reflexivity. }
  assert (Hex : existsb is_digit tok = existsb is_digit ip || existsb is_digit fp).
  { rewrite Heq, existsb_app. subst fp.
    destruct rest as [f|]; [reflexivity|]. cbn. reflexivity. }
  rewrite Hip. cbn [andb]. rewrite Hex, (digits_exists ip Hip).
  destruct (forallb is_digit fp) eqn:Efp.
  - rewrite (digits_exists fp Efp).
    apply (digits_no_dots fp Hfp) in Efp. cbn [andb].
    assert (Hle : dots tok <= 1) by (rewrite Hdots; destruct rest; lia).
    destruct ip as [|a ip]; destruct fp as [|b fp']; cbn;
      split; try discriminate; try reflexivity; try (intros [?|?]; [lia|discriminate]);
      intros; right; reflexivity.
  - cbn [andb]. split; [intros _; left|reflexivity].
    assert (dots fp <> 0).
    { intros H0. apply (digits_no_dots fp Hfp) in H0. congruence. }
    rewrite Hdots. destruct rest as [f|]; [lia|].
    subst fp. cbn in Efp. discriminate.
Qed.

(** [X6].  Reading the number of a property raises exactly when the
    digits and dots found after the name of the property have two dots
    or more, or no digit among them. *)
Theorem number_refused_iff (text name : str) :
  (exists e, _extract_number_property text name = Err e)
  <-> exists m, re_search (number_property_re name) text = Some m
                /\ (2 <= dots (m_group 1 m)
                    \/ existsb is_digit (m_group 1 m) = false).
Proof.
  unfold _extract_number_property, py_float.
  destruct (re_search (number_property_re name) text) as [m|] eqn:E.
  - destruct (number_token _ _ _ E) as [_ Htok].
    { apply elem_of_cons. left. reflexivity. }
    { intros body Hin. cbn in Hin. apply list_elem_of_singleton in Hin.
      injection Hin as ->. reflexivity. }
    pose proof (float_of_digits_None _ Htok) as Hiff.
    destruct (float_of_digits (m_group 1 m)) as [x|]; cbn [bind].
    + split; [intros [e He]; discriminate He|].
      intros (m' & [= <-] & Hbad). apply Hiff in Hbad. discriminate Hbad.
    + split; [|intros _; eexists; reflexivity].
      intros _. exists m. split; [reflexivity|]. apply Hiff. reflexivity.
  - split; [intros [e He]; discriminate He | intros (m & Hm & _); discriminate Hm].
Qed.

(** ** What the extraction of a block returns *)

(** Where the scan stops: the text it went through has its braces
    matched, but for the [bc - 1] that were open at the start. *)
Lemma scan_braces_balanced (rest : str) :
  forall (pos : nat) (bc : Z) (p : nat),
    (0 < bc)%Z -> scan_braces rest pos bc = Some p ->
    exists w post,
      rest = w ++ ch "}" :: post /\ p = pos + length w
      /\ balanced_from (bc - 1) w = true.
Proof.
  induction rest as [|c rest IH]; intros pos bc p Hbc;
    cbn [scan_braces]; [discriminate|].
  destruct (Ascii.eqb c (ch "{")) eqn:Eo.
  - intros H. apply IH in H as (w & post & -> & -> & Hw); [|lia].
    exists (c :: w), post. cbn [app length balanced_from].
    unfold brace_delta. rewrite Eo.
    replace (bc - 1 + 1)%Z with (bc + 1 - 1)%Z by lia. rewrite Hw.
    repeat split; [lia|]. rewrite andb_true_r. apply Z.leb_le. lia.
  - destruct (Ascii.eqb c (ch "}")) eqn:Ec.
    + destruct (Z.eqb_spec (bc - 1) 0) as [Hz|Hz].
      * intros [= <-]. apply Ascii.eqb_eq in Ec. subst c.
        exists [], rest. cbn [app length balanced_from].
        repeat split; [lia|]. apply Z.eqb_eq, Hz.
      * intros H. apply IH in H as (w & post & -> & -> & Hw); [|lia].
        exists (c :: w), post. cbn [app length balanced_from].
        unfold brace_delta. rewrite Eo, Ec.
        replace (bc - 1 + -1)%Z with (bc - 1 - 1)%Z by lia. rewrite Hw.
        repeat split; [lia|]. rewrite andb_true_r. apply Z.leb_le. lia.
    + intros H. apply IH in H as (w & post & -> & -> & Hw); [|lia].
      exists (c :: w), post. cbn [app length balanced_from].
      unfold brace_delta. rewrite Eo, Ec, Z.add_0_r, Hw.
      repeat split; [lia|]. rewrite andb_true_r. apply Z.leb_le. lia.
Qed.

(** What is extracted lies between the brace at [start_pos] and a
    closing brace, and has its braces matched. *)
Lemma balanced_content_between (text : str) (start_pos : nat) :
  (_extract_balanced_content text start_pos = []
   \/ text = take start_pos text
             ++ ch "{" :: _extract_balanced_content text start_pos
             ++ ch "}"
             :: drop (start_pos
                      + length (_extract_balanced_content text start_pos) + 2)
                     text)
  /\ balanced (_extract_balanced_content text start_pos) = true.
Proof.
  unfold _extract_balanced_content.
  destruct (Nat.leb_spec (length text) start_pos) as [?|Hb];
    cbn [orb]; [split; [left|]; reflexivity|].
  destruct (Ascii.eqb_spec (char_at start_pos text) (ch "{")) as [Hc|?];
    cbn [negb]; [|split; [left|]; reflexivity].
  destruct (scan_braces (drop start_pos text) start_pos 0) as [p|] eqn:E;
    [|split; [left|]; reflexivity].
  pose proof (drop_char_at _ _ Hb) as Hd. rewrite Hc in Hd.
  rewrite Hd in E.
  rewrite scan_braces_step in E by (vm_compute; discriminate).
  change (0 + brace_delta (ch "{"))%Z with 1%Z in E.
  apply scan_braces_balanced in E as (w & post & Hrest & -> & Hw); [|lia].
  assert (Hs : slice (start_pos + 1) (S start_pos + length w) text = w).
  { unfold slice. replace (start_pos + 1) with (S start_pos) by lia.
    rewrite Hrest.
    replace (S start_pos + length w - S start_pos) with (length w) by lia.
    apply take_app_length. }
  rewrite Hs. split; [right | exact Hw].
  rewrite <- (take_drop start_pos text) at 1. f_equal.
  rewrite Hd, Hrest. do 2 f_equal. f_equal.
  replace (start_pos + length w + 2)
    with (S start_pos + length (w ++ [ch "}"])).
  2:{ rewrite length_app. simpl. lia. }
  rewrite <- drop_drop, Hrest.
  replace (w ++ ch "}" :: post) with ((w ++ [ch "}"]) ++ post).
  2:{ rewrite <- app_assoc. reflexivity. }
  rewrite drop_app_length. reflexivity.
Qed.

Lemma scan_entries_balanced (fuel : nat) (pattern : regex) (text : str) :
  forall pos,
    Forall (fun b => balanced (blk_props b) = true)
           (scan_entries fuel pattern text pos).
Proof.
  induction fuel as [|fuel IH]; intros pos; cbn [scan_entries];
    [constructor|].
  destruct (re_search pattern (drop pos text)) as [m|]; [|constructor].
  constructor; [|apply IH]. cbn [blk_props].
  apply balanced_content_between.
Qed.

(** [X7].  Whatever the text and the position, the text
    [_extract_balanced_content] returns has every brace matched inside
    it; when it is not empty it stands in the text between the brace at
    the position and a closing brace, and the scan goes on just after
    that brace.  So the text of every entry of a block has its braces
    matched. *)
Theorem extracted_content_balanced (text : str) (start_pos : nat) :
  balanced (_extract_balanced_content text start_pos) = true
  /\ (_extract_balanced_content text start_pos <> [] ->
      text = take start_pos text
             ++ ch "{" :: _extract_balanced_content text start_pos
             ++ ch "}"
             :: drop (start_pos
                      + length (_extract_balanced_content text start_pos) + 2)
                     text)
  /\ (forall pattern,
        Forall (fun b => balanced (blk_props b) = true)
               (entries pattern text)).
Proof.
  destruct (balanced_content_between text start_pos) as [H1 H2].
  split; [exact H2|]. split.
  - intros Hne. destruct H1 as [H1|H1]; [contradiction | exact H1].
  - intros pattern. apply scan_entries_balanced.
Qed.

Lemma extracted_content_balanced_witness :
  _extract_balanced_content (u"a { b { c } d } e }") 2 = u" b { c } d "
  /\ u"a { b { c } d } e }"
     = u"a " ++ ch "{" :: u" b { c } d " ++ ch "}" :: u" e }".
Proof.
  split; [vm_compute; reflexivity|].
  destruct (extracted_content_balanced (u"a { b { c } d } e }") 2)
    as (_ & H & _).
  rewrite H at 1; [vm_compute; reflexivity | vm_compute; discriminate].
Defined.

(** ** Matches do not depend on where the text starts *)

Lemma star_greedy_ext {R : Type} (p : ascii -> bool) (s : str) :
  forall i g (k1 k2 : @cont R),
    (forall s' i' g', k1 s' i' g' = k2 s' i' g') ->
    star_greedy p s i g k1 = star_greedy p s i g k2.
Proof.
  induction s as [|c s IH]; intros i g k1 k2 Hk; cbn [star_greedy];
    [apply Hk|].
  rewrite (IH (S i) g k1 k2 Hk), Hk. reflexivity.
Qed.

Lemma star_lazy_ext {R : Type} (p : ascii -> bool) (s : str) :
  forall i g (k1 k2 : @cont R),
    (forall s' i' g', k1 s' i' g' = k2 s' i' g') ->
    star_lazy p s i g k1 = star_lazy p s i g k2.
Proof.
  induction s as [|c s IH]; intros i g k1 k2 Hk; cbn [star_lazy];
    rewrite Hk; [reflexivity|].
  rewrite (IH (S i) g k1 k2 Hk). reflexivity.
Qed.

Lemma rmatch_ext {R : Type} (r : regex) :
  forall s i g (k1 k2 : @cont R),
    (forall s' i' g', k1 s' i' g' = k2 s' i' g') ->
    rmatch r s i g k1 = rmatch r s i g k2.
Proof.
  induction r as [| l | p | p | p | p | r1 IH1 r2 IH2 | r1 IH1 r2 IH2
                  | n r1 IH1 |];
    intros s i g k1 k2 Hk; cbn [rmatch].
  - apply Hk.
  - destruct (strip_prefix l s); [apply Hk | reflexivity].
  - destruct s as [|c s]; [reflexivity|]. rewrite Hk. reflexivity.
  - apply star_greedy_ext, Hk.
  - destruct s as [|c s]; [reflexivity|].
    rewrite (star_greedy_ext p s (S i) g k1 k2 Hk). reflexivity.
  - apply star_lazy_ext, Hk.
  - apply IH1. intros s' i' g'. apply IH2, Hk.
  - rewrite (IH1 s i g k1 k2 Hk), (IH2 s i g k1 k2 Hk). reflexivity.
  - apply IH1. intros s' i' g'. apply Hk.
  - destruct s as [|c s]; rewrite Hk; reflexivity.
Qed.

Lemma star_greedy_map {R R' : Type} (f : R -> R') (p : ascii -> bool)
      (s : str) :
  forall i g (k : @cont R),
    star_greedy p s i g (fun s' i' g' => option_map f (k s' i' g'))
    = option_map f (star_greedy p s i g k).
Proof.
  induction s as [|c s IH]; intros i g k; cbn [star_greedy]; [reflexivity|].
  destruct (p c); [|reflexivity]. rewrite IH.
  destruct (star_greedy p s (S i) g k); reflexivity.
Qed.

Lemma star_lazy_map {R R' : Type} (f : R -> R') (p : ascii -> bool)
      (s : str) :
  forall i g (k : @cont R),
    star_lazy p s i g (fun s' i' g' => option_map f (k s' i' g'))
    = option_map f (star_lazy p s i g k).
Proof.
  induction s as [|c s IH]; intros i g k; cbn [star_lazy];
    destruct (k _ i g); try reflexivity.
  cbn [option_map]. destruct (p c); [apply IH | reflexivity].
Qed.

(** What is done with the result of a match does not change the
    match. *)
Lemma rmatch_map {R R' : Type} (f : R -> R') (r : regex) :
  forall s i g (k : @cont R),
    rmatch r s i g (fun s' i' g' => option_map f (k s' i' g'))
    = option_map f (rmatch r s i g k).
Proof.
  induction r as [| l | p | p | p | p | r1 IH1 r2 IH2 | r1 IH1 r2 IH2
                  | n r1 IH1 |];
    intros s i g k; cbn [rmatch].
  - reflexivity.
  - destruct (strip_prefix l s); reflexivity.
  - destruct s as [|c s]; [reflexivity|]. destruct (p c); reflexivity.
  - apply star_greedy_map.
  - destruct s as [|c s]; [reflexivity|].
    destruct (p c); [apply star_greedy_map | reflexivity].
  - apply star_lazy_map.
  - rewrite <- IH1. apply rmatch_ext. intros s' i' g'. apply IH2.
  - rewrite IH1, IH2. destruct (rmatch r1 s i g k); reflexivity.
  - rewrite <- IH1. reflexivity.
  - destruct s as [|c s]; [reflexivity|].
    destruct (Ascii.eqb c newline); reflexivity.
Qed.

Lemma star_greedy_shift {R : Type} (d : nat) (p : ascii -> bool) (s : str) :
  forall i g (k : @cont R),
    star_greedy p s (i + d) g k
    = star_greedy p s i g (fun s' i' g' => k s' (i' + d) g').
Proof.
  induction s as [|c s IH]; intros i g k; cbn [star_greedy]; [reflexivity|].
  rewrite <- IH. reflexivity.
Qed.

Lemma star_lazy_shift {R : Type} (d : nat) (p : ascii -> bool) (s : str) :
  forall i g (k : @cont R),
    star_lazy p s (i + d) g k
    = star_lazy p s i g (fun s' i' g' => k s' (i' + d) g').
Proof.
  induction s as [|c s IH]; intros i g k; cbn [star_lazy]; [reflexivity|].
  rewrite <- IH. reflexivity.
Qed.

(** Counting the positions from [d] characters earlier moves the
    positions of the match and nothing else. *)
Lemma rmatch_shift {R : Type} (d : nat) (r : regex) :
  forall s i g (k : @cont R),
    rmatch r s (i + d) g k
    = rmatch r s i g (fun s' i' g' => k s' (i' + d) g').
Proof.
  induction r as [| l | p | p | p | p | r1 IH1 r2 IH2 | r1 IH1 r2 IH2
                  | n r1 IH1 |];
    intros s i g k; cbn [rmatch].
  - reflexivity.
  - destruct (strip_prefix l s); [|reflexivity].
    f_equal. lia.
  - reflexivity.
  - apply star_greedy_shift.
  - destruct s as [|c s]; [reflexivity|].
    destruct (p c); [|reflexivity]. apply (star_greedy_shift d p s (S i)).
  - apply star_lazy_shift.
  - rewrite IH1. apply rmatch_ext. intros s' i' g'. apply IH2.
  - rewrite IH1, IH2. reflexivity.
  - rewrite IH1. apply rmatch_ext. intros s' i' g'.
    replace (i' + d - (i + d)) with (i' - i) by lia. reflexivity.
  - reflexivity.
Qed.

Lemma match_here_shift (r : regex) (s : str) (i d : nat) :
  match_here r s (i + d) = option_map (shift_match d) (match_here r s i).
Proof.
  unfold match_here. rewrite rmatch_shift, <- rmatch_map. reflexivity.
Qed.

Lemma search_from_shift (r : regex) (s : str) :
  forall i d,
    search_from r s (i + d) = option_map (shift_match d) (search_from r s i).
Proof.
  induction s as [|c s IH]; intros i d; cbn [search_from];
    rewrite match_here_shift; destruct (match_here r _ i); try reflexivity.
  apply (IH (S i) d).
Qed.

(** A pattern that starts with the character [c0] finds nothing in a
    text without it, and goes through such a text to what follows. *)
Lemma search_from_skip (c0 : ascii) (l : str) (r' : regex) (a rest : str) :
  contains_char c0 a = false ->
  forall i,
    search_from (Lit (c0 :: l) -- r') (a ++ rest) i
    = search_from (Lit (c0 :: l) -- r') rest (i + length a).
Proof.
  unfold contains_char.
  induction a as [|x a IH]; intros Ha i; cbn [app length].
  - rewrite Nat.add_0_r. reflexivity.
  - cbn [existsb] in Ha. apply orb_false_elim in Ha as [Hx Ha].
    cbn [search_from]. unfold match_here at 1.
    cbn [rmatch strip_prefix]. rewrite Hx, (IH Ha). f_equal. lia.
Qed.

Lemma re_search_skip (c0 : ascii) (l : str) (r' : regex) (a rest : str) :
  contains_char c0 a = false ->
  re_search (Lit (c0 :: l) -- r') (a ++ rest)
  = option_map (shift_match (length a))
               (re_search (Lit (c0 :: l) -- r') rest).
Proof.
  intros Ha. unfold re_search. rewrite (search_from_skip _ _ _ _ _ Ha).
  apply (search_from_shift _ _ 0).
Qed.

(** ** Comments *)

Lemma contains_app (sub pre rest : str) :
  contains sub (pre ++ sub ++ rest) = true.
Proof.
  induction pre as [|c pre IH]; cbn [app].
  - destruct (sub ++ rest) eqn:E; cbn [contains]; unfold startswith;
      rewrite <- E, strip_prefix_app; reflexivity.
  - cbn [contains]. rewrite IH. apply orb_true_r.
Qed.

(** A pattern that starts with a fixed text finds nothing in a text
    that does not have it. *)
Lemma re_search_no_literal (l : str) (r' : regex) (s : str) :
  contains l s = false -> re_search (Lit l -- r') s = None.
Proof.
  intros Hc. destruct (re_search (Lit l -- r') s) as [m|] eqn:E;
    [|reflexivity].
  apply re_search_sound in E.
  destruct E as (pre & w & post & -> & (w1 & w2 & -> & -> & _) & _).
  rewrite <- app_assoc, contains_app in Hc. discriminate Hc.
Qed.

Lemma sub_empty_none (r : regex) (s : str) :
  re_search r s = None -> re_sub_empty r s = s.
Proof. intros H. unfold re_sub_empty. cbn [sub_empty_fuel]. rewrite H. reflexivity. Qed.

Lemma sub_empty_Some (r : regex) (s : str) (m : re_match) :
  0 < min_len r -> re_search r s = Some m ->
  re_sub_empty r s = take (m_start m) s ++ re_sub_empty r (drop (m_end m) s).
Proof.
  intros Hr H. unfold re_sub_empty at 1. cbn [sub_empty_fuel]. rewrite H.
  f_equal. pose proof (re_search_bounds _ _ _ H) as Hb.
  unfold re_sub_empty.
  apply (sub_empty_fuel_enough r Hr); rewrite length_drop; lia.
Qed.

(** Removing the matches from a text that starts with a part free of the
    first character of the pattern leaves that part as it is. *)
Lemma sub_empty_skip (c0 : ascii) (l : str) (r' : regex) (a rest : str) :
  0 < min_len (Lit (c0 :: l) -- r') ->
  contains_char c0 a = false ->
  re_sub_empty (Lit (c0 :: l) -- r') (a ++ rest)
  = a ++ re_sub_empty (Lit (c0 :: l) -- r') rest.
Proof.
  intros Hr Ha.
  destruct (re_search (Lit (c0 :: l) -- r') rest) as [m|] eqn:E.
  - rewrite (sub_empty_Some _ (a ++ rest) (shift_match (length a) m) Hr).
    2:{ rewrite (re_search_skip _ _ _ _ _ Ha), E. reflexivity. }
    rewrite (sub_empty_Some _ rest m Hr E). cbn [shift_match m_start m_end].
    rewrite app_assoc. f_equal.
    + rewrite Nat.add_comm, take_app_add. reflexivity.
    + rewrite Nat.add_comm, drop_app_add. reflexivity.
  - rewrite (sub_empty_none _ rest E). apply sub_empty_none.
    rewrite (re_search_skip _ _ _ _ _ Ha), E. reflexivity.
Qed.

Lemma star_lazy_to_eol (b rest : str) (i j : nat) (g : groups) :
  contains_char newline b = false ->
  rest = [] \/ (exists rest', rest = newline :: rest') ->
  star_lazy not_newline (b ++ rest) j g
            (fun s' i' g' => rmatch Eol s' i' g' (accept i))
  = Some (MkMatch i (j + length b) g).
Proof.
  intros Hb Hrest. revert j. unfold contains_char in Hb.
  induction b as [|c b IH]; intros j; cbn [app length].
  - rewrite Nat.add_0_r.
    destruct Hrest as [->|[rest' ->]]; cbn [star_lazy rmatch];
      [reflexivity|].
    rewrite Ascii.eqb_refl. reflexivity.
  - cbn [existsb] in Hb. apply orb_false_elim in Hb as [Hc Hb].
    rewrite Ascii.eqb_sym in Hc.
    cbn [star_lazy rmatch]. unfold not_newline. rewrite Hc. cbn [negb].
    rewrite (IH Hb). f_equal. f_equal. lia.
Qed.

(** A line comment: the two slashes and all that follows them on the
    line. *)
Lemma line_comment_found (a b rest : str) :
  contains_char (ch "/") a = false ->
  contains_char newline b = false ->
  rest = [] \/ (exists rest', rest = newline :: rest') ->
  re_search line_comment_re (a ++ u"//" ++ b ++ rest)
  = Some (MkMatch (length a) (length a + 2 + length b) []).
Proof.
  intros Ha Hb Hrest. unfold line_comment_re.
  change (u"//") with (ch "/" :: [ch "/"]).
  rewrite (re_search_skip _ _ _ _ _ Ha).
  unfold re_search. cbn [search_from app]. unfold match_here at 1.
  cbn [rmatch strip_prefix]. rewrite !Ascii.eqb_refl.
  rewrite (star_lazy_to_eol b rest 0 _ [] Hb Hrest).
  cbn [option_map]. unfold shift_match. cbn [m_start m_end m_groups length].
  f_equal. f_equal. lia.
Qed.

Lemma line_comment_removed (a b rest : str) :
  contains_char (ch "/") a = false ->
  contains_char newline b = false ->
  rest = [] \/ (exists rest', rest = newline :: rest') ->
  re_sub_empty line_comment_re (a ++ u"//" ++ b ++ rest)
  = a ++ re_sub_empty line_comment_re rest.
Proof.
  intros Ha Hb Hrest.
  assert (Hr : 0 < min_len line_comment_re) by (vm_compute; lia).
  rewrite (sub_empty_Some _ _ _ Hr (line_comment_found a b rest Ha Hb Hrest)).
  cbn [m_start m_end]. f_equal.
  - rewrite take_app_length. reflexivity.
  - replace (length a + 2 + length b)
      with (length a + (length (u"//" ++ b))).
    2:{ rewrite length_app. cbn. lia. }
    rewrite drop_app_add, app_assoc, drop_app_length. reflexivity.
Qed.

Lemma strip_comments_line (a b rest : str) :
  contains_char (ch "/") a = false ->
  contains_char newline b = false ->
  rest = [] \/ (exists rest', rest = newline :: rest') ->
  strip_comments (a ++ u"//" ++ b ++ rest) = a ++ strip_comments rest.
Proof.
  intros Ha Hb Hrest. unfold strip_comments.
  rewrite (line_comment_removed a b rest Ha Hb Hrest).
  unfold block_comment_re. change (u"/*") with (ch "/" :: [ch "*"]).
  apply sub_empty_skip; [cbn [min_len length]; lia | exact Ha].
Qed.

(** [X8].  A text that has neither two slashes in a row nor a slash
    followed by a star comes out of the removal of the comments as it
    went in. *)
Theorem strip_comments_without_markers (text : str) :
  contains (u"//") text = false -> contains (u"/*") text = false ->
  strip_comments text = text.
Proof.
  intros H1 H2. unfold strip_comments.
  rewrite (sub_empty_none line_comment_re text).
  - apply sub_empty_none, re_search_no_literal, H2.
  - apply re_search_no_literal, H1.
Qed.

Lemma strip_comments_without_markers_witness :
  strip_comments (uq "funding 'P' { currency EUR } / * /")
  = uq "funding 'P' { currency EUR } / * /".
Proof.
  apply strip_comments_without_markers; vm_compute; reflexivity.
Defined.

(** [X9].  Two slashes start a comment wherever they stand, inside a
    quoted value too: when the first slash of the text is the first of
    two, the two slashes and all that follows them up to the end of the
    line are removed, and the removal of the comments goes on with the
    rest of the text.  What comes after the two slashes of a URL is lost
    with them. *)
Theorem line_comment_cuts_the_line (a b rest : str) :
  contains_char (ch "/") a = false ->
  contains_char newline b = false ->
  strip_comments (a ++ u"//" ++ b ++ newline :: rest)
  = a ++ strip_comments (newline :: rest)
  /\ strip_comments (a ++ u"//" ++ b) = a.
Proof.
  intros Ha Hb. split.
  - apply strip_comments_line; [exact Ha | exact Hb |].
    right. eexists. reflexivity.
  - rewrite <- (app_nil_r b).
    rewrite (strip_comments_line a b [] Ha Hb (or_introl eq_refl)).
    apply app_nil_r.
Qed.

Lemma line_comment_cuts_the_line_witness :
  strip_comments (uq "custom 'site' { url 'https://example.org/donate' }")
  = uq "custom 'site' { url 'https:".
Proof.
  apply (line_comment_cuts_the_line
           (uq "custom 'site' { url 'https:")
           (uq "example.org/donate' }") []);
    vm_compute; reflexivity.
Defined.

(** ** Valid configurations *)

Lemma rule_if_nil (b : bool) (msg : str) : rule_if b msg = [] <-> b = false.
Proof. destruct b; cbn; split; congruence. Qed.

Lemma str_falsy_false (s : str) : str_falsy s = false <-> s <> [].
Proof. destruct s; cbn; split; congruence. Qed.

Lemma opt_str_falsy_false (o : option str) :
  opt_str_falsy o = false <-> exists s, o = Some s /\ s <> [].
Proof.
  destruct o as [s|]; cbn.
  - rewrite str_falsy_false. split.
    + intros H. exists s. split; [reflexivity | exact H].
    + intros (s' & [= <-] & H). exact H.
  - split; [discriminate | intros (s & H & _); discriminate H].
Qed.

Lemma startswith_prefix (p s : str) :
  startswith p s = true <-> exists rest, s = p ++ rest.
Proof.
  unfold startswith. destruct (strip_prefix p s) as [s'|] eqn:E.
  - apply strip_prefix_Some in E. split; [|reflexivity].
    intros _. exists s'. exact E.
  - split; [discriminate|]. intros [rest ->].
    rewrite strip_prefix_app in E. discriminate E.
Qed.

Lemma tidelift_errors_nil (s : FundingSource) :
  tidelift_errors s = []
  <-> (platform s = TIDELIFT -> tidelift_form (username s)).
Proof.
  unfold tidelift_errors. rewrite <- tidelift_ok_form. unfold tidelift_ok.
  destruct (bool_decide_reflect (platform s = TIDELIFT)) as [Hp|Hp].
  - destruct (contains_char (ch "/") (username s)); cbn [negb andb].
    + rewrite rule_if_nil, negb_false_iff. split; auto.
    + split; [discriminate | intros H; discriminate (H Hp)].
  - split; [intros _ H; contradiction | reflexivity].
Qed.

(** A funding source adds nothing to the errors exactly when it is well
    formed. *)
Lemma source_errors_nil (s : FundingSource) :
  source_errors s = [] <-> well_formed_source s.
Proof.
  unfold source_errors, well_formed_source.
  rewrite !app_nil, !rule_if_nil, tidelift_errors_nil, str_falsy_false.
  assert (H1 : bool_decide (platform s = CUSTOM)
               && opt_str_falsy (custom_url s) = false
               <-> (platform s = CUSTOM ->
                    exists url, custom_url s = Some url /\ url <> [])).
  { rewrite <- opt_str_falsy_false.
    destruct (bool_decide_reflect (platform s = CUSTOM)) as [Hp|Hp];
      cbn [andb]; split; auto; try contradiction. }
  assert (H2 : bool_decide (platform s = THANKS_DEV)
               && negb (startswith (u"u/gh/") (username s)) = false
               <-> (platform s = THANKS_DEV ->
                    exists rest, username s = u"u/gh/" ++ rest)).
  { rewrite <- startswith_prefix.
    destruct (bool_decide_reflect (platform s = THANKS_DEV)) as [Hp|Hp];
      cbn [andb]; rewrite ?negb_false_iff; split; auto; try contradiction. }
  rewrite H1, H2. reflexivity.
Qed.

Lemma flat_map_nil {A B : Type} (f : A -> list B) (l : list A) :
  flat_map f l = [] <-> Forall (fun a => f a = []) l.
Proof.
  induction l as [|a l IH]; cbn [flat_map].
  - split; [constructor | reflexivity].
  - rewrite app_nil, IH, Forall_cons. reflexivity.
Qed.

Lemma valid_iff_well_formed (config : FundingConfiguration) :
  is_valid_configuration config = true <-> well_formed config.
Proof.
  unfold is_valid_configuration, well_formed.
  rewrite Nat.eqb_eq, length_zero_iff_nil, validate_configuration_rules.
  rewrite !unique_names_test, !app_nil, !rule_if_nil, flat_map_nil.
  rewrite str_falsy_false, !negb_false_iff, !bool_decide_eq_true.
  rewrite !Nat.eqb_neq, !length_zero_iff_nil.
  rewrite (Forall_iff _ _ _ source_errors_nil). reflexivity.
Qed.

(** [X10].  [is_valid_configuration] holds exactly for the
    configurations that have a project name, a beneficiary, and a funding
    source, in which every funding source has a username, a custom
    source a URL, a Tidelift source a username made of a known registry, a
    slash and a package, a thanks.dev source a username that starts with
    [u/gh/], and in which no two tiers and no two goals have the same
    name. *)
Theorem valid_configurations (config : FundingConfiguration) :
  is_valid_configuration config = true <-> well_formed config.
Proof. exact (valid_iff_well_formed config). Qed.

(** ** The export to [funding.yml] *)

Lemma yml_lines_ext (l1 l2 : list FundingSource) :
  (forall key, key ∈ field_order -> yml_items l1 key = yml_items l2 key) ->
  yml_lines l1 = yml_lines l2.
Proof.
  intros H. unfold yml_lines, funding_data.
  induction field_order as [|key keys IH]; cbn [flat_map]; [reflexivity|].
  rewrite (H key) by (apply elem_of_cons; left; reflexivity).
  f_equal. apply IH. intros key' Hin. apply H, elem_of_cons. right. exact Hin.
Qed.

Lemma yml_items_exported (l : list FundingSource) (key : str) :
  yml_items (List.filter (fun s => opt_bool_truthy (is_active s)) l) key
  = yml_items (List.filter exported l) key.
Proof.
  unfold yml_items, exported.
  induction l as [|s l IH]; cbn [List.filter flat_map]; [reflexivity|].
  destruct (opt_bool_truthy (is_active s)); cbn [andb]; [|exact IH].
  destruct (bool_decide_reflect (platform s = PAYPAL)) as [Hp|Hp];
    cbn [negb flat_map].
  - unfold yml_bucket at 1. rewrite Hp. exact IH.
  - rewrite IH. reflexivity.
Qed.

Lemma filter_exported_active (l : list FundingSource) :
  List.filter (fun s => opt_bool_truthy (is_active s)) (List.filter exported l)
  = List.filter exported l.
Proof.
  induction l as [|s l IH]; cbn [List.filter]; [reflexivity|].
  destruct (exported s) eqn:E; [|exact IH].
  cbn [List.filter]. unfold exported in E. apply andb_prop in E as [-> _].
  rewrite IH. reflexivity.
Qed.

Lemma export_only_exported (config : FundingConfiguration) :
  to_github_funding_yml config
  = to_github_funding_yml
      (with_sources config (List.filter exported (funding_sources config))).
Proof.
  unfold to_github_funding_yml, get_active_sources.
  cbn [with_sources project_name funding_sources].
  destruct (bool_decide _); [reflexivity|].
  rewrite filter_exported_active. do 2 f_equal.
  apply yml_lines_ext. intros key _. apply yml_items_exported.
Qed.

Lemma export_nothing (config : FundingConfiguration) :
  project_name config <> u"octo-package" ->
  Forall (fun s => exported s = false) (funding_sources config) ->
  to_github_funding_yml config = [newline].
Proof.
  intros Hp Hall. rewrite export_only_exported.
  unfold to_github_funding_yml. cbn [with_sources project_name].
  rewrite bool_decide_eq_false_2 by exact Hp.
  unfold get_active_sources. cbn [funding_sources].
  replace (List.filter exported (funding_sources config)) with
    (@nil FundingSource); [reflexivity|].
  induction Hall as [|s l Hs _ IH]; cbn [List.filter]; [reflexivity|].
  rewrite Hs. exact IH.
Qed.

(** [X11].  A funding source that is not active, and a PayPal source,
    leave no trace in [funding.yml]: the text is the one of the
    configuration without them.  When no source is left the text is one
    empty line. *)
Theorem funding_yml_ignores_inactive_and_paypal
        (config : FundingConfiguration) :
  to_github_funding_yml config
  = to_github_funding_yml
      (with_sources config (List.filter exported (funding_sources config)))
  /\ (project_name config <> u"octo-package" ->
      Forall (fun s => exported s = false) (funding_sources config) ->
      to_github_funding_yml config = [newline]).
Proof.
  split; [apply export_only_exported | apply export_nothing].
Qed.

Lemma funding_yml_ignores_inactive_and_paypal_witness :
  to_github_funding_yml
    (MkConfig (u"P") None [] [MkSource PAYPAL (u"me") BOTH (Some true) None ∅;
                              MkSource PATREON (u"me") BOTH None None ∅]
              [] [] USD None None)
  = [newline].
Proof.
  apply funding_yml_ignores_inactive_and_paypal;
    [vm_compute; discriminate | repeat constructor].
Defined.

Lemma contains_inv (sub w : str) :
  contains sub w = true -> exists a b, w = a ++ sub ++ b.
Proof.
  induction w as [|c w IH]; cbn [contains].
  - rewrite orb_false_r. intros H. apply startswith_prefix in H as [rest H].
    exists [], rest. exact H.
  - intros H. apply orb_prop in H as [H|H].
    + apply startswith_prefix in H as [rest H]. exists [], rest. exact H.
    + destruct (IH H) as (a & b & ->). exists (c :: a), b. reflexivity.
Qed.

Lemma contains_mono (sub pre w post : str) :
  contains sub w = true -> contains sub (pre ++ w ++ post) = true.
Proof.
  intros H. apply contains_inv in H as (a & b & ->).
  replace (pre ++ (a ++ sub ++ b) ++ post)
    with ((pre ++ a) ++ sub ++ (b ++ post)).
  - apply contains_app.
  - rewrite <- !app_assoc. reflexivity.
Qed.

Lemma scan_entries_inside (sub : str) (fuel : nat) (pattern : regex)
      (text : str) :
  contains sub text = false ->
  forall pos,
    Forall (fun b => contains sub (blk_props b) = false)
           (scan_entries fuel pattern text pos).
Proof.
  intros Hc. induction fuel as [|fuel IH]; intros pos; cbn [scan_entries];
    [constructor|].
  destruct (re_search pattern (drop pos text)) as [m|]; [|constructor].
  constructor; [|apply IH]. cbn [blk_props].
  destruct (balanced_content_between text (pos + m_end m - 1)) as [[H|H] _].
  - rewrite H. destruct (contains sub []) eqn:E; [|reflexivity].
    apply contains_inv in E as (a & b & E).
    destruct a; destruct sub; try discriminate E.
    destruct text; cbn in Hc; discriminate Hc.
  - destruct (contains sub (_extract_balanced_content _ _)) eqn:E;
      [|reflexivity].
    assert (Ht : contains sub text = true); [|congruence].
    rewrite H.
    set (post := ch "}" :: drop _ text).
    apply (contains_mono sub (take (pos + m_end m - 1) text ++ [ch "{"])
             _ post) in E.
    rewrite <- !app_assoc in E. exact E.
Qed.

Lemma boolean_property_needs_name (props name : str) :
  contains name props = false -> _extract_boolean_property props name = None.
Proof.
  intros H. unfold _extract_boolean_property, boolean_property_re.
  rewrite (re_search_no_literal _ _ _ H). reflexivity.
Qed.

Lemma parsed_sources_inactive (text : str) (c : FundingConfiguration) :
  parse_text text = Ok c ->
  contains (u"active") (block_text (strip_comments text) (u"sources")) = false ->
  Forall (fun s => is_active s = None) (funding_sources c).
Proof.
  intros H Hc. apply parsed_sources in H.
  eapply Forall_impl; [exact H|].
  intros s (kw & b & _ & Hb & ->). rewrite build_source_active.
  apply boolean_property_needs_name.
  pose proof (scan_entries_inside _ (S (length (block_text (strip_comments text)
                                                          (u"sources"))))
                (entry_re kw) _ Hc 0) as Hall.
  rewrite Forall_forall in Hall. exact (Hall b Hb).
Qed.

(** [X12].  The parser does not make a funding source active unless
    its entry says so: when the word [active] is nowhere in the [sources]
    block, no source of the configuration is active, and [funding.yml]
    is one empty line, whatever the sources are. *)
Theorem sources_exported_only_when_marked_active
        (text : str) (c : FundingConfiguration) :
  parse_text text = Ok c ->
  contains (u"active") (block_text (strip_comments text) (u"sources")) = false ->
  get_active_sources c = []
  /\ (project_name c <> u"octo-package" ->
      to_github_funding_yml c = [newline]).
Proof.
  intros H Hc. pose proof (parsed_sources_inactive _ _ H Hc) as Hall.
  split.
  - unfold get_active_sources.
    induction Hall as [|s l Hs _ IH]; cbn [List.filter]; [reflexivity|].
    rewrite Hs. exact IH.
  - intros Hp. apply export_nothing; [exact Hp|].
    eapply Forall_impl; [exact Hall|].
    intros s Hs. unfold exported. rewrite Hs. reflexivity.
Qed.

Lemma sources_exported_only_when_marked_active_witness :
  exists c,
    parse_text
      (uq "funding 'P' { sources { github_sponsors 'octo' { } patreon 'p' { type RECURRING } } }")
    = Ok c
    /\ length (funding_sources c) = 2
    /\ get_active_sources c = []
    /\ to_github_funding_yml c = [newline].
Proof.
  eexists. split; [vm_compute; reflexivity|].
  split; [reflexivity|].
  destruct (sources_exported_only_when_marked_active
    (uq "funding 'P' { sources { github_sponsors 'octo' { } patreon 'p' { type RECURRING } } }")
    _ ltac:(vm_compute; reflexivity) ltac:(vm_compute; reflexivity))
    as [H1 H2].
  split; [exact H1 | apply H2; vm_compute; discriminate].
Defined.

Lemma yml_items_platform (p : FundingPlatform) (key : str)
      (l : list FundingSource) :
  (forall s, platform s <> p ->
             match yml_bucket s with
             | Some (k, _) => k <> key
             | None => True
             end) ->
  yml_items l key
  = yml_items (List.filter (fun s => bool_decide (platform s = p)) l) key.
Proof.
  intros Hp. unfold yml_items.
  induction l as [|s l IH]; cbn [List.filter flat_map]; [reflexivity|].
  destruct (bool_decide_reflect (platform s = p)) as [Hs|Hs];
    cbn [flat_map]; [rewrite IH; reflexivity|].
  specialize (Hp s Hs). destruct (yml_bucket s) as [[k item]|]; [|exact IH].
  rewrite bool_decide_eq_false_2 by exact Hp. exact IH.
Qed.

Lemma filter_platform_active (p : FundingPlatform) (l : list FundingSource) :
  List.filter (fun s => bool_decide (platform s = p))
              (List.filter (fun s => opt_bool_truthy (is_active s)) l)
  = List.filter (fun s => opt_bool_truthy (is_active s))
                (List.filter (fun s => bool_decide (platform s = p)) l).
Proof.
  induction l as [|s l IH]; cbn [List.filter]; [reflexivity|].
  destruct (opt_bool_truthy (is_active s)) eqn:Ea;
    destruct (bool_decide (platform s = p)) eqn:Ep; cbn [List.filter];
    rewrite ?Ea, ?Ep, IH; reflexivity.
Qed.

Lemma yml_lines_by_platform (l1 l2 : list FundingSource) :
  (forall p, List.filter (fun s => bool_decide (platform s = p)) l1
             = List.filter (fun s => bool_decide (platform s = p)) l2) ->
  yml_lines l1 = yml_lines l2.
Proof.
  intros H. apply yml_lines_ext. intros key Hin. unfold field_order in Hin.
  assert (Hkey : forall p,
             (forall s, platform s <> p ->
                        match yml_bucket s with
                        | Some (k, _) => k <> key
                        | None => True
                        end) ->
             yml_items l1 key = yml_items l2 key).
  { intros p Hp.
    rewrite (yml_items_platform p key l1 Hp), (yml_items_platform p key l2 Hp),
      H. reflexivity. }
  repeat (apply elem_of_cons in Hin as [->|Hin]);
    [apply (Hkey GITHUB_SPONSORS) | apply (Hkey PATREON)
     | apply (Hkey OPEN_COLLECTIVE) | apply (Hkey KO_FI)
     | apply (Hkey TIDELIFT) | apply (Hkey POLAR)
     | apply (Hkey BUY_ME_A_COFFEE) | apply (Hkey THANKS_DEV)
     | apply (Hkey COMMUNITY_BRIDGE) | apply (Hkey LIBERAPAY)
     | apply (Hkey ISSUEHUNT) | apply (Hkey CUSTOM) | inversion Hin];
    intros s Hs; unfold yml_bucket; destruct (platform s);
    first [exact I | contradiction Hs; reflexivity | discriminate].
Qed.

(** [X13].  [funding.yml] depends on the funding sources only through
    the list of the sources of each platform: two configurations of the
    same project whose sources are the same platform by platform give the
    same text, in whatever order the sources of different platforms come.
    The lines follow the order of the fields, not the order of the
    sources. *)
Theorem funding_yml_by_platform (c1 c2 : FundingConfiguration) :
  project_name c1 = project_name c2 ->
  (forall p,
     List.filter (fun s => bool_decide (platform s = p)) (funding_sources c1)
     = List.filter (fun s => bool_decide (platform s = p))
                   (funding_sources c2)) ->
  to_github_funding_yml c1 = to_github_funding_yml c2.
Proof.
  intros Hn H. unfold to_github_funding_yml, get_active_sources.
  rewrite Hn. destruct (bool_decide _); [reflexivity|].
  do 2 f_equal. apply yml_lines_by_platform. intros p.
  rewrite !filter_platform_active, H. reflexivity.
Qed.

Lemma funding_yml_by_platform_witness :
  let a := MkSource PATREON (u"ann") BOTH (Some true) None ∅ in
  let b := MkSource GITHUB_SPONSORS (u"bob") BOTH (Some true) None ∅ in
  let config l := MkConfig (u"P") None [] l [] [] USD None None in
  to_github_funding_yml (config [a; b]) = to_github_funding_yml (config [b; a])
  /\ to_github_funding_yml (config [a; b])
     = u"github: bob" ++ newline :: u"patreon: ann" ++ [newline].
Proof.
  intros a b config. split; [|vm_compute; reflexivity].
  apply funding_yml_by_platform; [reflexivity|].
  intros p. destruct p; reflexivity.
Defined.

(** ** The range of the progress *)

Lemma SFcompare_antisym (x y : float) :
  SFcompare y x = option_map CompOpp (SFcompare x y).
Proof.
  destruct x as [[|]|[|]| |[|] m e]; destruct y as [[|]|[|]| |[|] m' e'];
    try reflexivity; cbn [SFcompare option_map];
    rewrite (Z.compare_antisym e e');
    destruct (e ?= e')%Z; cbn [CompOpp]; try reflexivity;
    rewrite (Pos.compare_cont_antisym m m' Eq); reflexivity.
Qed.

Lemma leb_of_not_ltb (x y : float) :
  nonneg x = true -> nonneg y = true ->
  Float.ltb y x = false -> Float.leb x y = true.
Proof.
  unfold nonneg, Float.ltb, Float.leb, SFltb, SFleb. intros Hx Hy.
  rewrite (SFcompare_antisym x y).
  destruct (SFcompare x y) as [[| |]|] eqn:E; cbn; try congruence.
  destruct x as [[|]|[|]| |[|] m e]; destruct y as [[|]|[|]| |[|] m' e'];
    cbn in *; congruence.
Qed.

Lemma div_nonneg (x y : float) :
  nonneg x = true -> nonneg y = true -> finite y = true ->
  Float.eqb y Float.zero = false ->
  nonneg (Float.div x y) = true.
Proof.
  intros Hx Hy Hf Hz.
  destruct x as [[|]|[|]| |[|] m e]; destruct y as [[|]|[|]| |[|] m' e'];
    try discriminate Hx; try discriminate Hy; try discriminate Hf;
    try discriminate Hz; try reflexivity.
  clear. unfold Float.div, SFdiv.
  pose proof (of_ratio_nonneg (Z.pos m) (Z.pos m')) as H.
  unfold Float.of_ratio, SFdiv_core_binary in *.
  set (s := (_ - _ - _)%Z).
  set (m1 := match s with Z.pos _ => _ | _ => _ end).
  assert (Hm1 : (0 <= m1)%Z).
  { subst m1. destruct s; [lia| |lia]. apply Z.shiftl_nonneg. lia. }
  pose proof (Z.div_pos m1 (Z.pos m') Hm1 ltac:(lia)) as Hq.
  unfold Z.div in Hq. destruct (Z.div_eucl m1 (Z.pos m')) as [q r].
  apply binary_round_aux_nonneg, Hq.
Qed.

Lemma mul_nonneg (x y : float) :
  nonneg x = true -> nonneg y = true -> finite y = true ->
  Float.eqb y Float.zero = false ->
  nonneg (Float.mul x y) = true.
Proof.
  intros Hx Hy Hf Hz.
  destruct x as [[|]|[|]| |[|] m e]; destruct y as [[|]|[|]| |[|] m' e'];
    try discriminate Hx; try discriminate Hy; try discriminate Hf;
    try discriminate Hz; try reflexivity.
  apply binary_round_aux_nonneg. lia.
Qed.

Lemma progress_range (g : FundingGoal) :
  nonneg (value (current_amount g)) = true ->
  nonneg (value (target_amount g)) = true ->
  finite (value (target_amount g)) = true ->
  exists p, progress_percentage g = Ok p
            /\ Float.leb Float.zero p = true
            /\ Float.leb p (Float.of_Z 100) = true.
Proof.
  intros Hc Ht Hf. unfold progress_percentage, Float.truediv.
  change (Float.of_Z 0) with Float.zero.
  destruct (Float.eqb (value (target_amount g)) Float.zero) eqn:Ez.
  - exists Float.zero. repeat split.
  - cbn [bind]. eexists. split; [reflexivity|].
    pose proof (div_nonneg _ _ Hc Ht Hf Ez) as Hq.
    pose proof (mul_nonneg _ (Float.of_Z 100) Hq eq_refl eq_refl eq_refl) as Hm.
    unfold Float.min.
    destruct (Float.ltb (Float.of_Z 100) _) eqn:El.
    + split; reflexivity.
    + split; [exact Hm|]. apply leb_of_not_ltb; [exact Hm | reflexivity | exact El].
Qed.

(** [X14].  For a goal whose current amount is not negative and whose
    target is a finite number that is not negative, the progress is a
    number from 0 to 100, with nothing raised; a target that is infinite
    or an amount below zero are outside this. *)
Theorem progress_between_0_and_100 (g : FundingGoal) :
  nonneg (value (current_amount g)) = true ->
  nonneg (value (target_amount g)) = true ->
  finite (value (target_amount g)) = true ->
  exists p, progress_percentage g = Ok p
            /\ Float.leb Float.zero p = true
            /\ Float.leb p (Float.of_Z 100) = true.
Proof. exact (progress_range g). Qed.

Lemma progress_between_0_and_100_witness :
  exists p,
    progress_percentage
      (MkGoal (u"G") (MkAmount (Float.of_Z 3) USD) None None
              (MkAmount (Float.of_Z 7) USD) false) = Ok p
    /\ Float.leb Float.zero p = true
    /\ Float.leb p (Float.of_Z 100) = true.
Proof.
  apply progress_between_0_and_100; vm_compute; reflexivity.
Defined.

(** ** What the parser cannot set *)

Lemma filter_all {A : Type} (f : A -> bool) (l : list A) :
  Forall (fun a => f a = true) l -> List.filter f l = l.
Proof.
  induction 1 as [|a l Ha _ IH]; cbn [List.filter]; [reflexivity|].
  rewrite Ha, IH. reflexivity.
Qed.

(** [X15].  The parser has no way to switch a tier off or to mark a
    goal as reached: in a configuration it returns every tier is active
    and every goal is unreached, so [get_active_tiers] gives all the
    tiers and [get_unreached_goals] all the goals. *)
Theorem parsed_tiers_active_goals_unreached
        (text : str) (c : FundingConfiguration) :
  parse_text text = Ok c ->
  get_active_tiers c = tiers c /\ get_unreached_goals c = goals c.
Proof.
  intros H. apply parse_text_Ok in H.
  destruct H as (m & mn & mx & tl & gl & ts & _ & _ & _ & _ & _ & Hts & ->).
  unfold get_active_tiers, get_unreached_goals.
  cbn [built tiers goals]. split; apply filter_all.
  - eapply (map_result_Forall (fun _ => True)); [| |exact Hts].
    + intros td t _ Ht. apply build_tier_Ok in Ht as (_ & _ & _ & Ha).
      exact Ha.
    + apply Forall_forall. intros; exact I.
  - rewrite Forall_fmap. apply Forall_forall. intros gd _. reflexivity.
Qed.

Lemma parsed_tiers_active_goals_unreached_witness :
  exists c,
    parse_text example_text = Ok c
    /\ length (tiers c) = 1 /\ length (goals c) = 1
    /\ get_active_tiers c = tiers c /\ get_unreached_goals c = goals c.
Proof.
  eexists. split; [vm_compute; reflexivity|].
  split; [reflexivity|]. split; [reflexivity|].
  apply (parsed_tiers_active_goals_unreached example_text).
  vm_compute. reflexivity.
Defined.

(** ** The first occurrence of a property *)

Lemma string_property_match (name ws v rest : str) (i : nat) :
  ws <> [] -> forallb is_space ws = true -> plain_value v ->
  match_here (string_property_re name)
             (name ++ ws ++ dquote :: v ++ dquote :: rest) i
  = Some (MkMatch i (i + length name + length ws + length v + 2) [(1, v)]).
Proof.
  intros Hne Hws [Hv Hnq].
  destruct ws as [|c ws]; [congruence|]. destruct v as [|d v]; [congruence|].
  cbn [forallb] in Hws, Hnq.
  apply andb_prop in Hws as [Hc Hws]. apply andb_prop in Hnq as [Hd Hnq].
  unfold match_here, string_property_re, q. cbn [rmatch].
  rewrite strip_prefix_app. cbn [app]. rewrite Hc.
  rewrite star_greedy_span.
  2:{ intros c' s' i' g' Hc'. cbn [rmatch strip_prefix].
      destruct (Ascii.eqb_spec dquote c') as [<-|]; [discriminate Hc'|].
      reflexivity. }
  rewrite (span_stop is_space ws dquote _ Hws eq_refl). cbn [fst snd].
  cbn [rmatch strip_prefix]. rewrite Ascii.eqb_refl.
  cbn [app]. rewrite Hd.
  rewrite star_greedy_span.
  2:{ intros c' s' i' g' Hc'. cbn [rmatch strip_prefix].
      unfold not_quote in Hc'. rewrite Ascii.eqb_sym.
      apply negb_true_iff in Hc'. rewrite Hc'. reflexivity. }
  rewrite (span_stop not_quote v dquote _ Hnq).
  2:{ unfold not_quote. rewrite Ascii.eqb_refl. reflexivity. }
  cbn [fst snd rmatch strip_prefix]. rewrite Ascii.eqb_refl.
  unfold accept. f_equal. f_equal.
  - cbn [length]. lia.
  - f_equal. f_equal. rewrite app_comm_cons.
    match goal with
    | |- take ?n _ = _ =>
        replace n with (length (d :: v)) by (cbn [length]; lia)
    end.
    apply take_app_length.
Qed.

Lemma string_property_lang (name w : str) :
  lang (string_property_re name) w ->
  exists ws v,
    w = name ++ ws ++ dquote :: v ++ [dquote]
    /\ ws <> [] /\ forallb is_space ws = true /\ plain_value v.
Proof.
  unfold string_property_re, q. cbn [lang].
  intros (w1 & r1 & -> & -> & ws & r2 & -> & [Hne Hws] & w3 & r3 & -> & ->
          & v & w5 & -> & Hv & ->).
  exists ws, v. split; [reflexivity|]. split; [exact Hne|].
  split; [exact Hws | exact Hv].
Qed.

Lemma string_property_here (name s : str) (i : nat) (m : re_match) :
  match_here (string_property_re name) s i = Some m ->
  quoted_after name s (m_group 1 m).
Proof.
  intros H. pose proof H as H'. apply match_here_sound in H'.
  destruct H' as (w & s' & -> & Hl & _).
  apply string_property_lang in Hl as (ws & v & -> & Hne & Hws & Hv).
  rewrite <- !app_assoc in H. cbn [app] in H. rewrite <- app_assoc in H.
  cbn [app] in H.
  rewrite (string_property_match name ws v s' i Hne Hws Hv) in H.
  injection H as <-. cbn.
  exists ws, s'. rewrite <- !app_assoc. cbn [app]. rewrite <- app_assoc.
  split; [reflexivity|]. split; [exact Hne|]. split; [exact Hws | exact Hv].
Qed.

Lemma string_property_first (text name v : str) :
  _extract_string_property text name = Some v
  <-> exists j, j <= length text
                /\ quoted_after name (drop j text) v
                /\ forall j' v', j' < j ->
                                 ~ quoted_after name (drop j' text) v'.
Proof.
  unfold _extract_string_property, re_search. split.
  - destruct (search_from _ text 0) as [m|] eqn:E; [|discriminate].
    intros [= <-]. apply search_from_first in E.
    destruct E as (j & _ & Hj & Hm & Hfirst). cbn [Nat.add] in Hm, Hfirst.
    exists j. split; [exact Hj|].
    split; [exact (string_property_here _ _ _ _ Hm)|].
    intros j' v' Hlt (ws & rest & Heq & Hne & Hws & Hv).
    specialize (Hfirst j' Hlt). rewrite Heq in Hfirst.
    rewrite (string_property_match name ws v' rest j' Hne Hws Hv) in Hfirst.
    discriminate Hfirst.
  - intros (j & Hj & (ws & rest & Heq & Hne & Hws & Hv) & Hfirst).
    pose proof (string_property_match name ws v rest j Hne Hws Hv) as Hm.
    rewrite <- Heq in Hm.
    destruct (search_from _ text 0) as [m|] eqn:E.
    + apply search_from_first in E.
      destruct E as (j0 & _ & Hj0 & Hm0 & Hfirst0).
      cbn [Nat.add] in Hm0, Hfirst0.
      destruct (Nat.lt_trichotomy j0 j) as [Hlt|[->|Hgt]].
      * exfalso. apply (Hfirst j0 (m_group 1 m) Hlt).
        exact (string_property_here _ _ _ _ Hm0).
      * rewrite Hm in Hm0. injection Hm0 as <-. reflexivity.
      * rewrite (Hfirst0 j Hgt) in Hm. discriminate Hm.
    + pose proof (search_from_None _ _ 0 j E Hj) as Hn.
      cbn [Nat.add] in Hn. rewrite Hn in Hm. discriminate Hm.
Qed.

(** [X16].  A quoted property is read at the first place of the text
    where its name, blanks and a quoted value stand, whatever block that
    place is in.  The description of a parsed configuration is read in
    this way in the whole text, so that it is the description of a
    beneficiary, a tier or a goal when one of these comes first. *)
Theorem string_property_first_occurrence (text name v : str) :
  (_extract_string_property text name = Some v
   <-> exists j, j <= length text
                 /\ quoted_after name (drop j text) v
                 /\ forall j' v', j' < j ->
                                  ~ quoted_after name (drop j' text) v')
  /\ (forall c, parse_text text = Ok c ->
                description c
                = _extract_string_property (strip_comments text)
                                           (u"description")).
Proof.
  split; [apply string_property_first|].
  intros c H. apply parse_text_Ok in H.
  destruct H as (m & mn & mx & tl & gl & ts & _ & _ & _ & _ & _ & _ & ->).
  reflexivity.
Qed.

Lemma string_property_first_occurrence_witness :
  exists c,
    parse_text
      (uq "funding 'P' { beneficiaries { beneficiary 'Ann' { description 'her own' } } }")
    = Ok c
    /\ description c = Some (u"her own").
Proof.
  eexists. split; [vm_compute; reflexivity|].
  destruct (string_property_first_occurrence
    (uq "funding 'P' { beneficiaries { beneficiary 'Ann' { description 'her own' } } }")
    (u"description") (u"her own")) as [H1 H2].
  rewrite (H2 _ ltac:(vm_compute; reflexivity)).
  change (strip_comments _) with
    (uq "funding 'P' { beneficiaries { beneficiary 'Ann' { description 'her own' } } }").
  apply H1. exists 50. split; [vm_compute; lia|]. split.
  - exists (u" "), (u" } } }"). repeat split; vm_compute; congruence.
  - intros j' v' Hlt (ws & rest & Heq & _).
    do 50 (destruct j' as [|j']; [vm_compute in Heq; discriminate Heq|]).
    lia.
Defined.

(** ** The deadlines the parser keeps *)

Lemma match_here_group_lang (r : regex) (s : str) (i : nat) (m : re_match)
      (n : nat) :
  match_here r s i = Some m -> n ∈ sets r ->
  exists body, (n, body) ∈ bodies r /\ lang body (m_group n m).
Proof.
  intros H Hn. apply match_here_sound in H.
  destruct H as (w & s' & _ & _ & _ & _ & Hb & Hs).
  destruct (group_In n (m_groups m) (Hs n Hn)) as (w' & Hg & Hin).
  unfold m_group. rewrite Hg.
  rewrite Forall_forall in Hb. apply (Hb (n, w')), Hin.
Qed.

Lemma digit_in_range (lo hi : N) (c : ascii) :
  in_range lo hi c = true -> (48 <= lo)%N -> (hi <= 57)%N ->
  is_digit c = true
  /\ (Z.of_N lo - 48 <= digit_value c <= Z.of_N hi - 48)%Z.
Proof.
  unfold is_digit, in_range, digit_value. rewrite !andb_true_iff.
  intros [H1 H2] Hlo Hhi. apply N.leb_le in H1, H2.
  split; [split; apply N.leb_le; lia | lia].
Qed.

Lemma year_field (w : str) :
  lang (Cls is_digit -- Cls is_digit -- Cls is_digit -- Cls is_digit) w ->
  (0 <= int_of_field w <= 9999)%Z.
Proof.
  cbn [lang].
  intros (w1 & r1 & -> & (a & -> & Ha) & w2 & r2 & -> & (b & -> & Hb)
          & w3 & r3 & -> & (c & -> & Hc) & d & -> & Hd).
  unfold int_of_field. cbn [app List.filter]. rewrite Ha, Hb, Hc, Hd.
  unfold digits_value. cbn [fold_left].
  destruct (digit_in_range 48 57 a Ha) as [_ ?]; [lia | lia|].
  destruct (digit_in_range 48 57 b Hb) as [_ ?]; [lia | lia|].
  destruct (digit_in_range 48 57 c Hc) as [_ ?]; [lia | lia|].
  destruct (digit_in_range 48 57 d Hd) as [_ ?]; [lia | lia|].
  lia.
Qed.

Lemma month_field (w : str) :
  lang (Alt (Lit (u"1") -- Cls (in_range 48 50))
            (Alt (Lit (u"0") -- Cls (in_range 49 57))
                 (Cls (in_range 49 57)))) w ->
  (1 <= int_of_field w <= 12)%Z.
Proof.
  cbn [lang].
  intros [(w1 & r1 & -> & -> & c & -> & Hc)
         |[(w1 & r1 & -> & -> & c & -> & Hc) | (c & -> & Hc)]];
    unfold int_of_field; cbn [app List.filter u list_ascii_of_string].
  - destruct (digit_in_range 48 50 c Hc) as [Hd ?]; [lia | lia|].
    change (is_digit "1") with true. cbn iota. rewrite Hd.
    unfold digits_value. cbn [fold_left].
    change (digit_value "1") with 1%Z. lia.
  - destruct (digit_in_range 49 57 c Hc) as [Hd ?]; [lia | lia|].
    change (is_digit "0") with true. cbn iota. rewrite Hd.
    unfold digits_value. cbn [fold_left].
    change (digit_value "0") with 0%Z. lia.
  - destruct (digit_in_range 49 57 c Hc) as [Hd ?]; [lia | lia|].
    rewrite Hd. unfold digits_value. cbn [fold_left]. lia.
Qed.

(** What [strptime] accepts is a date of the calendar. *)
Lemma strptime_calendar (s : str) (dt : datetime) :
  strptime_ymd s = Some dt -> calendar_date dt.
Proof.
  unfold strptime_ymd, re_match_start.
  destruct (match_here ymd_re s 0) as [m|] eqn:E; [|discriminate].
  destruct (negb _); [discriminate|].
  destruct (_ && _) eqn:Ec; [|discriminate]. intros [= <-].
  apply andb_prop in Ec as [Ec Hd2]. apply andb_prop in Ec as [Hy Hd1].
  apply Z.leb_le in Hy, Hd1, Hd2.
  assert (Hy1 : (0 <= int_of_field (m_group 1 m) <= 9999)%Z).
  { destruct (match_here_group_lang _ _ _ _ 1 E) as (b1 & Hin1 & Hl1).
    { apply elem_of_cons. left. reflexivity. }
    cbn [bodies ymd_re app] in Hin1.
    apply elem_of_cons in Hin1 as [Hin1|Hin1].
    - injection Hin1 as ->. apply year_field, Hl1.
    - exfalso.
      repeat (apply elem_of_cons in Hin1 as [Hin1|Hin1];
              [discriminate Hin1|]).
      inversion Hin1. }
  assert (Hm2 : (1 <= int_of_field (m_group 2 m) <= 12)%Z).
  { destruct (match_here_group_lang _ _ _ _ 2 E) as (b2 & Hin2 & Hl2).
    { apply elem_of_cons. right. apply elem_of_cons. left. reflexivity. }
    cbn [bodies ymd_re app] in Hin2.
    apply elem_of_cons in Hin2 as [Hin2|Hin2]; [discriminate Hin2|].
    apply elem_of_cons in Hin2 as [Hin2|Hin2].
    - injection Hin2 as ->. apply month_field, Hl2.
    - exfalso.
      repeat (apply elem_of_cons in Hin2 as [Hin2|Hin2];
              [discriminate Hin2|]).
      inversion Hin2. }
  unfold calendar_date. cbn [year month day]. lia.
Qed.

(** [X17].  A deadline that a parsed goal has is a date of the
    calendar: a year from 1 to 9999, a month from 1 to 12 and a day that
    this month has in this year. *)
Theorem parsed_deadline_is_a_date (text : str) (c : FundingConfiguration) :
  parse_text text = Ok c ->
  Forall (fun g => forall dt, deadline g = Some dt -> calendar_date dt)
         (goals c).
Proof.
  intros H. apply parse_text_Ok in H.
  destruct H as (m & mn & mx & tl & gl & ts & _ & _ & _ & _ & _ & _ & ->).
  cbn [built goals]. rewrite Forall_fmap. apply Forall_forall.
  intros gd _ dt. cbn. unfold build_deadline.
  destruct (opt_str_falsy _); [discriminate|].
  destruct (dict_get (gd_deadline gd) None) as [s|]; [|discriminate].
  apply strptime_calendar.
Qed.

Lemma parsed_deadline_is_a_date_witness :
  exists c,
    parse_text
      (uq "funding 'P' { goals { goal 'G' { target 200 USD deadline '2024-02-29' } } }")
    = Ok c
    /\ map deadline (goals c) = [Some (MkDate 2024 2 29)]
    /\ Forall (fun g => forall dt, deadline g = Some dt -> calendar_date dt)
              (goals c).
Proof.
  eexists. split; [vm_compute; reflexivity|].
  split; [reflexivity|].
  apply (parsed_deadline_is_a_date
    (uq "funding 'P' { goals { goal 'G' { target 200 USD deadline '2024-02-29' } } }")).
  vm_compute. reflexivity.
Defined.

(** ** Lists and tables of quoted texts *)

Lemma finditer_Forall (P : re_match -> Prop) (r : regex) :
  (forall s m, re_search r s = Some m -> P m) ->
  forall fuel s, Forall P (finditer_fuel fuel r s).
Proof.
  intros HP. induction fuel as [|fuel IH]; intros s; cbn [finditer_fuel];
    [constructor|].
  destruct (re_search r s) as [m|] eqn:E; [|constructor].
  constructor; [exact (HP s m E) | apply IH].
Qed.

Lemma quoted_group_plain (s : str) (m : re_match) :
  re_search quoted_re s = Some m -> plain_value (m_group 1 m).
Proof.
  intros H. destruct (m_group_lang _ _ _ 1 H) as (body & Hin & Hl).
  - apply elem_of_cons. left. reflexivity.
  - cbn in Hin. apply list_elem_of_singleton in Hin. injection Hin as ->.
    exact Hl.
Qed.

Lemma kv_groups_plain (s : str) (m : re_match) :
  re_search kv_re s = Some m ->
  plain_value (m_group 1 m) /\ plain_value (m_group 2 m).
Proof.
  intros H. split.
  - destruct (m_group_lang _ _ _ 1 H) as (body & Hin & Hl).
    + apply elem_of_cons. left. reflexivity.
    + cbn in Hin. apply elem_of_cons in Hin as [Hin|Hin].
      * injection Hin as ->. exact Hl.
      * apply list_elem_of_singleton in Hin. discriminate Hin.
  - destruct (m_group_lang _ _ _ 2 H) as (body & Hin & Hl).
    + apply elem_of_cons. right. apply elem_of_cons. left. reflexivity.
    + cbn in Hin. apply elem_of_cons in Hin as [Hin|Hin];
        [discriminate Hin|].
      apply list_elem_of_singleton in Hin. injection Hin as ->. exact Hl.
Qed.

Lemma string_list_plain (text name : str) :
  Forall plain_value (_extract_string_list text name).
Proof.
  unfold _extract_string_list.
  destruct (re_search (string_list_re name) text) as [m|]; [|constructor].
  rewrite Forall_fmap. apply finditer_Forall. exact quoted_group_plain.
Qed.

Lemma config_block_plain (text : str) :
  map_Forall (fun k v => plain_value k /\ plain_value v)
             (_extract_config_block text).
Proof.
  unfold _extract_config_block.
  destruct (re_search config_re text) as [cm|]; [|apply map_Forall_empty].
  unfold re_finditer.
  pose proof (finditer_Forall _ kv_re kv_groups_plain
                (S (length (m_group 1 cm))) (m_group 1 cm)) as Hall.
  revert Hall. generalize (finditer_fuel (S (length (m_group 1 cm))) kv_re
                                         (m_group 1 cm)).
  intros ms. generalize (∅ : gmap str str) (map_Forall_empty
    (fun k v => plain_value k /\ plain_value v) (M := gmap str)).
  induction ms as [|m ms IH]; intros cfg Hcfg Hall; cbn [fold_left];
    [exact Hcfg|].
  apply Forall_cons in Hall as [Hm Hall].
  apply IH; [|exact Hall]. apply map_Forall_insert_2; assumption.
Qed.

Lemma tier_of_block_benefits (b : block) (td : tier_data) :
  tier_of_block b = Ok td ->
  dict_get (td_benefits td) []
  = _extract_string_list (blk_props b) (u"benefits").
Proof.
  unfold tier_of_block.
  destruct (extract_amount (blk_props b) (u"amount")) as [a|];
    cbn [bind]; [|discriminate].
  destruct (_extract_number_property (blk_props b) (u"max_sponsors"))
    as [mx|]; cbn [bind]; [|discriminate].
  intros [= <-]. reflexivity.
Qed.

(** [X18].  The benefits of every tier of a parsed configuration, and
    the keys and the values of the [config] table of every funding
    source, are texts that are not empty and have no double quote. *)
Theorem parsed_lists_plain (text : str) (c : FundingConfiguration) :
  parse_text text = Ok c ->
  Forall (fun t => Forall plain_value (t_benefits t)) (tiers c)
  /\ Forall (fun s => map_Forall (fun k v => plain_value k /\ plain_value v)
                                 (platform_specific_config s))
            (funding_sources c).
Proof.
  intros H. pose proof (parsed_sources _ _ H) as Hsrc.
  apply parse_text_Ok in H.
  destruct H as (m & mn & mx & tl & gl & ts & _ & _ & _ & Htl & _ & Hts & ->).
  cbn [built tiers funding_sources] in *. split.
  - rewrite extract_tiers_entries in Htl.
    eapply (map_result_Forall
              (fun td => Forall plain_value (dict_get (td_benefits td) [])));
      [| |exact Hts].
    + intros td t Htd Ht. apply build_tier_Ok in Ht as (_ & _ & -> & _).
      exact Htd.
    + eapply (map_result_Forall (fun _ => True)); [| |exact Htl].
      * intros b td _ Htd. rewrite (tier_of_block_benefits _ _ Htd).
        apply string_list_plain.
      * apply Forall_forall. intros; exact I.
  - eapply Forall_impl; [exact Hsrc|].
    intros s (kw & b & _ & _ & ->). cbn. apply config_block_plain.
Qed.

Lemma parsed_lists_plain_witness :
  exists c,
    parse_text example_text = Ok c
    /\ map t_benefits (tiers c) = [[u"a"; u"b"]]
    /\ Forall (fun t => Forall plain_value (t_benefits t)) (tiers c).
Proof.
  eexists. split; [vm_compute; reflexivity|].
  split; [reflexivity|].
  apply (parsed_lists_plain example_text).
  vm_compute. reflexivity.
Defined.

(** ** What [parse_file] reports *)

Lemma parse_text_Err (text : str) (e : exn) :
  parse_text text = Err e ->
  exists cause, e = ParseError (u"Parse error: " ++ exn_str cause).
Proof.
  unfold parse_text.
  destruct (do config_data <- _simple_parse text;
            _build_configuration config_data) as [c|e0]; [discriminate|].
  intros [= <-]. exists e0. reflexivity.
Qed.

(** [X19].  [parse_file] returns what [parse_text] returns for the text
    of the file.  A file that is not there is reported as not found; a
    text that [parse_text] refuses is reported as an error of reading
    the file, with the message of [parse_text], prefix included, after
    the path. *)
Theorem parse_file_reports (fs : filesystem) (file_path : str) :
  (forall content c,
     fs file_path = Ok content -> parse_text content = Ok c ->
     parse_file fs file_path = Ok c)
  /\ (forall p, fs file_path = Err (FileNotFoundError p) ->
                parse_file fs file_path
                = Err (ParseError (u"File not found: " ++ file_path)))
  /\ (forall content e,
        fs file_path = Ok content -> parse_text content = Err e ->
        exists cause,
          e = ParseError (u"Parse error: " ++ exn_str cause)
          /\ parse_file fs file_path
             = Err (ParseError (u"Error reading file " ++ file_path
                                ++ u": Parse error: " ++ exn_str cause))).
Proof.
  unfold parse_file. split; [|split].
  - intros content c -> H. cbn [bind]. rewrite H. reflexivity.
  - intros p ->. reflexivity.
  - intros content e -> H. cbn [bind]. rewrite H.
    apply parse_text_Err in H as [cause ->]. exists cause.
    split; [reflexivity|]. cbn [exn_str]. reflexivity.
Qed.

Lemma parse_file_reports_witness :
  parse_file (fun _ => Ok (u"tiers { }")) (u"a.funding")
  = Err (ParseError
           (u"Error reading file a.funding: Parse error: No funding block found")).
Proof.
  destruct (parse_file_reports (fun _ => Ok (u"tiers { }")) (u"a.funding"))
    as (_ & _ & H).
  destruct (H (u"tiers { }")
              (ParseError (u"Parse error: No funding block found"))
              eq_refl ltac:(vm_compute; reflexivity))
    as (cause & Hc & Hf).
  rewrite Hf. injection Hc as Hc. rewrite <- Hc. reflexivity.
Defined.

(** ** Adding to a valid configuration *)

Lemma NoDup_snoc {A : Type} (l : list A) (x : A) :
  NoDup (l ++ [x]) <-> NoDup l /\ x ∉ l.
Proof.
  rewrite NoDup_app. split.
  - intros (Hl & Hx & _). split; [exact Hl|].
    intros Hin. apply (Hx x Hin). apply list_elem_of_singleton. reflexivity.
  - intros [Hl Hx]. split; [exact Hl|]. split.
    + intros y Hy Hy'. apply list_elem_of_singleton in Hy'. subst y.
      exact (Hx Hy).
    + apply NoDup_singleton.
Qed.

Lemma add_keeps_valid (config : FundingConfiguration) :
  is_valid_configuration config = true ->
  (forall b, is_valid_configuration (add_beneficiary config b) = true)
  /\ (forall s, is_valid_configuration (add_funding_source config s) = true
                <-> well_formed_source s)
  /\ (forall t, is_valid_configuration (add_tier config t) = true
                <-> t_name t ∉ map t_name (tiers config))
  /\ (forall g, is_valid_configuration (add_goal config g) = true
                <-> g_name g ∉ map g_name (goals config)).
Proof.
  intros H. apply valid_iff_well_formed in H.
  destruct H as (Hp & Hb & Hs & Hall & Ht & Hg).
  split; [|split; [|split]].
  - intros b. apply valid_iff_well_formed. unfold well_formed.
    cbn [add_beneficiary project_name beneficiaries funding_sources tiers goals].
    split; [exact Hp|].
    split; [destruct (beneficiaries config); discriminate|].
    repeat split; assumption.
  - intros s. rewrite valid_iff_well_formed. unfold well_formed.
    cbn [add_funding_source project_name beneficiaries funding_sources tiers
         goals].
    rewrite Forall_app, Forall_singleton. split.
    + intros (_ & _ & _ & [_ H] & _). exact H.
    + intros H. split; [exact Hp|]. split; [exact Hb|].
      split; [destruct (funding_sources config); discriminate|].
      split; [split; [exact Hall | exact H]|]. split; assumption.
  - intros t. rewrite valid_iff_well_formed. unfold well_formed.
    cbn [add_tier project_name beneficiaries funding_sources tiers goals].
    rewrite map_app. cbn [map]. rewrite NoDup_snoc. split.
    + intros (_ & _ & _ & _ & [_ H] & _). exact H.
    + intros H. split; [exact Hp|]. split; [exact Hb|]. split; [exact Hs|].
      split; [exact Hall|]. split; [split; assumption | exact Hg].
  - intros g. rewrite valid_iff_well_formed. unfold well_formed.
    cbn [add_goal project_name beneficiaries funding_sources tiers goals].
    rewrite map_app. cbn [map]. rewrite NoDup_snoc. split.
    + intros (_ & _ & _ & _ & _ & [_ H]). exact H.
    + intros H. split; [exact Hp|]. split; [exact Hb|]. split; [exact Hs|].
      split; [exact Hall|]. split; [exact Ht | split; assumption].
Qed.

(** [X20].  The [add_*] methods check nothing; what they do to a valid
    configuration is this: another beneficiary leaves it valid, another
    funding source leaves it valid exactly when the source is well
    formed, and another tier or goal exactly when its name is not yet the
    name of a tier, or of a goal, of the configuration. *)
Theorem adding_to_a_valid_configuration (config : FundingConfiguration) :
  is_valid_configuration config = true ->
  (forall b, is_valid_configuration (add_beneficiary config b) = true)
  /\ (forall s, is_valid_configuration (add_funding_source config s) = true
                <-> well_formed_source s)
  /\ (forall t, is_valid_configuration (add_tier config t) = true
                <-> t_name t ∉ map t_name (tiers config))
  /\ (forall g, is_valid_configuration (add_goal config g) = true
                <-> g_name g ∉ map g_name (goals config)).
Proof. exact (add_keeps_valid config). Qed.

Lemma adding_to_a_valid_configuration_witness :
  let tier name :=
    MkTier name (MkAmount (Float.of_Z 5) USD) None [] None true in
  let config :=
    MkConfig (u"P") None [MkBeneficiary (u"Ann") None None None None]
             [MkSource PATREON (u"ann") BOTH (Some true) None ∅]
             [tier (u"Basic")] [] USD None None in
  is_valid_configuration config = true
  /\ is_valid_configuration (add_tier config (tier (u"Basic"))) <> true
  /\ is_valid_configuration (add_tier config (tier (u"Gold"))) = true.
Proof.
  intros tier config.
  assert (Hv : is_valid_configuration config = true)
    by (vm_compute; reflexivity).
  destruct (adding_to_a_valid_configuration config Hv) as (_ & _ & Ht & _).
  split; [exact Hv|]. split.
  - intros H. apply Ht in H. apply H. cbn.
    apply list_elem_of_singleton. reflexivity.
  - apply Ht. cbn. intros H. apply list_elem_of_singleton in H.
    discriminate H.
Defined.

(** ** Reading back what was written *)

Lemma search_from_here (r : regex) (s : str) (i : nat) (m : re_match) :
  match_here r s i = Some m -> search_from r s i = Some m.
Proof. intros H. destruct s; cbn [search_from]; rewrite H; reflexivity. Qed.

Lemma entry_header_match (keyword name rest : str) (i : nat) :
  plain_value name ->
  match_here (entry_re keyword) (entry_header keyword name ++ rest) i
  = Some (MkMatch i (i + length (entry_header keyword name)) [(1, name)]).
Proof.
  intros [Hv Hnq]. destruct name as [|d v]; [congruence|].
  cbn [forallb] in Hnq. apply andb_prop in Hnq as [Hd Hnq].
  unfold entry_header.
  replace ((keyword ++ u" " ++ dquote :: (d :: v) ++ dquote :: u" {") ++ rest)
    with (keyword ++ u" " ++ dquote :: (d :: v) ++ dquote :: u" {" ++ rest).
  2:{ rewrite <- !app_assoc. cbn [app]. rewrite <- !app_assoc. reflexivity. }
  unfold match_here, entry_re, q. cbn [rmatch].
  rewrite strip_prefix_app.
  change (u" " ++ ?x) with (ch " " :: x).
  change (is_space (ch " ")) with true. cbn iota.
  rewrite star_greedy_span.
  2:{ intros c' s' i' g' Hc'. cbn [rmatch strip_prefix].
      destruct (Ascii.eqb_spec dquote c') as [<-|]; [discriminate Hc'|].
      reflexivity. }
  change (span is_space (dquote :: ?x)) with (@nil ascii, dquote :: x).
  cbn [fst snd rmatch strip_prefix]. rewrite Ascii.eqb_refl.
  cbn [app]. rewrite Hd.
  rewrite star_greedy_span.
  2:{ intros c' s' i' g' Hc'. cbn [rmatch strip_prefix].
      unfold not_quote in Hc'. rewrite Ascii.eqb_sym.
      apply negb_true_iff in Hc'. rewrite Hc'. reflexivity. }
  rewrite (span_stop not_quote v dquote _ Hnq).
  2:{ unfold not_quote. rewrite Ascii.eqb_refl. reflexivity. }
  cbn [fst snd rmatch strip_prefix]. rewrite Ascii.eqb_refl.
  change (u" {" ++ rest) with (ch " " :: ch "{" :: rest).
  cbn [star_greedy]. change (is_space (ch " ")) with true.
  change (is_space (ch "{")) with false. cbn iota.
  cbn [strip_prefix u list_ascii_of_string]. rewrite Ascii.eqb_refl.
  unfold accept. f_equal. f_equal.
  - rewrite !length_app. cbn [length]. rewrite !length_app. cbn [length]. lia.
  - f_equal. f_equal. rewrite app_comm_cons.
    match goal with
    | |- take ?n _ = _ =>
        replace n with (length (d :: v)) by (cbn [length]; lia)
    end.
    apply take_app_length.
Qed.

Lemma entry_found (c0 : ascii) (l name rest : str) :
  Ascii.eqb c0 (ch " ") = false -> plain_value name ->
  re_search (entry_re (c0 :: l))
            (u" " ++ entry_header (c0 :: l) name ++ rest)
  = Some (MkMatch 1 (1 + length (entry_header (c0 :: l) name)) [(1, name)]).
Proof.
  intros Hc Hn. unfold entry_re at 1.
  rewrite (re_search_skip c0 l _ (u" ")).
  2:{ unfold contains_char. cbn [existsb u list_ascii_of_string].
      cbn [ch] in Hc. rewrite Hc. reflexivity. }
  fold (entry_re (c0 :: l)). unfold re_search.
  rewrite (search_from_here _ _ _ _ (entry_header_match _ _ rest 0 Hn)).
  cbn [option_map]. unfold shift_match.
  cbn [m_start m_end m_groups length u list_ascii_of_string].
  f_equal. f_equal; lia.
Qed.

Lemma scan_entries_read_back (c0 : ascii) (l : str)
      (items : list (str * str)) :
  Ascii.eqb c0 (ch " ") = false ->
  Forall (fun e => plain_value e.1 /\ balanced e.2 = true) items ->
  forall pre fuel,
    length items < fuel ->
    map (fun b => (blk_name b, blk_props b))
        (scan_entries fuel (entry_re (c0 :: l))
                      (pre ++ flat_map (entry_text (c0 :: l)) items)
                      (length pre))
    = items.
Proof.
  intros Hc Hall.
  induction Hall as [|[name props] items [Hn Hp] _ IH]; intros pre fuel Hfuel;
    (destruct fuel as [|fuel]; [cbn [length] in Hfuel; lia|]);
    cbn [scan_entries flat_map]; rewrite drop_app_length.
  - rewrite re_search_nil; [reflexivity|].
    rewrite entry_re_min_len. lia.
  - cbn [fst snd] in Hn, Hp.
    set (R := flat_map (entry_text (c0 :: l)) items) in *.
    set (hdr := entry_header (c0 :: l) name).
    assert (Hentry : entry_text (c0 :: l) (name, props)
                     = u" " ++ hdr ++ props ++ u"}") by reflexivity.
    assert (Hhdr : exists h, hdr = h ++ [ch "{"]).
    { subst hdr. unfold entry_header.
      exists ((c0 :: l) ++ u" " ++ dquote :: name ++ dquote :: u" ").
      rewrite <- !app_assoc. cbn [app]. rewrite <- !app_assoc. reflexivity. }
    destruct Hhdr as [h Hh].
    assert (Htext : pre ++ entry_text (c0 :: l) (name, props) ++ R
                    = (pre ++ u" " ++ h) ++ ch "{" :: props ++ ch "}" :: R).
    { rewrite Hentry, Hh, <- !app_assoc. reflexivity. }
    assert (Hfound : re_search (entry_re (c0 :: l))
                               (entry_text (c0 :: l) (name, props) ++ R)
                     = Some (MkMatch 1 (1 + length hdr) [(1, name)])).
    { rewrite Hentry, <- !app_assoc. exact (entry_found c0 l name _ Hc Hn). }
    rewrite Hfound. cbn [m_group m_groups group Nat.eqb m_end m_start map
                         blk_name blk_props].
    assert (Hpos : length pre + (1 + length hdr) - 1
                   = length (pre ++ u" " ++ h)).
    { rewrite Hh, !length_app. cbn [length u list_ascii_of_string]. lia. }
    rewrite Hpos, Htext, (balanced_content_nested _ _ _ Hp). f_equal.
    rewrite <- Htext, app_assoc.
    replace (length (pre ++ u" " ++ h) + length props + 2)
      with (length (pre ++ entry_text (c0 :: l) (name, props))).
    2:{ rewrite Hentry, Hh, !length_app. cbn [length u list_ascii_of_string].
        rewrite ?length_app. cbn [length]. lia. }
    apply IH. cbn [length] in Hfuel. lia.
Qed.

Lemma entries_read_back_all (keyword : str) (items : list (str * str)) :
  (exists c0 l, keyword = c0 :: l /\ c0 <> ch " ") ->
  Forall (fun e => plain_value e.1 /\ balanced e.2 = true) items ->
  map (fun b => (blk_name b, blk_props b))
      (entries (entry_re keyword) (flat_map (entry_text keyword) items))
  = items.
Proof.
  intros (c0 & l & -> & Hc) Hall. unfold entries.
  apply (scan_entries_read_back c0 l items
           (proj2 (Ascii.eqb_neq _ _) Hc) Hall []).
  assert (H : length items <= length (flat_map (entry_text (c0 :: l)) items)).
  { clear. induction items as [|e items IH]; cbn [flat_map length]; [lia|].
    rewrite length_app. unfold entry_text at 1.
    cbn [app length u list_ascii_of_string]. lia. }
  lia.
Qed.

(** [X21].  The loop over the entries of a block reads back what was
    written: from a text made of entries, each one a blank, the keyword,
    a blank, a quoted name, a blank and a text between braces, it returns
    the names and the texts in order, for names that are not empty and
    have no double quote and texts whose braces are matched, whatever else
    the texts hold, headers of further entries included. *)
Theorem entries_read_back (keyword : str) (items : list (str * str)) :
  (exists c0 l, keyword = c0 :: l /\ c0 <> ch " ") ->
  Forall (fun e => plain_value e.1 /\ balanced e.2 = true) items ->
  map (fun b => (blk_name b, blk_props b))
      (entries (entry_re keyword) (flat_map (entry_text keyword) items))
  = items.
Proof. exact (entries_read_back_all keyword items). Qed.

Lemma entries_read_back_witness :
  map (fun b => (blk_name b, blk_props b))
      (entries (entry_re (u"tier"))
               (uq " tier 'A' { tier 'B' { } amount 5 USD } tier 'C' {}"))
  = [(u"A", uq " tier 'B' { } amount 5 USD "); (u"C", [])].
Proof.
  apply (entries_read_back (u"tier")
           [(u"A", uq " tier 'B' { } amount 5 USD "); (u"C", [])]).
  - exists (ch "t"), (u"ier"). split; [reflexivity | discriminate].
  - repeat constructor; vm_compute; congruence.
Defined.

Lemma quoted_found (x rest : str) :
  plain_value x ->
  re_search quoted_re (quoted x ++ rest)
  = Some (MkMatch 0 (length (quoted x)) [(1, x)]).
Proof.
  intros [Hv Hnq]. destruct x as [|d v]; [congruence|].
  cbn [forallb] in Hnq. apply andb_prop in Hnq as [Hd Hnq].
  unfold re_search. apply search_from_here.
  unfold match_here, quoted_re, q, quoted. cbn [rmatch app strip_prefix].
  rewrite Ascii.eqb_refl, Hd.
  rewrite star_greedy_span.
  2:{ intros c' s' i' g' Hc'. cbn [rmatch strip_prefix].
      unfold not_quote in Hc'. rewrite Ascii.eqb_sym.
      apply negb_true_iff in Hc'. rewrite Hc'. reflexivity. }
  rewrite <- app_assoc. cbn [app].
  rewrite (span_stop not_quote v dquote _ Hnq).
  2:{ unfold not_quote. rewrite Ascii.eqb_refl. reflexivity. }
  cbn [fst snd rmatch strip_prefix]. rewrite Ascii.eqb_refl.
  unfold accept. f_equal. f_equal.
  - cbn [length]. rewrite length_app. cbn [length]. lia.
  - f_equal. f_equal.
    match goal with
    | |- take ?n _ = _ =>
        replace n with (length (d :: v)) by (cbn [length]; lia)
    end.
    rewrite app_comm_cons. apply take_app_length.
Qed.

Lemma finditer_skip (c0 : ascii) (l : str) (r' : regex) (a : str) :
  contains_char c0 a = false ->
  forall fuel s,
    map m_groups (finditer_fuel fuel (Lit (c0 :: l) -- r') (a ++ s))
    = map m_groups (finditer_fuel fuel (Lit (c0 :: l) -- r') s).
Proof.
  intros Ha fuel s. destruct fuel as [|fuel]; cbn [finditer_fuel];
    [reflexivity|].
  rewrite (re_search_skip _ _ _ _ _ Ha).
  destruct (re_search _ s) as [m|]; cbn [option_map map]; [|reflexivity].
  unfold shift_match at 1 2. cbn [m_groups m_end]. do 2 f_equal.
  rewrite Nat.add_comm, drop_app_add. reflexivity.
Qed.

Lemma finditer_quoted (items : list str) :
  Forall plain_value items ->
  forall fuel,
    length items < fuel ->
    map m_groups (finditer_fuel fuel quoted_re
                                (join (u", ") (map quoted items)))
    = map (fun x => [(1, x)]) items.
Proof.
  induction 1 as [|x items Hx Hall IH]; intros fuel Hfuel;
    (destruct fuel as [|fuel]; [cbn [length] in Hfuel; lia|]).
  - reflexivity.
  - cbn [length] in Hfuel. cbn [map join finditer_fuel].
    destruct items as [|y items]; cbn [map].
    + pose proof (quoted_found x [] Hx) as Hfound.
      rewrite app_nil_r in Hfound. rewrite Hfound.
      cbn [m_end map m_groups]. f_equal. rewrite drop_all.
      destruct fuel; reflexivity.
    + rewrite (quoted_found x _ Hx). cbn [m_end map m_groups]. f_equal.
      rewrite drop_app_length.
      unfold quoted_re, q.
      rewrite (finditer_skip dquote [] _ (u", ") eq_refl).
      apply (IH fuel). cbn [length] in *. lia.
Qed.

Lemma join_quoted_no_bracket (items : list str) :
  Forall (fun x => contains_char (ch "]") x = false) items ->
  contains_char (ch "]") (join (u", ") (map quoted items)) = false.
Proof.
  unfold contains_char.
  induction 1 as [|x items Hx Hall IH]; [reflexivity|].
  assert (Hq : existsb (Ascii.eqb (ch "]")) (quoted x) = false).
  { unfold quoted. cbn [existsb]. rewrite existsb_app, Hx. reflexivity. }
  cbn [map join]. destruct (map quoted items) as [|y ys] eqn:E; [exact Hq|].
  rewrite !existsb_app, Hq, IH. reflexivity.
Qed.

Lemma join_quoted_length (items : list str) :
  length items <= length (join (u", ") (map quoted items)).
Proof.
  induction items as [|x items IH]; [cbn; lia|].
  cbn [map join length]. destruct (map quoted items) as [|y ys] eqn:E.
  - destruct items; [|discriminate E]. cbn. lia.
  - rewrite !length_app. cbn [length u list_ascii_of_string] in *. lia.
Qed.

Lemma star_lazy_until {R : Type} (c : ascii) (inner post : str)
      (k : @cont R) (g : groups) (res : R) :
  contains_char c inner = false ->
  (forall x s' i' g', Ascii.eqb c x = false -> k (x :: s') i' g' = None) ->
  forall i,
    k (c :: post) (i + length inner) g = Some res ->
    star_lazy any_char (inner ++ c :: post) i g k = Some res.
Proof.
  unfold contains_char. intros Hin Hk.
  induction inner as [|x inner IH]; intros i Hres; cbn [app star_lazy length].
  - cbn [length] in Hres. rewrite Nat.add_0_r in Hres. rewrite Hres.
    reflexivity.
  - cbn [existsb] in Hin. apply orb_false_elim in Hin as [Hx Hin].
    rewrite (Hk _ _ _ _ Hx). cbn [any_char]. apply (IH Hin).
    cbn [length] in Hres. rewrite <- Hres. f_equal. lia.
Qed.

Lemma string_list_found (name inner post : str) :
  contains_char (ch "]") inner = false ->
  exists m,
    re_search (string_list_re name) (name ++ u" [" ++ inner ++ u"]" ++ post)
    = Some m
    /\ m_group 1 m = inner.
Proof.
  intros Hin. eexists. split.
  - unfold re_search. apply search_from_here.
    unfold match_here, string_list_re. cbn [rmatch].
    rewrite strip_prefix_app.
    rewrite star_greedy_span.
    2:{ intros c' s' i' g' Hc'. cbn [rmatch strip_prefix u
          list_ascii_of_string].
        destruct (Ascii.eqb_spec "[" c') as [<-|]; [discriminate Hc'|].
        reflexivity. }
    change (u" [" ++ inner ++ u"]" ++ post)
      with (ch " " :: ch "[" :: inner ++ ch "]" :: post).
    change (span is_space (ch " " :: ch "[" :: ?x))
      with ([ch " "], ch "[" :: x).
    cbn [fst snd rmatch strip_prefix u list_ascii_of_string].
    rewrite Ascii.eqb_refl.
    apply (star_lazy_until (ch "]") inner post); [exact Hin| |].
    + intros x s' i' g' Hx. cbn [strip_prefix]. cbn [ch] in Hx.
      rewrite Hx. reflexivity.
    + cbn [strip_prefix]. rewrite Ascii.eqb_refl. reflexivity.
  - cbn [m_group m_groups group Nat.eqb].
    match goal with
    | |- take ?n _ = _ => replace n with (length inner) by lia
    end.
    apply take_app_length.
Qed.

Lemma groups_first (ms : list re_match) (items : list str) :
  map m_groups ms = map (fun x => [(1, x)]) items ->
  map (m_group 1) ms = items.
Proof.
  revert items. induction ms as [|m ms IH]; intros [|x items] H;
    try discriminate H; [reflexivity|].
  cbn [map] in *. injection H as Hm Hms. f_equal.
  - unfold m_group. rewrite Hm. reflexivity.
  - apply IH, Hms.
Qed.

Lemma string_list_read_back_all (name post : str) (items : list str) :
  Forall (fun x => plain_value x /\ contains_char (ch "]") x = false) items ->
  _extract_string_list (list_text name items ++ post) name = items.
Proof.
  intros Hall.
  assert (Hp : Forall plain_value items)
    by (eapply Forall_impl; [exact Hall | intros x [H _]; exact H]).
  assert (Hb : Forall (fun x => contains_char (ch "]") x = false) items)
    by (eapply Forall_impl; [exact Hall | intros x [_ H]; exact H]).
  unfold _extract_string_list, list_text. rewrite <- !app_assoc.
  destruct (string_list_found name _ post (join_quoted_no_bracket _ Hb))
    as (m & -> & ->).
  unfold re_finditer.
  pose proof (finditer_quoted items Hp
                (S (length (join (u", ") (map quoted items))))
                ltac:(pose proof (join_quoted_length items); lia)) as H.
  apply groups_first, H.
Qed.

(** [X22].  A list is read back as it was written: from a text that
    starts with the name of the property, a blank and the elements
    between double quotes in square brackets, [_extract_string_list]
    returns the elements in order, when no element is empty or has a
    double quote or a closing bracket in it; the empty list is read back
    as the empty list. *)
Theorem string_list_read_back (name post : str) (items : list str) :
  Forall (fun x => plain_value x /\ contains_char (ch "]") x = false) items ->
  _extract_string_list (list_text name items ++ post) name = items.
Proof. exact (string_list_read_back_all name post items). Qed.

Lemma string_list_read_back_witness :
  _extract_string_list (uq "benefits ['early access', 'a [badge', 'x'] }")
                       (u"benefits")
  = [u"early access"; u"a [badge"; u"x"].
Proof.
  apply (string_list_read_back (u"benefits") (u" }")
           [u"early access"; u"a [badge"; u"x"]).
  repeat constructor; vm_compute; congruence.
Defined.
